(** * Notebook helpers of the Object-Detection example collection

    A shallow embedding of the client-side Python code of the notebooks
    (format writers, polling loops, batching, post-processing) together
    with the properties the specification states about them.

    Conventions of the embedding:
    - a Python [str] is a Rocq [string]; each character stands for the code
      point of the same number (code points below 256);
    - a Python [list] is a Rocq [list]; a [dict] whose insertion order is
      observable is an association list, otherwise a [gmap];
    - a Python [int] is a [Z] (or a [nat] where it is a length or a
      position); a fixed-width numpy integer is a [Z] with its wrap-around
      written out; a Python [float] is a binary64 number ([PrimFloat.float])
      and its operations are the rounded ones;
    - an exception is the [None] result of a fallible function, or a
      [Raised] outcome where its class and message matter;
    - side effects (standard output, the object store, the clock, the
      remote service) are threaded explicitly. *)

From Stdlib Require Import ZArith QArith Qround List String Ascii Lia Bool Lqa.
From Stdlib.Strings Require Import Byte.
From Stdlib Require Import DecimalString.
From Stdlib Require PrimFloat FloatOps SpecFloat FloatAxioms.
From stdpp Require Import base option list gmap strings.

Local Open Scope string_scope.
Local Open Scope Z_scope.

(** ** Python built-ins used by the notebooks *)

Module Py.

(** [str(n)] for a Python [int]. *)
Definition str_int (n : Z) : string := NilZero.string_of_int (Z.to_int n).

(** The string ['\n']. *)
Definition nl : string := String (ascii_of_nat 10) "".

(** [sep.join(parts)]. *)
Fixpoint join (sep : string) (parts : list string) : string :=
  match parts with
  | [] => ""
  | x :: rest =>
      match rest with
      | [] => x
      | _ :: _ => x ++ sep ++ join sep rest
      end
  end.

(** [enumerate(xs)] consumed by a comprehension [f(i, x) for i, x in ...]. *)
Definition enumerate_map {A B} (f : Z -> A -> B) (xs : list A) : list B :=
  imap (fun i x => f (Z.of_nat i) x) xs.

(** Normalisation of one bound of a slice [xs[a:b]] for a list of length
    [len]: a negative bound counts from the end, and the result is clamped
    to [0 .. len]. *)
Definition slice_bound (len : nat) (i : Z) : nat :=
  let j := if i <? 0 then i + Z.of_nat len else i in
  Z.to_nat (Z.min (Z.max j 0) (Z.of_nat len)).

(** [xs[a:b]] (step 1). *)
Definition slice {A} (xs : list A) (a b : Z) : list A :=
  let lo := slice_bound (length xs) a in
  let hi := slice_bound (length xs) b in
  take (hi - lo)%nat (drop lo xs).

(** [range(start, stop, step)]: [None] is the [ValueError] of a zero step. *)
Definition range3 (start stop step : Z) : option (list Z) :=
  if step =? 0 then None
  else
    let n := if 0 <? step then (stop - start + step - 1) / step
             else (start - stop - step - 1) / (- step) in
    Some ((fun k => start + Z.of_nat k * step) <$> seq 0 (Z.to_nat n)).

(** [range(n)]. *)
Definition range (n : Z) : list Z := Z.of_nat <$> seq 0 (Z.to_nat n).

(** The UTF-8 encoding of one code point below 256. *)
Definition utf8_char (c : ascii) : list byte :=
  let n := N_of_ascii c in
  if (n <? 128)%N then [byte_of_ascii c]
  else [byte_of_ascii (ascii_of_N (N.lor 192 (N.shiftr n 6)));
        byte_of_ascii (ascii_of_N (N.lor 128 (N.land n 63)))].

(** [bytes(s, 'utf-8')] and [s.encode('utf-8')]. *)
Fixpoint bytes_utf8 (s : string) : list byte :=
  match s with
  | EmptyString => []
  | String c rest => (utf8_char c ++ bytes_utf8 rest)%list
  end.

(** An [io.BytesIO] object: its buffer and its stream position. *)
Record BytesIO := mkBytesIO { buf : list byte; pos : nat }.

(** [io.BytesIO()]. *)
Definition BytesIO_new : BytesIO := mkBytesIO [] 0.

(** [f.write(b)]: the bytes go to the stream position, over what is there,
    after zero padding when the position is past the end. A write of no
    bytes leaves the stream as it is (no padding). *)
Definition write (f : BytesIO) (b : list byte) : BytesIO :=
  match b with
  | [] => f
  | _ :: _ =>
      let padded := (buf f ++ replicate (pos f - length (buf f)) x00)%list in
      mkBytesIO (take (pos f) padded ++ b ++ drop (pos f + length b) padded)%list
                (pos f + length b)
  end.

(** [f.seek(n)] for an absolute position. *)
Definition seek (f : BytesIO) (n : nat) : BytesIO := mkBytesIO (buf f) n.

(** [f.read()]: everything from the stream position on. *)
Definition read_rest (f : BytesIO) : list byte := drop (pos f) (buf f).

(** A [for] loop whose body may raise: the state after the last turn, or
    [None] as soon as a turn raises. *)
Fixpoint for_each {S X} (body : S -> X -> option S) (s : S) (xs : list X) : option S :=
  match xs with
  | [] => Some s
  | x :: rest =>
      match body s x with
      | Some s' => for_each body s' rest
      | None => None
      end
  end.

(** [xs[i]] for a list: a negative index counts from the end; [None] is
    the [IndexError]. *)
Definition index {A} (xs : list A) (i : Z) : option A :=
  if 0 <=? i then xs !! Z.to_nat i
  else if - Z.of_nat (length xs) <=? i then xs !! Z.to_nat (i + Z.of_nat (length xs))
  else None.

(** [float(z)] for a whole number: the nearest binary64 number, ties to
    even. A whole number too large for a float gives infinity here, where
    Python raises [OverflowError]. *)
Definition float_of_int (z : Z) : PrimFloat.float :=
  FloatOps.SF2Prim (SpecFloat.binary_normalize FloatOps.prec FloatOps.emax z 0 false).

(** [int(x)] for a float: truncation toward zero; [None] when [x] is not
    finite ([ValueError] for a NaN, [OverflowError] for an infinity). *)
Definition int_of_float (x : PrimFloat.float) : option Z :=
  match FloatOps.Prim2SF x with
  | SpecFloat.S754_zero _ => Some 0
  | SpecFloat.S754_finite s m e =>
      let magnitude := if 0 <=? e then Z.pos m * 2 ^ e else Z.pos m / 2 ^ (- e) in
      Some (if s then - magnitude else magnitude)
  | _ => None
  end.

(** The rational number a finite float stands for. *)
Definition Q_of_float (x : PrimFloat.float) : option Q :=
  match FloatOps.Prim2SF x with
  | SpecFloat.S754_zero _ => Some 0%Q
  | SpecFloat.S754_finite s m e =>
      let magnitude := if 0 <=? e then inject_Z (Z.pos m * 2 ^ e)
                       else (inject_Z (Z.pos m) / inject_Z (2 ^ (- e)))%Q in
      Some (if s then (- magnitude)%Q else magnitude)
  | _ => None
  end.

(** *** Facts about the built-ins *)

Lemma append_cons (x : ascii) (a b : string) : String x a ++ b = String x (a ++ b).
Proof. reflexivity. Qed.

Lemma append_assoc (a b c : string) : (a ++ b) ++ c = a ++ (b ++ c).
Proof.
  induction a as [|x a IH]; [reflexivity|].
  rewrite !append_cons, IH. reflexivity.
Qed.

Lemma join_last sep (init : list string) (lst : string) :
  exists pre, join sep (init ++ [lst]) = pre ++ lst.
Proof.
  induction init as [|x init [pre IH]].
  - exists "". reflexivity.
  - change ((x :: init) ++ [lst])%list with (x :: (init ++ [lst]))%list.
    destruct (init ++ [lst])%list as [|y rest] eqn:E.
    + destruct init; discriminate.
    + exists (x ++ sep ++ pre). simpl in *. rewrite IH.
      rewrite !append_assoc. reflexivity.
Qed.

Lemma write_new (b : list byte) : write BytesIO_new b = mkBytesIO b (length b).
Proof.
  destruct b as [|x b]; [reflexivity|].
  unfold write, BytesIO_new. cbn [buf pos length Nat.sub Nat.add replicate app take].
  rewrite drop_nil, app_nil_r. reflexivity.
Qed.

Lemma slice_bound_nat (len i : nat) : slice_bound len (Z.of_nat i) = Nat.min i len.
Proof.
  unfold slice_bound. destruct (Z.ltb_spec (Z.of_nat i) 0); lia.
Qed.

Lemma slice_take_drop {A} (xs : list A) (a b : nat) :
  (a <= b)%nat ->
  slice xs (Z.of_nat a) (Z.of_nat b) = take (b - a) (drop a xs).
Proof.
  intros Hab. unfold slice. rewrite !slice_bound_nat.
  apply list_eq. intros i. rewrite !lookup_take, !lookup_drop.
  destruct (decide (i < Nat.min b (length xs) - Nat.min a (length xs))%nat) as [H1|H1];
    destruct (decide (i < b - a)%nat) as [H2|H2]; try reflexivity; try lia.
  - f_equal. lia.
  - symmetry. apply lookup_ge_None. lia.
Qed.

Lemma bytes_utf8_app (a b : string) :
  bytes_utf8 (a ++ b) = (bytes_utf8 a ++ bytes_utf8 b)%list.
Proof.
  induction a as [|c a IH]; [reflexivity|].
  rewrite append_cons. simpl. rewrite IH, app_assoc. reflexivity.
Qed.

(** *** Comparisons of floats *)

Lemma SFcompare_antisym (x y : SpecFloat.spec_float) :
  SpecFloat.SFcompare y x = option_map CompOpp (SpecFloat.SFcompare x y).
Proof.
  destruct x as [sx|sx| |sx mx ex], y as [sy|sy| |sy my ey]; simpl;
    try reflexivity; try (destruct sx; reflexivity); try (destruct sy; reflexivity);
    try (destruct sx, sy; reflexivity).
  f_equal. rewrite (Z.compare_antisym ex ey).
  change (PosDef.Pos.compare_cont Eq my mx) with (Pos.compare my mx).
  change (PosDef.Pos.compare_cont Eq mx my) with (Pos.compare mx my).
  rewrite (Pos.compare_antisym mx my).
  destruct sx, sy; try reflexivity; destruct (ex ?= ey); simpl; try reflexivity.
Qed.

Lemma is_nan_false (x : PrimFloat.float) :
  PrimFloat.is_nan x = false -> FloatOps.Prim2SF x <> SpecFloat.S754_nan.
Proof.
  unfold PrimFloat.is_nan. rewrite FloatAxioms.eqb_spec. unfold SpecFloat.SFeqb.
  intros H Hnan. rewrite Hnan in H. discriminate H.
Qed.

Lemma is_nan_true (x : PrimFloat.float) :
  PrimFloat.is_nan x = true -> FloatOps.Prim2SF x = SpecFloat.S754_nan.
Proof.
  unfold PrimFloat.is_nan. rewrite FloatAxioms.eqb_spec. unfold SpecFloat.SFeqb.
  destruct (FloatOps.Prim2SF x) as [sx|sx| |sx mx ex]; intros H; try reflexivity.
  - discriminate H.
  - destruct sx; discriminate H.
  - simpl in H. rewrite Z.compare_refl in H.
    change (PosDef.Pos.compare_cont Eq mx mx) with (Pos.compare mx mx) in H.
    rewrite Pos.compare_refl in H. destruct sx; discriminate H.
Qed.

(** For numbers that are not NaN, [x < y] fails exactly when [y <= x]. *)
Lemma ltb_leb (x y : PrimFloat.float) :
  PrimFloat.is_nan x = false -> PrimFloat.is_nan y = false ->
  PrimFloat.ltb x y = negb (PrimFloat.leb y x).
Proof.
  intros Hx Hy. apply is_nan_false in Hx, Hy.
  rewrite FloatAxioms.ltb_spec, FloatAxioms.leb_spec.
  unfold SpecFloat.SFltb, SpecFloat.SFleb.
  rewrite (SFcompare_antisym (FloatOps.Prim2SF x) (FloatOps.Prim2SF y)).
  destruct (FloatOps.Prim2SF x) as [sx|sx| |sx mx ex]; [| |congruence|];
    destruct (FloatOps.Prim2SF y) as [sy|sy| |sy my ey]; try congruence;
    match goal with |- context [SpecFloat.SFcompare ?a ?b] =>
      destruct (SpecFloat.SFcompare a b) as [[| |]|] eqn:E; try reflexivity; discriminate E
    end.
Qed.

(** A NaN is below nothing, nothing is below it, and it is at least
    nothing. *)
Lemma ltb_nan (x y : PrimFloat.float) :
  PrimFloat.is_nan x = true \/ PrimFloat.is_nan y = true ->
  PrimFloat.ltb x y = false /\ PrimFloat.leb y x = false.
Proof.
  rewrite FloatAxioms.ltb_spec, FloatAxioms.leb_spec.
  unfold SpecFloat.SFltb, SpecFloat.SFleb.
  intros [H|H]; apply is_nan_true in H; rewrite H.
  - split; [reflexivity|]. destruct (FloatOps.Prim2SF y); reflexivity.
  - split; [|reflexivity]. destruct (FloatOps.Prim2SF x); reflexivity.
Qed.

(** [int(x)] raises for a NaN. *)
Lemma int_of_float_nan (x : PrimFloat.float) :
  PrimFloat.is_nan x = true -> int_of_float x = None.
Proof. intros H. unfold int_of_float. rewrite (is_nan_true x H). reflexivity. Qed.

(** A write at the end of the buffer appends. *)
Lemma write_at_end (f : BytesIO) (b : list byte) :
  pos f = length (buf f) ->
  write f b = mkBytesIO (buf f ++ b) (length (buf f ++ b)).
Proof.
  intros Hpos. destruct b as [|x b].
  - rewrite app_nil_r, <- Hpos. destruct f; reflexivity.
  - unfold write. rewrite Hpos, Nat.sub_diag. simpl replicate.
    rewrite app_nil_r, firstn_all, drop_ge by lia.
    rewrite app_nil_r, length_app. reflexivity.
Qed.

End Py.

(** ** The libsvm writer and the partitioned upload (xgboost_mnist) *)

Module Libsvm.
Import Py.

(** What the notebook does to the outside: objects put into the object
    store, in order, and lines printed. *)
Record S3Object := mkS3Object
  { s3_bucket : string; s3_key : string; s3_body : list byte }.

Record World := mkWorld { uploads : list S3Object; stdout : list string }.

(** [print(line)]. *)
Definition print (line : string) (w : World) : World :=
  mkWorld (uploads w) (stdout w ++ [line])%list.

(** [write_to_s3(fobj, bucket, key)]: [upload_fileobj] reads the file object
    from its stream position to its end and stores that under [key]. *)
Definition write_to_s3 (fobj : BytesIO) (bucket key : string) (w : World) : World :=
  mkWorld (uploads w ++ [mkS3Object bucket key (read_rest fobj)])%list (stdout w).

Section Writer.
(** The element types of the label and feature arrays, with the text
    ['{}'.format] gives for them. *)
Context {L V : Type}.
Variable str_label : L -> string.
Variable str_value : V -> string.
(** The notebook's globals [bucket] and [prefix]. *)
Variable bucket prefix : string.

(** [to_libsvm(f, labels, values)]; the result is the file object [f]
    after the write. *)
Definition to_libsvm (f : BytesIO) (labels : list L) (values : list (list V)) : BytesIO :=
  write f (bytes_utf8 (join nl
    (zip_with
       (fun label vec =>
          str_label label ++ " " ++
          join " " (enumerate_map (fun i el => str_int (i + 1) ++ ":" ++ str_value el) vec))
       labels values))).

(** One turn of the loop of [upload_to_s3]. *)
Definition upload_part (partition_name : string) (labels : list L)
    (vectors : list (list V)) (partition_bound : Z) (w : World) (i : Z) : World :=
  let f := BytesIO_new in
  let f := to_libsvm f
             (slice labels (i * partition_bound) ((i + 1) * partition_bound))
             (slice vectors (i * partition_bound) ((i + 1) * partition_bound)) in
  let f := seek f 0 in
  let key := prefix ++ "/" ++ partition_name ++ "/examples" ++ str_int i in
  let url := "s3://" ++ bucket ++ "/" ++ key in
  let w := print ("Writing to " ++ url) w in
  let w := write_to_s3 f bucket key w in
  print ("Done writing to " ++ url) w.

(** [upload_to_s3(partition_name, partition)]; [partition] is the pair
    (feature rows, labels), its entries already the Python values [tolist()]
    gives. The quotient [len(labels) / num_partition] is a
    float that is not negative; for a length below 2^53 [int] of it is the
    floor of the exact quotient. *)
Definition upload_to_s3 (partition_name : string)
    (partition : list (list V) * list L) (w : World) : World :=
  let labels := snd partition in
  let vectors := fst partition in
  let num_partition := 5 in
  let partition_bound := Z.of_nat (length labels) / num_partition in
  foldl (upload_part partition_name labels vectors partition_bound) w (range num_partition).

(** *** Views used to state the properties *)

(** The line of one example. *)
Definition libsvm_line (ex : L * list V) : string :=
  str_label (fst ex) ++ " " ++
  join " " (imap (fun i el => str_int (Z.of_nat i + 1) ++ ":" ++ str_value el) (snd ex)).

(** The examples of a partition: row [k] is [(labels[k], vectors[k])]. *)
Definition examples (partition : list (list V) * list L) : list (L * list V) :=
  zip (snd partition) (fst partition).

(** The key of part [i]. *)
Definition part_key (partition_name : string) (i : nat) : string :=
  prefix ++ "/" ++ partition_name ++ "/examples" ++ str_int (Z.of_nat i).

(** The stored object of part [i] holding the examples [exs]. *)
Definition part_object (partition_name : string) (i : nat) (exs : list (L * list V)) : S3Object :=
  mkS3Object bucket (part_key partition_name i)
    (bytes_utf8 (join nl (libsvm_line <$> exs))).

Lemma to_libsvm_examples f labels vectors :
  to_libsvm f labels vectors =
  write f (bytes_utf8 (join nl (libsvm_line <$> zip labels vectors))).
Proof.
  unfold to_libsvm. do 3 f_equal. rewrite zip_with_zip.
  apply list_fmap_ext. intros _ [label vec] _. reflexivity.
Qed.

(** C3. For label and value sequences of equal length, [to_libsvm] writes
    to [f] the UTF-8 encoding of the lines joined by a newline, one line
    per (label, vec) pair in input order: line [k] is the label, a space,
    and the space-joined features, feature [i] being ["i+1:value"]; the
    text ends with the last line (no newline after it); and the value
    returned is [f] after that write. *)
Theorem to_libsvm_lines (f : BytesIO) (labels : list L) (values : list (list V)) :
  length labels = length values ->
  exists lines : list string,
    to_libsvm f labels values = write f (bytes_utf8 (join nl lines))
    /\ length lines = length labels
    /\ (forall (k : nat) label vec,
          labels !! k = Some label -> values !! k = Some vec ->
          exists feats : list string,
            lines !! k = Some (str_label label ++ " " ++ join " " feats)
            /\ length feats = length vec
            /\ forall (i : nat) el, vec !! i = Some el ->
                 feats !! i = Some (str_int (Z.of_nat i + 1) ++ ":" ++ str_value el))
    /\ (forall init lst, lines = (init ++ [lst])%list ->
          exists pre, join nl lines = pre ++ lst).
Proof.
  intros Hlen. exists (libsvm_line <$> zip labels values).
  split; [apply to_libsvm_examples|].
  split; [rewrite length_fmap, length_zip_with; lia|].
  split.
  - intros k label vec Hl Hv.
    exists (imap (fun i el => str_int (Z.of_nat i + 1) ++ ":" ++ str_value el) vec).
    split; [|split].
    + rewrite list_lookup_fmap, lookup_zip_with, Hl. simpl. rewrite Hv. reflexivity.
    + apply length_imap.
    + intros i el Hi. rewrite list_lookup_imap, Hi. reflexivity.
  - intros init lst ->. apply join_last.
Qed.

(** *** The partitioned upload *)

Lemma upload_part_uploads partition_name labels vectors (pb i : nat) w :
  uploads (upload_part partition_name labels vectors (Z.of_nat pb) w (Z.of_nat i)) =
  (uploads w ++
    [part_object partition_name i (take pb (drop (i * pb) (zip labels vectors)))])%list.
Proof.
  unfold upload_part, part_object, part_key. simpl. do 2 f_equal.
  replace (Z.of_nat i * Z.of_nat pb) with (Z.of_nat (i * pb)) by lia.
  replace ((Z.of_nat i + 1) * Z.of_nat pb) with (Z.of_nat (i * pb + pb)) by lia.
  rewrite !slice_take_drop by lia.
  replace (i * pb + pb - i * pb)%nat with pb by lia.
  rewrite to_libsvm_examples, write_new.
  unfold read_rest, seek. simpl.
  rewrite <- zip_with_take, <- zip_with_drop. reflexivity.
Qed.

Lemma chunk_of_prefix {A} (xs : list A) (pb i m : nat) :
  (i * pb + pb <= m)%nat ->
  take pb (drop (i * pb) (take m xs)) = take pb (drop (i * pb) xs).
Proof.
  intros Hm. apply list_eq. intros j.
  rewrite !lookup_take, !lookup_drop, lookup_take.
  repeat case_decide; try reflexivity; lia.
Qed.

(** C9. With [num_partition = 5] and
    [partition_bound = floor(len(labels) / 5)], [upload_to_s3] stores five
    objects, [examples0] to [examples4]; object [i] is the libsvm text of
    the examples at positions [i * partition_bound] up to
    [(i + 1) * partition_bound]. The five chunks have [partition_bound]
    examples each and together are the first [5 * partition_bound]
    examples; the [len(labels) mod 5] examples after them reach no stored
    object: any partition of the same size with the same first
    [5 * partition_bound] examples stores the same objects. *)
Theorem upload_to_s3_chunks (partition_name : string)
    (vectors : list (list V)) (labels : list L) (w : World) :
  length vectors = length labels ->
  let n := length labels in
  let partition_bound := (n / 5)%nat in
  let exs := examples (vectors, labels) in
  let chunk (i : nat) := take partition_bound (drop (i * partition_bound) exs) in
  let w' := upload_to_s3 partition_name (vectors, labels) w in
  uploads w' =
    (uploads w ++ ((fun i => part_object partition_name i (chunk i)) <$> [0; 1; 2; 3; 4]%nat))%list
  /\ (forall i : nat, (i < 5)%nat -> length (chunk i) = partition_bound)
  /\ (chunk 0%nat ++ chunk 1%nat ++ chunk 2%nat ++ chunk 3%nat ++ chunk 4%nat)%list
       = take (5 * partition_bound) exs
  /\ length (drop (5 * partition_bound) exs) = (n mod 5)%nat
  /\ (forall (vectors' : list (list V)) (labels' : list L),
        length vectors' = n -> length labels' = n ->
        take (5 * partition_bound) (examples (vectors', labels'))
          = take (5 * partition_bound) exs ->
        uploads (upload_to_s3 partition_name (vectors', labels') w) = uploads w').
Proof.
  intros Hlen n pb exs chunk w'.
  assert (Hdiv : forall m : nat, Z.of_nat m / 5 = Z.of_nat (m / 5)).
  { intros m. rewrite (Nat2Z.inj_div m 5). reflexivity. }
  assert (Hup : forall vs ls, uploads (upload_to_s3 partition_name (vs, ls) w) =
    (uploads w ++ ((fun i => part_object partition_name i
        (take (length ls / 5) (drop (i * (length ls / 5)) (zip ls vs)))) <$> [0; 1; 2; 3; 4]%nat))%list).
  { intros vs ls. unfold upload_to_s3. simpl fst. simpl snd. cbv zeta.
    rewrite Hdiv.
    change (range 5) with [Z.of_nat 0; Z.of_nat 1; Z.of_nat 2; Z.of_nat 3; Z.of_nat 4].
    cbn [foldl]. rewrite !upload_part_uploads.
    rewrite <- !app_assoc. reflexivity. }
  assert (Hn : length exs = n).
  { unfold exs, examples. simpl. rewrite length_zip_with. lia. }
  assert (Hpb : (5 * pb <= n)%nat /\ (n - 5 * pb = n mod 5)%nat).
  { unfold pb. pose proof (Nat.div_mod_eq n 5). lia. }
  split; [apply Hup|].
  split.
  { intros i Hi. unfold chunk. rewrite length_take, length_drop, Hn. nia. }
  split.
  { unfold chunk.
    replace (0 * pb)%nat with 0%nat by lia.
    replace (1 * pb)%nat with pb by lia.
    replace (2 * pb)%nat with (pb + pb)%nat by lia.
    replace (3 * pb)%nat with (pb + pb + pb)%nat by lia.
    replace (4 * pb)%nat with (pb + pb + pb + pb)%nat by lia.
    rewrite drop_0, !app_assoc.
    rewrite (take_take_drop exs pb pb).
    rewrite (take_take_drop exs (pb + pb) pb).
    rewrite (take_take_drop exs (pb + pb + pb) pb).
    rewrite (take_take_drop exs (pb + pb + pb + pb) pb).
    f_equal. lia. }
  split.
  { rewrite length_drop, Hn. lia. }
  intros vectors' labels' Hv' Hl' Hsame.
  unfold w'. rewrite !Hup. f_equal. rewrite Hl'. fold n. fold pb.
  apply list_fmap_ext. intros k i Hi. f_equal.
  assert (i < 5)%nat as Hi5.
  { do 5 (destruct k as [|k]; [injection Hi as <-; lia|]). discriminate. }
  unfold examples in Hsame. cbn [fst snd] in Hsame.
  rewrite <- (chunk_of_prefix (zip labels' vectors') pb i (5 * pb)) by nia.
  rewrite <- (chunk_of_prefix (zip labels vectors) pb i (5 * pb)) by nia.
  rewrite Hsame. reflexivity.
Qed.

End Writer.

(** *** The writer on integer labels and integer features *)

Example to_libsvm_two_rows :
  to_libsvm str_int str_int BytesIO_new [5; 0] [[0; 7]; [3]]
  = mkBytesIO (bytes_utf8 ("5 1:0 2:7" ++ nl ++ "0 1:3")) 15.
Proof. vm_compute. reflexivity. Qed.

(** [zip] stops at the shorter sequence: a label without a row is dropped. *)
Example to_libsvm_unequal :
  buf (to_libsvm str_int str_int BytesIO_new [5; 0; 9] [[0; 7]; [3]])
  = bytes_utf8 ("5 1:0 2:7" ++ nl ++ "0 1:3").
Proof. vm_compute. reflexivity. Qed.

Lemma to_libsvm_lines_witness :
  length [5; 0] = length [[0; 7]; [3]]
  /\ exists lines : list string,
       to_libsvm str_int str_int BytesIO_new [5; 0] [[0; 7]; [3]]
         = write BytesIO_new (bytes_utf8 (join nl lines))
       /\ length lines = 2%nat.
Proof.
  split; [reflexivity|].
  destruct (to_libsvm_lines str_int str_int BytesIO_new [5; 0] [[0; 7]; [3]] eq_refl)
    as (lines & Hw & Hn & _).
  exists lines. split; [exact Hw | exact Hn].
Defined.

(** Seven examples: five parts of one example each, two examples left out. *)
Example upload_to_s3_seven :
  s3_body <$> uploads (upload_to_s3 str_int str_int "bkt" "pre" "train"
             ([[10]; [20]; [30]; [40]; [50]; [60]; [70]], [1; 2; 3; 4; 5; 6; 7])
             (mkWorld [] []))
  = bytes_utf8 <$> ["1 1:10"; "2 1:20"; "3 1:30"; "4 1:40"; "5 1:50"].
Proof. vm_compute. reflexivity. Qed.

Lemma upload_to_s3_chunks_witness :
  let vectors := [[10]; [20]; [30]; [40]; [50]; [60]; [70]] in
  let labels := [1; 2; 3; 4; 5; 6; 7] in
  length vectors = length labels
  /\ s3_key <$> uploads (upload_to_s3 str_int str_int "bkt" "pre" "train"
                  (vectors, labels) (mkWorld [] []))
     = ["pre/train/examples0"; "pre/train/examples1"; "pre/train/examples2";
        "pre/train/examples3"; "pre/train/examples4"].
Proof.
  intros vectors labels. split; [reflexivity|].
  destruct (upload_to_s3_chunks str_int str_int "bkt" "pre" "train"
              vectors labels (mkWorld [] []) eq_refl) as [Hup _].
  rewrite Hup. reflexivity.
Defined.

End Libsvm.

(** ** Batched endpoint invocation (the two [batch_predict] functions) *)

Module BatchPredict.
Import Py.

Section Endpoint.
(** Rows sent, predictions received, and the state of everything outside
    the function (the endpoint, standard output). *)
Context {A R W : Type}.
(** [do_predict(data, endpoint_name, content_type)]: it invokes the remote
    endpoint, so it reads and changes the outside, and it may raise. *)
Variable do_predict : list A -> string -> string -> W -> option (list R * W).
(** [sys.stdout.write(".")]. *)
Variable stdout_write : string -> W -> W.

(** The slice one turn of the loop of xgboost_mnist's [batch_predict] takes. *)
Definition chunk_min (data : list A) (batch_size offset : Z) : list A :=
  let items := Z.of_nat (length data) in
  slice data offset (Z.min (offset + batch_size) items).

(** The slice one turn of the loop of the image-classification notebook's
    [batch_predict] takes. *)
Definition chunk_branch (data : list A) (batch_size offset : Z) : list A :=
  let items := Z.of_nat (length data) in
  if offset + batch_size <? items
  then slice data offset (offset + batch_size)
  else slice data offset items.

(** [batch_predict] of xgboost_mnist. [None] is an exception: the
    [ValueError] of [range] for a zero [batch_size], or one of [do_predict]. *)
Definition batch_predict_min (data : list A) (batch_size : Z)
    (endpoint_name content_type : string) (w : W) : option (list R * W) :=
  let items := Z.of_nat (length data) in
  let arrs := [] in
  match range3 0 items batch_size with
  | None => None
  | Some offsets =>
      for_each
        (fun '(arrs, w) offset =>
           match do_predict (slice data offset (Z.min (offset + batch_size) items))
                            endpoint_name content_type w with
           | None => None
           | Some (preds, w) => Some ((arrs ++ preds)%list, stdout_write "." w)
           end)
        (arrs, w) offsets
  end.

(** [batch_predict] of the image-classification notebook. *)
Definition batch_predict_branch (data : list A) (batch_size : Z)
    (endpoint_name content_type : string) (w : W) : option (list R * W) :=
  let items := Z.of_nat (length data) in
  let arrs := [] in
  match range3 0 items batch_size with
  | None => None
  | Some offsets =>
      for_each
        (fun '(arrs, w) offset =>
           if offset + batch_size <? items then
             match do_predict (slice data offset (offset + batch_size))
                              endpoint_name content_type w with
             | None => None
             | Some (results, w) => Some ((arrs ++ results)%list, stdout_write "." w)
             end
           else
             match do_predict (slice data offset items) endpoint_name content_type w with
             | None => None
             | Some (results, w) => Some ((arrs ++ results)%list, stdout_write "." w)
             end)
        (arrs, w) offsets
  end.

Lemma for_each_ext {S X} (f g : S -> X -> option S) (s : S) (xs : list X) :
  (forall s x, f s x = g s x) -> for_each f s xs = for_each g s xs.
Proof.
  intros Hfg. revert s. induction xs as [|x xs IH]; intros s; simpl; [reflexivity|].
  rewrite Hfg. destruct (g s x); [apply IH | reflexivity].
Qed.

Lemma chunk_min_branch (data : list A) (batch_size offset : Z) :
  chunk_min data batch_size offset = chunk_branch data batch_size offset.
Proof.
  unfold chunk_min, chunk_branch. cbv zeta.
  destruct (Z.ltb_spec (offset + batch_size) (Z.of_nat (length data))) as [Hlt|Hge].
  - rewrite Z.min_l by lia. reflexivity.
  - rewrite Z.min_r by lia. reflexivity.
Qed.

(** C8. For a positive [batch_size] the offsets [range(0, items, batch_size)]
    exist, the two functions take the same slice of [data] at every offset,
    hence the same sequence of chunks, and with the same [do_predict] they
    give the same result (predictions, outside state, or exception). *)
Theorem batch_predict_variants_agree (data : list A) (batch_size : Z)
    (endpoint_name content_type : string) (w : W) :
  0 < batch_size ->
  exists offsets : list Z,
    range3 0 (Z.of_nat (length data)) batch_size = Some offsets
    /\ chunk_min data batch_size <$> offsets = chunk_branch data batch_size <$> offsets
    /\ batch_predict_min data batch_size endpoint_name content_type w
       = batch_predict_branch data batch_size endpoint_name content_type w.
Proof.
  intros Hpos. unfold batch_predict_min, batch_predict_branch, range3.
  destruct (Z.eqb_spec batch_size 0) as [->|_]; [lia|].
  eexists. split; [reflexivity|]. split.
  - apply list_fmap_ext. intros _ offset _. apply chunk_min_branch.
  - cbv zeta. apply for_each_ext. intros [arrs w'] offset.
    fold (chunk_min data batch_size offset).
    rewrite chunk_min_branch. unfold chunk_branch. cbv zeta.
    destruct (offset + batch_size <? Z.of_nat (length data)); reflexivity.
Qed.

(** *** The chunks cover the data *)

Lemma take_min_length (n : nat) (xs : list A) : take (Nat.min n (length xs)) xs = take n xs.
Proof.
  destruct (Nat.le_ge_cases n (length xs)) as [Hle|Hge].
  - rewrite Nat.min_l by exact Hle. reflexivity.
  - rewrite Nat.min_r by exact Hge. rewrite !take_ge by lia. reflexivity.
Qed.

Lemma chunks_take (data : list A) (bs n : nat) :
  concat ((fun k => take bs (drop (k * bs) data)) <$> seq 0 n) = take (n * bs) data.
Proof.
  induction n as [|n IH]; [reflexivity|].
  rewrite seq_S, fmap_app, concat_app, IH. simpl. rewrite app_nil_r.
  rewrite take_take_drop. f_equal. lia.
Qed.

Lemma chunk_min_take_drop (data : list A) (bs k : nat) :
  (k * bs < length data)%nat ->
  chunk_min data (Z.of_nat bs) (0 + Z.of_nat k * Z.of_nat bs) = take bs (drop (k * bs) data).
Proof.
  intros Hk. unfold chunk_min. cbv zeta.
  replace (0 + Z.of_nat k * Z.of_nat bs) with (Z.of_nat (k * bs)) by lia.
  replace (Z.min (Z.of_nat (k * bs) + Z.of_nat bs) (Z.of_nat (length data)))
    with (Z.of_nat (Nat.min (k * bs + bs) (length data))) by lia.
  rewrite slice_take_drop by lia.
  rewrite <- (take_min_length bs (drop (k * bs) data)), length_drop. f_equal. lia.
Qed.

(** For a positive [batch_size] the slices at the offsets of the loop are,
    put together in order, the whole of [data], and each holds between one
    and [batch_size] rows. *)
Lemma chunks_cover (data : list A) (batch_size : Z) :
  0 < batch_size ->
  exists offsets : list Z,
    range3 0 (Z.of_nat (length data)) batch_size = Some offsets
    /\ concat (chunk_min data batch_size <$> offsets) = data
    /\ Forall (fun chunk => (0 < length chunk <= Z.to_nat batch_size)%nat)
         (chunk_min data batch_size <$> offsets).
Proof.
  intros Hpos. unfold range3.
  destruct (Z.eqb_spec batch_size 0) as [->|_]; [lia|].
  destruct (Z.ltb_spec 0 batch_size) as [_|]; [|lia].
  eexists. split; [reflexivity|].
  set (items := Z.of_nat (length data)).
  set (q := (items - 0 + batch_size - 1) / batch_size).
  set (bs := Z.to_nat batch_size).
  assert (Hbs : batch_size = Z.of_nat bs) by (unfold bs; lia).
  pose proof (Z.div_mod (items - 0 + batch_size - 1) batch_size ltac:(lia)) as Hdm.
  pose proof (Z.mod_pos_bound (items - 0 + batch_size - 1) batch_size Hpos) as Hmod.
  fold q in Hdm.
  assert (Hq : 0 <= q) by (apply Z.div_pos; unfold items; lia).
  rewrite <- list_fmap_compose.
  rewrite (list_fmap_ext _ (fun k => take bs (drop (k * bs) data))).
  - split; [rewrite chunks_take; apply take_ge; nia|].
    apply Forall_fmap, Forall_forall. intros k Hk.
    apply elem_of_seq in Hk. simpl.
    rewrite length_take, length_drop. unfold bs. nia.
  - intros i k Hk. apply lookup_seq in Hk as [-> Hlt]. simpl.
    rewrite Hbs. apply chunk_min_take_drop. nia.
Qed.

End Endpoint.

(** *** The rows that are sent *)

Section Sent.
Context {A R W : Type}.
Variable do_predict : list A -> string -> string -> W -> option (list R * W).
Variable stdout_write : string -> W -> W.

(** [do_predict] and [sys.stdout.write] on an outside that also keeps, in
    order, the rows of every call of [do_predict] that returned. *)
Definition recording (data : list A) (endpoint_name content_type : string)
    (ws : W * list (list A)) : option (list R * (W * list (list A))) :=
  match do_predict data endpoint_name content_type (fst ws) with
  | None => None
  | Some (preds, w) => Some (preds, (w, (snd ws ++ [data])%list))
  end.

Definition recording_write (s : string) (ws : W * list (list A)) : W * list (list A) :=
  (stdout_write s (fst ws), snd ws).

Lemma recording_loop (data : list A) (batch_size : Z) (endpoint_name content_type : string)
    (offsets : list Z) :
  forall (arrs : list R) (w : W) (sent : list (list A)),
  for_each
    (fun '(arrs, ws) offset =>
       match recording (slice data offset (Z.min (offset + batch_size)
                                             (Z.of_nat (length data))))
                       endpoint_name content_type ws with
       | None => None
       | Some (preds, ws) => Some ((arrs ++ preds)%list, recording_write "." ws)
       end)
    (arrs, (w, sent)) offsets
  = match for_each
            (fun '(arrs, w) offset =>
               match do_predict (slice data offset (Z.min (offset + batch_size)
                                                      (Z.of_nat (length data))))
                                endpoint_name content_type w with
               | None => None
               | Some (preds, w) => Some ((arrs ++ preds)%list, stdout_write "." w)
               end)
            (arrs, w) offsets with
    | None => None
    | Some (arrs', w') =>
        Some (arrs', (w', (sent ++ (chunk_min data batch_size <$> offsets))%list))
    end.
Proof.
  induction offsets as [|offset offsets IH]; intros arrs w sent.
  - simpl. rewrite app_nil_r. reflexivity.
  - cbn [for_each]. unfold recording at 1. cbn [fst snd].
    destruct (do_predict _ endpoint_name content_type w) as [[preds w1]|]; [|reflexivity].
    match goal with |- context [recording_write "." (w1, ?sent1)] =>
      etransitivity; [exact (IH (arrs ++ preds)%list (stdout_write "." w1) sent1)|]
    end.
    destruct (for_each _ _ offsets) as [[arrs' w']|]; [|reflexivity].
    rewrite fmap_cons, <- app_assoc. reflexivity.
Qed.

(** For a positive [batch_size], [batch_predict] sends every row of [data]
    to [do_predict] exactly once, in input order: the rows of its calls,
    put together in the order of the calls, are [data], and every call gets
    between one and [batch_size] rows. The record changes nothing else:
    with it the function returns the same predictions and leaves the same
    outside, and it raises when the function raises. *)
Theorem batch_predict_sends_every_row (data : list A) (batch_size : Z)
    (endpoint_name content_type : string) (w : W) :
  0 < batch_size ->
  exists chunks : list (list A),
    concat chunks = data
    /\ Forall (fun chunk => (0 < length chunk <= Z.to_nat batch_size)%nat) chunks
    /\ batch_predict_min recording recording_write data batch_size
         endpoint_name content_type (w, [])
       = match batch_predict_min do_predict stdout_write data batch_size
                 endpoint_name content_type w with
         | None => None
         | Some (arrs, w') => Some (arrs, (w', chunks))
         end.
Proof.
  intros Hpos. destruct (chunks_cover data batch_size Hpos) as (offsets & Hrange & Hcat & Hlen).
  exists (chunk_min data batch_size <$> offsets).
  split; [exact Hcat|]. split; [exact Hlen|].
  unfold batch_predict_min. cbv zeta. rewrite Hrange.
  exact (recording_loop data batch_size endpoint_name content_type offsets [] w []).
Qed.

End Sent.

(** *** An endpoint that echoes its rows and counts its invocations *)

Definition echo_predict (data : list Z) (_ _ : string) (calls : nat) : option (list Z * nat) :=
  Some (data, S calls).

Example batch_predict_min_five :
  batch_predict_min echo_predict (fun _ w => w) [1; 2; 3; 4; 5] 2 "ep" "text/csv" 0%nat
  = Some ([1; 2; 3; 4; 5], 3%nat).
Proof. vm_compute. reflexivity. Qed.

Example batch_predict_zero_batch :
  batch_predict_min echo_predict (fun _ w => w) [1; 2; 3] 0 "ep" "text/csv" 0%nat = None.
Proof. vm_compute. reflexivity. Qed.

Lemma batch_predict_variants_agree_witness :
  0 < 2
  /\ batch_predict_min echo_predict (fun _ w => w) [1; 2; 3; 4; 5] 2 "ep" "text/csv" 0%nat
     = batch_predict_branch echo_predict (fun _ w => w) [1; 2; 3; 4; 5] 2 "ep" "text/csv" 0%nat.
Proof.
  split; [lia|].
  destruct (batch_predict_variants_agree echo_predict (fun _ w => w)
              [1; 2; 3; 4; 5] 2 "ep" "text/csv" 0%nat ltac:(lia)) as (offsets & _ & _ & Heq).
  exact Heq.
Defined.

Lemma batch_predict_sends_every_row_witness :
  0 < 2
  /\ exists chunks : list (list Z),
       concat chunks = [1; 2; 3; 4; 5]
       /\ batch_predict_min (recording echo_predict) (recording_write (fun _ w => w))
            [1; 2; 3; 4; 5] 2 "ep" "text/csv" (0%nat, [])
          = Some ([1; 2; 3; 4; 5], (3%nat, chunks)).
Proof.
  split; [lia|].
  destruct (batch_predict_sends_every_row echo_predict (fun _ w => w)
              [1; 2; 3; 4; 5] 2 "ep" "text/csv" 0%nat ltac:(lia))
    as (chunks & Hcat & _ & Hrun).
  exists chunks. split; [exact Hcat|]. rewrite Hrun. reflexivity.
Defined.

Example batch_predict_recorded :
  batch_predict_min (recording echo_predict) (recording_write (fun _ w => w))
    [1; 2; 3; 4; 5] 2 "ep" "text/csv" (0%nat, [])
  = Some ([1; 2; 3; 4; 5], (3%nat, [[1; 2]; [3; 4]; [5]])).
Proof. vm_compute. reflexivity. Qed.

End BatchPredict.

(** ** Error rate and confusion matrix (xgboost_mnist) *)

Module ErrorRate.
Import Py.

(** A numpy [int32] value after an arithmetic result [z]: two's-complement
    wrap-around. *)
Definition wrap32 (z : Z) : Z := (z + 2 ^ 31) mod 2 ^ 32 - 2 ^ 31.

(** An index into an axis of length [n]: a negative index counts from the
    end; [None] is the [IndexError]. *)
Definition axis_index (n : Z) (i : Z) : option nat :=
  if (0 <=? i) && (i <? n) then Some (Z.to_nat i)
  else if (- n <=? i) && (i <? 0) then Some (Z.to_nat (i + n))
  else None.

(** [numpy.zeros([10, 10], numpy.int32)]. *)
Definition zeros_10_10 : list (list Z) := replicate 10 (replicate 10 0).

(** [confusions[p, a] += 1]. *)
Definition bump (confusions : list (list Z)) (pa : Z * Z) : option (list (list Z)) :=
  match axis_index 10 (fst pa), axis_index 10 (snd pa) with
  | Some i, Some j =>
      match confusions !! i with
      | Some row =>
          match row !! j with
          | Some x => Some (<[i := <[j := wrap32 (x + 1)]> row]> confusions)
          | None => None
          end
      | None => None
      end
  | _, _ => None
  end.

(** The positions at which two arrays of the same shape hold equal
    entries. *)
Definition count_equal (predictions labels : list Z) : Z :=
  Z.of_nat (length (filter (fun pa => fst pa = snd pa) (zip predictions labels))).

(** Broadcasting a one-dimensional array against a shape of length [n]: an
    array of length 1 is repeated, any other array is left as it is. *)
Definition broadcast (xs : list Z) (n : nat) : list Z :=
  match xs with
  | [x] => replicate n x
  | _ => xs
  end.

(** What [predictions == labels] does for shapes that do not broadcast: up
    to numpy 1.24 the comparison gives the scalar [False] (with a warning),
    from numpy 1.25 on it raises [ValueError]. *)
Inductive Mismatch := ComparesFalse | RaisesValueError.

(** The float [100.0 - (100 * float(correct) / float(total))] for a
    [total] that is not zero: every operation is rounded to binary64. *)
Definition error_value (correct total : Z) : PrimFloat.float :=
  PrimFloat.sub (float_of_int 100)
    (PrimFloat.div (PrimFloat.mul (float_of_int 100) (float_of_int correct))
                   (float_of_int total)).

Section Numpy.
(** The numpy the notebook runs on. *)
Variable numpy_mismatch : Mismatch.

(** [numpy.sum(predictions == labels)] for one-dimensional arrays; [None] is
    the [ValueError] of shapes that do not broadcast. *)
Definition sum_equal (predictions labels : list Z) : option Z :=
  let ps := broadcast predictions (length labels) in
  let ls := broadcast labels (length predictions) in
  if (length ps =? length ls)%nat then Some (count_equal ps ls)
  else match numpy_mismatch with
       | ComparesFalse => Some 0
       | RaisesValueError => None
       end.

(** [error_rate(predictions, labels)] on one-dimensional arrays of whole
    numbers. [None] is an exception: the [ValueError] of the comparison,
    the [ZeroDivisionError] of [float(correct) / float(total)], or an
    [IndexError] of the tallying loop. [zip] stops at the end of the
    shorter array. *)
Definition error_rate (predictions labels : list Z)
    : option (PrimFloat.float * list (list Z)) :=
  match sum_equal predictions labels with
  | None => None
  | Some correct =>
      let total := Z.of_nat (length predictions) in
      if total =? 0 then None else
      let error := error_value correct total in
      let confusions := zeros_10_10 in
      let bundled := zip predictions labels in
      match for_each bump confusions bundled with
      | Some confusions => Some (error, confusions)
      | None => None
      end
  end.

End Numpy.

(** *** Views used to state the properties *)

(** The entry of a matrix at row [p] and column [a]. *)
Definition entry (m : list (list Z)) (p a : Z) : option Z :=
  match m !! Z.to_nat p with
  | Some row => row !! Z.to_nat a
  | None => None
  end.

(** The sum of [f] over a list. *)
Definition sumZ {X} (f : X -> Z) (xs : list X) : Z := foldr (fun x acc => f x + acc) 0 xs.

(** How many positions have predicted value [p] and actual value [a]. *)
Definition positions (predictions labels : list Z) (p a : Z) : Z :=
  sumZ (fun pa => if decide (pa = (p, a)) then 1 else 0) (zip predictions labels).

(** Labels and predictions are digits. *)
Definition digit (z : Z) : Prop := 0 <= z <= 9.

(** The matrix [m] is 10 by 10 and holds [f p a] at row [p], column [a]. *)
Definition represents (m : list (list Z)) (f : Z -> Z -> Z) : Prop :=
  length m = 10%nat
  /\ Forall (fun row => length row = 10%nat) m
  /\ forall p a, digit p -> digit a -> entry m p a = Some (f p a).

(** *** Arithmetic modulo 2^32 *)

Lemma wrap32_small (z : Z) : - 2 ^ 31 <= z < 2 ^ 31 -> wrap32 z = z.
Proof. intros Hz. unfold wrap32. rewrite Z.mod_small; lia. Qed.

Lemma wrap32_add_l (x y : Z) : wrap32 (wrap32 x + y) = wrap32 (x + y).
Proof.
  unfold wrap32.
  replace ((x + 2 ^ 31) mod 2 ^ 32 - 2 ^ 31 + y + 2 ^ 31)
    with ((x + 2 ^ 31) mod 2 ^ 32 + y) by lia.
  rewrite Zplus_mod_idemp_l. do 2 f_equal. lia.
Qed.

Lemma wrap32_idem (x : Z) : wrap32 (wrap32 x) = wrap32 x.
Proof.
  pose proof (wrap32_add_l x 0) as H. rewrite !Z.add_0_r in H. exact H.
Qed.

(** *** Sums *)

Lemma sumZ_cons {X} (f : X -> Z) x xs : sumZ f (x :: xs) = f x + sumZ f xs.
Proof. reflexivity. Qed.

Lemma sumZ_ext {X} (f g : X -> Z) xs :
  (forall x, x ∈ xs -> f x = g x) -> sumZ f xs = sumZ g xs.
Proof.
  induction xs as [|x xs IH]; intros H; [reflexivity|].
  rewrite !sumZ_cons, IH, (H x).
  - reflexivity.
  - apply list_elem_of_here.
  - intros y Hy. apply H. apply list_elem_of_further, Hy.
Qed.

Lemma sumZ_plus {X} (f g : X -> Z) xs :
  sumZ (fun x => f x + g x) xs = sumZ f xs + sumZ g xs.
Proof.
  induction xs as [|x xs IH]; [reflexivity|]. rewrite !sumZ_cons, IH. lia.
Qed.

Lemma sumZ_fmap {X Y} (g : X -> Y) (f : Y -> Z) xs :
  sumZ f (g <$> xs) = sumZ (fun x => f (g x)) xs.
Proof.
  induction xs as [|x xs IH]; [reflexivity|].
  rewrite fmap_cons, !sumZ_cons, IH. reflexivity.
Qed.

Lemma sumZ_replicate {X} (f : X -> Z) (n : nat) x :
  sumZ f (replicate n x) = Z.of_nat n * f x.
Proof.
  induction n as [|n IH]; [reflexivity|].
  change (replicate (S n) x) with (x :: replicate n x).
  rewrite sumZ_cons, IH. lia.
Qed.

Lemma sumZ_bounds {X} (f : X -> Z) xs :
  (forall x, 0 <= f x <= 1) -> 0 <= sumZ f xs <= Z.of_nat (length xs).
Proof.
  intros Hf. induction xs as [|x xs IH]; [simpl; lia|].
  rewrite sumZ_cons, length_cons. specialize (Hf x). lia.
Qed.

(** *** The tallying loop *)

Lemma axis_index_digit (i : Z) : digit i -> axis_index 10 i = Some (Z.to_nat i).
Proof.
  intros [H0 H9]. unfold axis_index.
  destruct (Z.leb_spec 0 i); [|lia]. destruct (Z.ltb_spec i 10); [|lia]. reflexivity.
Qed.

Lemma zeros_represents : represents zeros_10_10 (fun _ _ => 0).
Proof.
  split; [reflexivity|]. split.
  - unfold zeros_10_10. apply Forall_replicate. reflexivity.
  - intros p a [Hp0 Hp9] [Ha0 Ha9]. unfold entry, zeros_10_10.
    rewrite lookup_replicate_2 by lia. rewrite lookup_replicate_2 by lia. reflexivity.
Qed.

Lemma bump_represents (m : list (list Z)) (f : Z -> Z -> Z) (p a : Z) :
  represents m f -> digit p -> digit a ->
  exists m', bump m (p, a) = Some m'
    /\ represents m'
         (fun p' a' => if decide ((p', a') = (p, a)) then wrap32 (f p' a' + 1) else f p' a').
Proof.
  intros (Hlen & Hrows & Hent) Hp Ha.
  pose proof (Hent p a Hp Ha) as Hpa. unfold entry in Hpa.
  destruct (m !! Z.to_nat p) as [row|] eqn:Hrow; [|discriminate].
  unfold bump. simpl fst. simpl snd.
  rewrite !axis_index_digit by assumption. rewrite Hrow, Hpa.
  eexists. split; [reflexivity|].
  assert (Hrowlen : length row = 10%nat).
  { rewrite Forall_forall in Hrows. apply Hrows. eapply list_elem_of_lookup_2, Hrow. }
  split; [rewrite length_insert; exact Hlen|]. split.
  - apply Forall_insert; [exact Hrows|]. rewrite length_insert. exact Hrowlen.
  - intros p' a' Hp' Ha'. unfold entry.
    destruct (decide (p' = p)) as [->|Hne].
    + rewrite list_lookup_insert_eq by (apply lookup_lt_Some in Hrow; exact Hrow).
      destruct (decide (a' = a)) as [->|Hne'].
      * rewrite list_lookup_insert_eq by (apply lookup_lt_Some in Hpa; exact Hpa).
        rewrite decide_True by reflexivity. reflexivity.
      * rewrite list_lookup_insert_ne by (destruct Ha, Ha'; lia).
        rewrite decide_False by congruence.
        specialize (Hent p a' Hp Ha'). unfold entry in Hent. rewrite Hrow in Hent. exact Hent.
    + rewrite list_lookup_insert_ne by (destruct Hp, Hp'; lia).
      rewrite decide_False by congruence.
      apply (Hent p' a' Hp' Ha').
Qed.

Lemma represents_ext m f g :
  represents m f -> (forall p a, digit p -> digit a -> f p a = g p a) -> represents m g.
Proof.
  intros (Hlen & Hrows & Hent) Hfg. split; [exact Hlen|]. split; [exact Hrows|].
  intros p a Hp Ha. rewrite <- Hfg by assumption. apply Hent; assumption.
Qed.

(** From a matrix holding int32 values, the loop adds to every entry the
    number of pairs naming it, modulo 2^32. *)
Lemma tally_represents (pairs : list (Z * Z)) (m : list (list Z)) (f : Z -> Z -> Z) :
  represents m f ->
  (forall p a, wrap32 (f p a) = f p a) ->
  Forall (fun pa => digit (fst pa) /\ digit (snd pa)) pairs ->
  exists m', for_each bump m pairs = Some m'
    /\ represents m'
         (fun p a => wrap32 (f p a + sumZ (fun pa => if decide (pa = (p, a)) then 1 else 0) pairs)).
Proof.
  revert m f. induction pairs as [|[p0 a0] pairs IH]; intros m f Hm Hf Hall.
  - exists m. split; [reflexivity|].
    apply (represents_ext m f); [exact Hm|].
    intros p a _ _. simpl. rewrite Z.add_0_r, Hf. reflexivity.
  - apply Forall_cons in Hall as [[Hp0 Ha0] Hall]. simpl in Hp0, Ha0.
    destruct (bump_represents m f p0 a0 Hm Hp0 Ha0) as (m1 & Hb & Hm1).
    simpl for_each. rewrite Hb.
    destruct (IH m1 _ Hm1) as (m' & Hrun & Hm'); [|exact Hall|].
    { intros p a. case_decide; [apply wrap32_idem | apply Hf]. }
    exists m'. split; [exact Hrun|].
    apply (represents_ext _ _ _ Hm'). intros p a _ _.
    rewrite sumZ_cons.
    destruct (decide ((p, a) = (p0, a0))) as [Heq|Hne].
    + rewrite (decide_True (P := (p0, a0) = (p, a))) by congruence.
      rewrite wrap32_add_l. f_equal. lia.
    + rewrite (decide_False (P := (p0, a0) = (p, a))) by congruence.
      f_equal.
Qed.

(** *** The matrix as a table of counts *)

Lemma represents_matrix m f :
  represents m f -> m = (fun p => f p <$> seqZ 0 10) <$> seqZ 0 10.
Proof.
  intros (Hlen & Hrows & Hent). apply list_eq. intros i.
  rewrite list_lookup_fmap.
  destruct (decide (i < 10)%nat) as [Hi|Hi].
  - rewrite lookup_seqZ_lt by lia. rewrite Z.add_0_l.
    change (m !! i = Some (f (Z.of_nat i) <$> seqZ 0 10)).
    destruct (lookup_lt_is_Some_2 m i) as [row Hrow]; [lia|]. rewrite Hrow. f_equal.
    assert (Hrowlen : length row = 10%nat).
    { rewrite Forall_forall in Hrows. apply Hrows. eapply list_elem_of_lookup_2, Hrow. }
    apply list_eq. intros j. rewrite list_lookup_fmap.
    destruct (decide (j < 10)%nat) as [Hj|Hj].
    + rewrite lookup_seqZ_lt by lia. rewrite Z.add_0_l.
      specialize (Hent (Z.of_nat i) (Z.of_nat j)). unfold entry, digit in Hent.
      rewrite !Nat2Z.id, Hrow in Hent. apply Hent; lia.
    + rewrite lookup_seqZ_ge by lia. apply lookup_ge_None. lia.
  - rewrite lookup_seqZ_ge by lia. apply lookup_ge_None. lia.
Qed.

Lemma sum_indicator (p0 a0 : Z) :
  digit p0 -> digit a0 ->
  sumZ (fun p => sumZ (fun a => if decide ((p0, a0) = (p, a)) then 1 else 0) (seqZ 0 10))
       (seqZ 0 10) = 1.
Proof.
  intros Hp Ha.
  assert (Hp' : p0 = 0 \/ p0 = 1 \/ p0 = 2 \/ p0 = 3 \/ p0 = 4 \/ p0 = 5 \/ p0 = 6
                \/ p0 = 7 \/ p0 = 8 \/ p0 = 9) by (unfold digit in Hp; lia).
  assert (Ha' : a0 = 0 \/ a0 = 1 \/ a0 = 2 \/ a0 = 3 \/ a0 = 4 \/ a0 = 5 \/ a0 = 6
                \/ a0 = 7 \/ a0 = 8 \/ a0 = 9) by (unfold digit in Ha; lia).
  clear Hp Ha.
  repeat (destruct Hp' as [->|Hp']); try subst p0;
    repeat (destruct Ha' as [->|Ha']); try subst a0; vm_compute; reflexivity.
Qed.

Lemma sum_counts (pairs : list (Z * Z)) :
  Forall (fun pa => digit (fst pa) /\ digit (snd pa)) pairs ->
  sumZ (fun p => sumZ (fun a =>
          sumZ (fun pa => if decide (pa = (p, a)) then 1 else 0) pairs) (seqZ 0 10))
       (seqZ 0 10) = Z.of_nat (length pairs).
Proof.
  induction pairs as [|[p0 a0] pairs IH]; intros Hall.
  - vm_compute. reflexivity.
  - apply Forall_cons in Hall as [[Hp0 Ha0] Hall]. simpl in Hp0, Ha0.
    etransitivity.
    { etransitivity; [|apply (sumZ_plus
        (fun p => sumZ (fun a => if decide ((p0, a0) = (p, a)) then 1 else 0) (seqZ 0 10))
        (fun p => sumZ (fun a =>
           sumZ (fun pa => if decide (pa = (p, a)) then 1 else 0) pairs) (seqZ 0 10)))].
      apply sumZ_ext. intros p _.
      rewrite <- sumZ_plus. apply sumZ_ext. intros a _.
      apply sumZ_cons. }
    rewrite (sum_indicator p0 a0 Hp0 Ha0), (IH Hall), length_cons. lia.
Qed.

Lemma zip_digits (predictions labels : list Z) :
  Forall digit predictions -> Forall digit labels ->
  Forall (fun pa => digit (fst pa) /\ digit (snd pa)) (zip predictions labels).
Proof.
  rewrite !Forall_forall. intros Hp Hl [p a] Hin. simpl. split.
  - apply Hp. eapply elem_of_zip_l, Hin.
  - apply Hl. eapply elem_of_zip_r, Hin.
Qed.

Lemma broadcast_same (xs : list Z) : broadcast xs (length xs) = xs.
Proof. destruct xs as [|x [|y xs]]; reflexivity. Qed.

Section Returns.
Variable numpy_mismatch : Mismatch.

(** Arrays of the same length are compared position by position. *)
Lemma sum_equal_same_length (predictions labels : list Z) :
  length predictions = length labels ->
  sum_equal numpy_mismatch predictions labels = Some (count_equal predictions labels).
Proof.
  intros Hlen. unfold sum_equal. cbv zeta.
  rewrite <- Hlen, (broadcast_same predictions).
  rewrite Hlen, (broadcast_same labels), Nat.eqb_refl. reflexivity.
Qed.

(** What [error_rate] returns whatever the number of positions: the
    entries are the counts modulo 2^32. *)
Lemma error_rate_wrapped (predictions labels : list Z) :
  length predictions = length labels ->
  (0 < length predictions)%nat ->
  Forall digit predictions -> Forall digit labels ->
  exists confusions : list (list Z),
    error_rate numpy_mismatch predictions labels =
      Some (error_value (count_equal predictions labels) (Z.of_nat (length predictions)),
            confusions)
    /\ represents confusions (fun p a => wrap32 (positions predictions labels p a)).
Proof.
  intros Hlen Hpos Hp Hl.
  destruct (tally_represents (zip predictions labels) zeros_10_10 (fun _ _ => 0))
    as (m & Hrun & Hm).
  { apply zeros_represents. }
  { intros _ _. reflexivity. }
  { apply zip_digits; assumption. }
  exists m. split; [|exact Hm].
  unfold error_rate. rewrite (sum_equal_same_length _ _ Hlen).
  destruct (Z.eqb_spec (Z.of_nat (length predictions)) 0) as [H0|_]; [lia|].
  cbv zeta. rewrite Hrun. reflexivity.
Qed.

(** C5 (amended). For non-empty arrays [predictions] and [labels] of the same
    length below 2^31 whose entries are whole numbers from 0 to 9,
    [error_rate] returns [(error, confusions)]: [error] is the float
    [100.0 - (100 * float(c) / float(n))], every operation rounded to
    binary64, for the number [c] of positions where prediction and label
    are equal and the length [n]; [confusions] is a 10 by 10 matrix whose
    entry at [(p, a)] is the number of positions with predicted value [p]
    and actual value [a]; and its entries sum to the length of
    [predictions]. *)
Theorem error_rate_confusions (predictions labels : list Z) :
  length predictions = length labels ->
  predictions <> [] ->
  Z.of_nat (length predictions) < 2 ^ 31 ->
  Forall digit predictions -> Forall digit labels ->
  exists (error : PrimFloat.float) (confusions : list (list Z)),
    error_rate numpy_mismatch predictions labels = Some (error, confusions)
    /\ error = PrimFloat.sub (float_of_int 100)
                 (PrimFloat.div
                    (PrimFloat.mul (float_of_int 100)
                       (float_of_int (count_equal predictions labels)))
                    (float_of_int (Z.of_nat (length predictions))))
    /\ length confusions = 10%nat
    /\ Forall (fun row => length row = 10%nat) confusions
    /\ (forall p a, digit p -> digit a ->
          entry confusions p a = Some (positions predictions labels p a))
    /\ sumZ (sumZ (fun x => x)) confusions = Z.of_nat (length predictions).
Proof.
  intros Hlen Hne Hsmall Hp Hl.
  assert (Hpos : (0 < length predictions)%nat).
  { destruct predictions; [congruence | simpl; lia]. }
  destruct (error_rate_wrapped predictions labels Hlen Hpos Hp Hl) as (m & Hrun & Hm).
  assert (Hzip : length (zip predictions labels) = length predictions).
  { rewrite length_zip_with. lia. }
  assert (Hm' : represents m (positions predictions labels)).
  { apply (represents_ext _ _ _ Hm). intros p a _ _. apply wrap32_small.
    unfold positions.
    pose proof (sumZ_bounds (fun pa : Z * Z => if decide (pa = (p, a)) then 1 else 0)
                  (zip predictions labels)) as Hb.
    rewrite Hzip in Hb. enough (forall x : Z * Z,
      0 <= (if decide (x = (p, a)) then 1 else 0) <= 1) as Hx by (specialize (Hb Hx); lia).
    intros x. case_decide; lia. }
  eexists _, m. split; [exact Hrun|]. split; [reflexivity|].
  destruct Hm' as (Hdim & Hrows & Hent).
  split; [exact Hdim|]. split; [exact Hrows|]. split; [exact Hent|].
  rewrite (represents_matrix m (positions predictions labels)) by (repeat split; assumption).
  rewrite sumZ_fmap.
  erewrite sumZ_ext; [|intros p _; apply sumZ_fmap].
  unfold positions. rewrite sum_counts by (apply zip_digits; assumption).
  rewrite Hzip. reflexivity.
Qed.

End Returns.

(** The claim as stated fails. On empty arrays the call raises (division by
    zero). On 2^31 positions that all hold the pair (0, 0) the entry at
    (0, 0) is -2^31, not the number of positions. And the error is a
    rounded float: for one equal position in three it is below 200/3, and
    the next float above it is nearer to 200/3 than it is. *)
Lemma error_rate_counterexample :
  error_rate ComparesFalse [] [] = None
  /\ error_rate RaisesValueError [] [] = None
  /\ (exists (error : PrimFloat.float) (confusions : list (list Z)),
       error_rate ComparesFalse (replicate (Z.to_nat (2 ^ 31)) 0)
         (replicate (Z.to_nat (2 ^ 31)) 0) = Some (error, confusions)
       /\ entry confusions 0 0 = Some (- 2 ^ 31)
       /\ positions (replicate (Z.to_nat (2 ^ 31)) 0) (replicate (Z.to_nat (2 ^ 31)) 0) 0 0
          = 2 ^ 31)
  /\ exists (error : PrimFloat.float) (confusions : list (list Z)) (q q' : Q),
       error_rate ComparesFalse [1; 2; 3] [1; 0; 0] = Some (error, confusions)
       /\ count_equal [1; 2; 3] [1; 0; 0] = 1
       /\ Q_of_float error = Some q
       /\ Q_of_float (PrimFloat.next_up error) = Some q'
       /\ (q < 100 - 100 * (1 # 3))%Q
       /\ (q' - (100 - 100 * (1 # 3)) < (100 - 100 * (1 # 3)) - q)%Q.
Proof.
  split; [reflexivity|]. split; [reflexivity|]. split.
  - assert (Hn : exists n : nat, n = Z.to_nat (2 ^ 31) /\ Z.of_nat n = 2 ^ 31).
    { exists (Z.to_nat (2 ^ 31)). split; [reflexivity | lia]. }
    destruct Hn as (n & <- & Hn).
    assert (Hcount : positions (replicate n 0) (replicate n 0) 0 0 = 2 ^ 31).
    { unfold positions. rewrite zip_with_replicate, sumZ_replicate.
      rewrite decide_True by reflexivity. lia. }
    destruct (error_rate_wrapped ComparesFalse (replicate n 0) (replicate n 0))
      as (m & Hrun & Hm).
    + rewrite !length_replicate. reflexivity.
    + rewrite length_replicate. lia.
    + apply Forall_replicate. unfold digit. lia.
    + apply Forall_replicate. unfold digit. lia.
    + eexists _, m. split; [exact Hrun|]. split; [|exact Hcount].
      destruct Hm as (_ & _ & Hent).
      rewrite (Hent 0 0) by (unfold digit; lia). rewrite Hcount. reflexivity.
  - eexists _, _, _, _. split; [vm_compute; reflexivity|].
    split; [reflexivity|]. split; [vm_compute; reflexivity|].
    split; [vm_compute; reflexivity|]. split; vm_compute; reflexivity.
Qed.

Example error_rate_four :
  error_rate ComparesFalse [1; 2; 3; 3] [1; 2; 3; 4]
  = Some (float_of_int 25,
          [[0; 0; 0; 0; 0; 0; 0; 0; 0; 0]; [0; 1; 0; 0; 0; 0; 0; 0; 0; 0];
           [0; 0; 1; 0; 0; 0; 0; 0; 0; 0]; [0; 0; 0; 1; 1; 0; 0; 0; 0; 0];
           [0; 0; 0; 0; 0; 0; 0; 0; 0; 0]; [0; 0; 0; 0; 0; 0; 0; 0; 0; 0];
           [0; 0; 0; 0; 0; 0; 0; 0; 0; 0]; [0; 0; 0; 0; 0; 0; 0; 0; 0; 0];
           [0; 0; 0; 0; 0; 0; 0; 0; 0; 0]; [0; 0; 0; 0; 0; 0; 0; 0; 0; 0]]).
Proof. vm_compute. reflexivity. Qed.

(** Arrays whose shapes do not broadcast: the older numpy counts no equal
    position and the loop tallies the pairs [zip] gives; the newer one
    raises. *)
Example error_rate_two_three :
  (exists confusions, error_rate ComparesFalse [1; 2] [1; 2; 3]
                      = Some (float_of_int 100, confusions)
     /\ sumZ (sumZ (fun x => x)) confusions = 2)
  /\ error_rate RaisesValueError [1; 2] [1; 2; 3] = None.
Proof. split; [eexists; split; vm_compute; reflexivity | reflexivity]. Qed.

Lemma error_rate_confusions_witness :
  length [1; 2; 3; 3] = length [1; 2; 3; 4]
  /\ exists (error : PrimFloat.float) (confusions : list (list Z)),
       error_rate RaisesValueError [1; 2; 3; 3] [1; 2; 3; 4] = Some (error, confusions)
       /\ entry confusions 3 4 = Some (positions [1; 2; 3; 3] [1; 2; 3; 4] 3 4)
       /\ sumZ (sumZ (fun x => x)) confusions = 4.
Proof.
  split; [reflexivity|].
  destruct (error_rate_confusions RaisesValueError [1; 2; 3; 3] [1; 2; 3; 4]) as
    (error & confusions & Hrun & _ & _ & _ & Hent & Hsum).
  - reflexivity.
  - discriminate.
  - reflexivity.
  - repeat constructor; unfold digit; lia.
  - repeat constructor; unfold digit; lia.
  - exists error, confusions. split; [exact Hrun|]. split; [|exact Hsum].
    apply Hent; unfold digit; lia.
Defined.

End ErrorRate.

(** ** Drawing the detections ([visualize_detection]) *)

Module Detection.
Import Py.

(** One row of [dets]: [(klass, score, x0, y0, x1, y1)], six binary64
    numbers. *)
Record Det := mkDet
  { klass : PrimFloat.float; score : PrimFloat.float;
    x0 : PrimFloat.float; y0 : PrimFloat.float; x1 : PrimFloat.float; y1 : PrimFloat.float }.

Definition Color : Type := PrimFloat.float * PrimFloat.float * PrimFloat.float.

(** What a call puts on the current axes. *)
Inductive Artist :=
| AxesImage (height width : Z)
| Rectangle (xy : Z * Z) (width height : Z) (edgecolor : Color)
| Text (x y : Z) (s : string) (facecolor : Color).

(** The state outside the function: the artists of the current axes, how
    often [plt.show()] ran, and how many numbers the random generator has
    given out. *)
Record World := mkWorld { axes : list Artist; shows : nat; drawn_numbers : nat }.

(** The loop's state: the outside and the local dictionary [colors]. *)
Record Loop := mkLoop { world : World; colors : gmap Z Color }.

(** What the function raises. *)
Inductive Exn := ValueError | OverflowError | IndexError.

(** [int(x)] for a float, with its exception: [ValueError] for a NaN,
    [OverflowError] for an infinity. *)
Definition int_exn (x : PrimFloat.float) : Exn + Z :=
  match int_of_float x with
  | Some z => inr z
  | None => inl (if PrimFloat.is_nan x then ValueError else OverflowError)
  end.

(** A [for] loop whose body may raise: the state after the last turn, or
    what the turn that raises gives. *)
Fixpoint for_each {S X E} (body : S -> X -> E + S) (s : S) (xs : list X) : E + S :=
  match xs with
  | [] => inr s
  | x :: rest =>
      match body s x with
      | inr s' => for_each body s' rest
      | inl e => inl e
      end
  end.

Section Visualize.
(** [mpimg.imread(img_file).shape[0:2]]: the height and width of the image. *)
Variable imread_shape : string -> Z * Z.
(** The [k]-th number [random.random()] gives out. *)
Variable random : nat -> PrimFloat.float.
(** ['{:.3f}'.format(score)]. *)
Variable format_3f : PrimFloat.float -> string.

(** Three calls of [random.random()]. *)
Definition random_color (w : World) : Color * World :=
  let k := drawn_numbers w in
  ((random k, random (k + 1), random (k + 2)),
   mkWorld (axes w) (shows w) (k + 3)).

(** [plt.gca().add_patch(a)] and [plt.gca().text(...)]. *)
Definition add_artist (a : Artist) (w : World) : World :=
  mkWorld (axes w ++ [a])%list (shows w) (drawn_numbers w).

(** The body of the loop over [dets]. A turn that raises gives the
    exception and the outside state at that point. [color] is
    [colors[cls_id]] after the conditional assignment: the colour stored
    before, or the one just drawn at random. The products [x0 * width] are
    products of floats, [width] being converted first. *)
Definition draw_det (height width : Z) (classes : list string) (thresh : PrimFloat.float)
    (st : Loop) (det : Det) : Exn * World + Loop :=
  if PrimFloat.ltb (score det) thresh then inr st
  else
    match int_exn (klass det) with
    | inl e => inl (e, world st)
    | inr cls_id =>
        let '(color, w) :=
          match colors st !! cls_id with
          | Some c => (c, world st)
          | None => random_color (world st)
          end in
        let colors' := <[cls_id := color]> (colors st) in
        match int_exn (PrimFloat.mul (x0 det) (float_of_int width)),
              int_exn (PrimFloat.mul (y0 det) (float_of_int height)),
              int_exn (PrimFloat.mul (x1 det) (float_of_int width)),
              int_exn (PrimFloat.mul (y1 det) (float_of_int height)) with
        | inr xmin, inr ymin, inr xmax, inr ymax =>
            let rect := Rectangle (xmin, ymin) (xmax - xmin) (ymax - ymin) color in
            let w := add_artist rect w in
            let class_name :=
              if negb (bool_decide (classes = [])) && (cls_id <? Z.of_nat (length classes))
              then index classes cls_id
              else Some (str_int cls_id) in
            match class_name with
            | None => inl (IndexError, w)
            | Some class_name =>
                inr (mkLoop
                       (add_artist (Text xmin (ymin - 2)
                                      (class_name ++ " " ++ format_3f (score det)) color) w)
                       colors')
            end
        | inl e, _, _, _ => inl (e, w)
        | inr _, inl e, _, _ => inl (e, w)
        | inr _, inr _, inl e, _ => inl (e, w)
        | inr _, inr _, inr _, inl e => inl (e, w)
        end
    end.

(** [visualize_detection(img_file, dets, classes, thresh)] for an image
    file that can be read. *)
Definition visualize_detection (img_file : string) (dets : list Det)
    (classes : list string) (thresh : PrimFloat.float) (w : World) : Exn * World + World :=
  let '(height, width) := imread_shape img_file in
  let w := add_artist (AxesImage height width) w in
  let colors := ∅ in
  match for_each (draw_det height width classes thresh) (mkLoop w colors) dets with
  | inl raised => inl raised
  | inr st => inr (mkWorld (axes (world st)) (S (shows (world st))) (drawn_numbers (world st)))
  end.

(** *** Views used to state the properties *)

(** The corners of the rectangles among the artists: the anchor, and the
    anchor moved by the width and the height. *)
Definition corners (arts : list Artist) : list ((Z * Z) * (Z * Z)) :=
  omap (fun a => match a with
                 | Rectangle xy w h _ => Some (xy, (fst xy + w, snd xy + h))
                 | _ => None
                 end) arts.

(** The corners the specification gives for a detection:
    [(int(x0*width), int(y0*height))] and [(int(x1*width), int(y1*height))];
    [None] when one of the four products is not finite. *)
Definition box (height width : Z) (det : Det) : option ((Z * Z) * (Z * Z)) :=
  match int_of_float (PrimFloat.mul (x0 det) (float_of_int width)),
        int_of_float (PrimFloat.mul (y0 det) (float_of_int height)),
        int_of_float (PrimFloat.mul (x1 det) (float_of_int width)),
        int_of_float (PrimFloat.mul (y1 det) (float_of_int height)) with
  | Some xmin, Some ymin, Some xmax, Some ymax => Some ((xmin, ymin), (xmax, ymax))
  | _, _, _, _ => None
  end.

(** The detections the loop does not skip: those whose score is not below
    the threshold. *)
Definition not_below (thresh : PrimFloat.float) (det : Det) : Prop :=
  PrimFloat.ltb (score det) thresh = false.

#[export] Instance not_below_decision (thresh : PrimFloat.float) (det : Det) :
  Decision (not_below thresh det).
Proof. unfold not_below. apply _. Defined.

(** A detection the loop can draw without raising: its class id and its
    corners are whole numbers, and the lookup of its class name is in
    range. *)
Definition drawable (height width : Z) (classes : list string) (det : Det) : Prop :=
  is_Some (box height width det)
  /\ exists cls_id, int_of_float (klass det) = Some cls_id
       /\ (classes = [] \/ - Z.of_nat (length classes) <= cls_id).

Lemma corners_add_rectangle arts xy w h c :
  corners (arts ++ [Rectangle xy w h c]) = (corners arts ++ [(xy, (fst xy + w, snd xy + h))])%list.
Proof. unfold corners. rewrite omap_app. reflexivity. Qed.

Lemma corners_add_text arts x y s c : corners (arts ++ [Text x y s c]) = corners arts.
Proof. unfold corners. rewrite omap_app. simpl. apply app_nil_r. Qed.

Lemma corners_add_image arts h w : corners (arts ++ [AxesImage h w]) = corners arts.
Proof. unfold corners. rewrite omap_app. simpl. apply app_nil_r. Qed.

Lemma index_in_range {A} (xs : list A) (i : Z) :
  - Z.of_nat (length xs) <= i < Z.of_nat (length xs) -> is_Some (index xs i).
Proof.
  intros [Hlo Hhi]. unfold index.
  destruct (Z.leb_spec 0 i).
  - apply lookup_lt_is_Some_2. lia.
  - destruct (Z.leb_spec (- Z.of_nat (length xs)) i); [|lia].
    apply lookup_lt_is_Some_2. lia.
Qed.

Lemma int_exn_Some (x : PrimFloat.float) (z : Z) :
  int_of_float x = Some z -> int_exn x = inr z.
Proof. intros H. unfold int_exn. rewrite H. reflexivity. Qed.

(** A detection below the threshold leaves the loop state as it is. *)
Lemma draw_det_below height width classes thresh st det :
  PrimFloat.ltb (score det) thresh = true ->
  draw_det height width classes thresh st det = inr st.
Proof. intros Hlt. unfold draw_det. rewrite Hlt. reflexivity. Qed.

(** A detection that is not below the threshold adds its rectangle, when
    it is drawable. *)
Lemma draw_det_at_least height width classes thresh st det :
  not_below thresh det ->
  drawable height width classes det ->
  exists st' b, draw_det height width classes thresh st det = inr st'
    /\ box height width det = Some b
    /\ corners (axes (world st')) = (corners (axes (world st)) ++ [b])%list.
Proof.
  intros Hnot ([b Hbox] & cls_id & Hid & Hcls). unfold draw_det.
  unfold not_below in Hnot. rewrite Hnot, (int_exn_Some _ _ Hid).
  destruct (match colors st !! cls_id with
            | Some c => (c, world st)
            | None => random_color (world st)
            end) as [color w] eqn:Hcolor.
  assert (Haxes : axes w = axes (world st)).
  { destruct (colors st !! cls_id); injection Hcolor as _ <-; reflexivity. }
  rewrite Hbox. unfold box in Hbox.
  destruct (int_of_float (PrimFloat.mul (x0 det) (float_of_int width)))
    as [xmin|] eqn:Hxmin; [|discriminate].
  destruct (int_of_float (PrimFloat.mul (y0 det) (float_of_int height)))
    as [ymin|] eqn:Hymin; [|discriminate].
  destruct (int_of_float (PrimFloat.mul (x1 det) (float_of_int width)))
    as [xmax|] eqn:Hxmax; [|discriminate].
  destruct (int_of_float (PrimFloat.mul (y1 det) (float_of_int height)))
    as [ymax|] eqn:Hymax; [|discriminate].
  injection Hbox as <-.
  rewrite (int_exn_Some _ _ Hxmin), (int_exn_Some _ _ Hymin),
    (int_exn_Some _ _ Hxmax), (int_exn_Some _ _ Hymax).
  assert (Hname : is_Some
    (if negb (bool_decide (classes = [])) && (cls_id <? Z.of_nat (length classes))
     then index classes cls_id else Some (str_int cls_id))).
  { destruct (bool_decide (classes = [])) eqn:Hempty; simpl; [eexists; reflexivity|].
    destruct (Z.ltb_spec cls_id (Z.of_nat (length classes))) as [Hlt|_]; [|eexists; reflexivity].
    apply index_in_range. destruct Hcls as [->|Hlo]; [discriminate | lia]. }
  destruct Hname as [name ->].
  eexists _, _. split; [reflexivity|]. split; [reflexivity|]. simpl.
  rewrite corners_add_text, corners_add_rectangle, Haxes. simpl.
  do 4 f_equal; lia.
Qed.

(** When every detection that is not below the threshold is drawable,
    [visualize_detection] returns, and the rectangles it adds are, in
    order, those of the detections whose score is not below [thresh]: each
    has its first corner at [(int(x0*width), int(y0*height))] and the
    opposite corner at [(int(x1*width), int(y1*height))], the products being
    binary64 products and [height] and [width] the image dimensions. A
    detection below the threshold leaves the plot and the loop state
    unchanged. When neither the threshold nor a score is a NaN, the
    detections drawn are those with [thresh <= score]. *)
Theorem visualize_detection_boxes (img_file : string) (dets : list Det)
    (classes : list string) (thresh : PrimFloat.float) (w : World) (height width : Z) :
  imread_shape img_file = (height, width) ->
  Forall (fun det => not_below thresh det -> drawable height width classes det) dets ->
  exists w' boxes,
    visualize_detection img_file dets classes thresh w = inr w'
    /\ corners (axes w') = (corners (axes w) ++ boxes)%list
    /\ Some <$> boxes = box height width <$> filter (not_below thresh) dets
    /\ (forall st det, PrimFloat.ltb (score det) thresh = true ->
          draw_det height width classes thresh st det = inr st)
    /\ (PrimFloat.is_nan thresh = false ->
        Forall (fun det => PrimFloat.is_nan (score det) = false) dets ->
        filter (not_below thresh) dets
        = filter (fun det => PrimFloat.leb thresh (score det) = true) dets).
Proof.
  intros Hshape Hall. unfold visualize_detection. rewrite Hshape.
  assert (Hloop : forall st,
    exists st' boxes, for_each (draw_det height width classes thresh) st dets = inr st'
      /\ corners (axes (world st')) = (corners (axes (world st)) ++ boxes)%list
      /\ Some <$> boxes = box height width <$> filter (not_below thresh) dets).
  { induction dets as [|det dets IH]; intros st.
    - exists st, []. split; [reflexivity|]. simpl. rewrite app_nil_r. split; reflexivity.
    - apply Forall_cons in Hall as [Hdet Hall]. simpl for_each.
      rewrite filter_cons. destruct (decide (not_below thresh det)) as [Hnot|Hbelow].
      + destruct (draw_det_at_least height width classes thresh st det Hnot (Hdet Hnot))
          as (st1 & b & -> & Hb & Hc1).
        destruct (IH Hall st1) as (st' & boxes & Hrun & Hc & Hboxes).
        exists st', (b :: boxes). split; [exact Hrun|]. split.
        * rewrite Hc, Hc1, <- app_assoc. reflexivity.
        * rewrite !fmap_cons, Hb, Hboxes. reflexivity.
      + rewrite draw_det_below by (unfold not_below in Hbelow;
          destruct (PrimFloat.ltb (score det) thresh); congruence).
        apply (IH Hall st). }
  destruct (Hloop (mkLoop (add_artist (AxesImage height width) w) ∅))
    as (st' & boxes & -> & Hc & Hboxes).
  eexists _, boxes. split; [reflexivity|]. split.
  { simpl in *. rewrite Hc, corners_add_image. reflexivity. }
  split; [exact Hboxes|]. split.
  { intros st det. apply draw_det_below. }
  intros Hthresh Hscores. clear Hall Hloop Hboxes Hc.
  induction dets as [|det dets IH]; [reflexivity|].
  apply Forall_cons in Hscores as [Hscore Hscores].
  rewrite !filter_cons, (IH Hscores).
  pose proof (ltb_leb _ _ Hscore Hthresh) as Hcmp.
  destruct (decide (not_below thresh det)) as [Hnot|Hnot];
    destruct (decide (PrimFloat.leb thresh (score det) = true)) as [Hle|Hle];
    try reflexivity; exfalso; unfold not_below in Hnot; rewrite Hcmp in Hnot;
    destruct (PrimFloat.leb thresh (score det)); simpl in Hnot; congruence.
Qed.

End Visualize.

(** *** A 100 by 200 image *)

(** Stand-ins for the image reader, the random generator and the score
    format in the examples: every image is 100 high and 200 wide, the
    generator counts in tenths, and a score is printed in thousandths. *)
Definition shape_100_200 (_ : string) : Z * Z := (100, 200).

(** The float written [n/100] in decimal: [hundredths 29] is [0.29]. *)
Definition hundredths (n : Z) : PrimFloat.float :=
  PrimFloat.div (float_of_int n) (float_of_int 100).

Definition tenths (k : nat) : PrimFloat.float :=
  PrimFloat.div (float_of_int (Z.of_nat k)) (float_of_int 10).

Definition thousandths (x : PrimFloat.float) : string :=
  match int_of_float (PrimFloat.mul x (float_of_int 1000)) with
  | Some z => str_int z
  | None => "nan"
  end.

Example visualize_two_of_three :
  visualize_detection shape_100_200 tenths thousandths "img.jpg"
    [mkDet (float_of_int 1) (hundredths 90) (hundredths 10) (hundredths 25)
       (hundredths 50) (hundredths 75);
     mkDet (float_of_int 0) (hundredths 50) (float_of_int 0) (float_of_int 0)
       (float_of_int 1) (float_of_int 1);
     mkDet (float_of_int 1) (hundredths 60) (hundredths 33) (hundredths 33)
       (hundredths 67) (hundredths 67)]
    ["cat"; "dog"] (hundredths 60) (mkWorld [] 0 0)
  = inr (mkWorld
      [AxesImage 100 200;
       Rectangle (20, 25) 80 50 (tenths 0, tenths 1, tenths 2);
       Text 20 23 "dog 900" (tenths 0, tenths 1, tenths 2);
       Rectangle (66, 33) 68 34 (tenths 0, tenths 1, tenths 2);
       Text 66 31 "dog 600" (tenths 0, tenths 1, tenths 2)]
      1 3).
Proof. vm_compute. reflexivity. Qed.

(** The products are rounded: [0.29 * 100] is just below 29, so the corner
    is at 28, where the exact product gives 29. *)
Example box_rounds :
  box 100 200 (mkDet (float_of_int 0) (hundredths 90) (hundredths 10) (hundredths 29)
                 (hundredths 50) (hundredths 70))
  = Some ((20, 28), (100, 70)).
Proof. vm_compute. reflexivity. Qed.

(** A score that is a NaN is not below the threshold: the detection is
    drawn, though [score >= thresh] does not hold. *)
Example visualize_nan_score :
  let det := mkDet (float_of_int 0) PrimFloat.nan (hundredths 10) (hundredths 25)
               (hundredths 50) (hundredths 75) in
  PrimFloat.leb (hundredths 60) (score det) = false
  /\ exists w', visualize_detection shape_100_200 tenths thousandths "img.jpg"
                  [det] [] (hundredths 60) (mkWorld [] 0 0) = inr w'
       /\ corners (axes w') = [((20, 25), (100, 75))].
Proof. split; [reflexivity|]. eexists. split; vm_compute; reflexivity. Qed.

(** C6. With one class name, a detection of class -2 passes the guard
    [len(classes) > cls_id] and raises [IndexError] at the lookup of its
    name, after its rectangle has been added; the detection after it,
    whose score is above the threshold, gets no rectangle, and
    [plt.show()] does not run. *)
Lemma visualize_detection_negative_class :
  let dets := [mkDet (float_of_int (-2)) (hundredths 90) (float_of_int 0) (float_of_int 0)
                 (float_of_int 1) (float_of_int 1);
               mkDet (float_of_int 0) (hundredths 90) (hundredths 10) (hundredths 10)
                 (hundredths 50) (hundredths 50)] in
  Forall (fun det => PrimFloat.leb (hundredths 60) (score det) = true) dets
  /\ box 100 200 <$> dets = [Some ((0, 0), (200, 100)); Some ((20, 10), (100, 50))]
  /\ exists w', visualize_detection shape_100_200 tenths thousandths "img.jpg"
                  dets ["cat"] (hundredths 60) (mkWorld [] 0 0) = inl (IndexError, w')
       /\ corners (axes w') = [((0, 0), (200, 100))]
       /\ shows w' = 0%nat.
Proof.
  split; [repeat constructor|]. split; [vm_compute; reflexivity|].
  eexists. split; [vm_compute; reflexivity|]. split; reflexivity.
Qed.

Lemma visualize_detection_boxes_witness :
  let dets := [mkDet (float_of_int 1) (hundredths 90) (hundredths 10) (hundredths 25)
                 (hundredths 50) (hundredths 75);
               mkDet (float_of_int 0) (hundredths 50) (float_of_int 0) (float_of_int 0)
                 (float_of_int 1) (float_of_int 1)] in
  shape_100_200 "img.jpg" = (100, 200)
  /\ exists w', visualize_detection shape_100_200 tenths thousandths "img.jpg"
                  dets ["cat"; "dog"] (hundredths 60) (mkWorld [] 0 0) = inr w'
       /\ corners (axes w') = [((20, 25), (100, 75))].
Proof.
  intros dets. split; [reflexivity|].
  destruct (visualize_detection_boxes shape_100_200 tenths thousandths "img.jpg"
              dets ["cat"; "dog"] (hundredths 60) (mkWorld [] 0 0) 100 200 eq_refl)
    as (w' & boxes & Hrun & Hc & Hboxes & _).
  - repeat (apply Forall_cons; split;
      [intros _; split; [eexists; vm_compute; reflexivity|];
       eexists; split; [vm_compute; reflexivity | right; vm_compute; discriminate]|]).
    constructor.
  - exists w'. split; [exact Hrun|]. rewrite Hc.
    vm_compute in Hboxes. destruct boxes as [|b [|b' boxes]]; try discriminate Hboxes.
    injection Hboxes as <-. reflexivity.
Defined.

End Detection.

(** ** JSON lines for the forecasting job ([series_to_obj], [series_to_jsonline]) *)

Module Series.
Import Py.

Section Json.
(** The numbers of a series (Python floats), left abstract. *)
Context {Num : Type}.

(** The Python values that occur: what [json.dumps] accepts. A [dict] keeps
    its keys in insertion order. *)
#[warnings="-register-all"]
Inductive Value :=
| VNone
| VNum (x : Num)
| VInt (n : Z)
| VStr (s : string)
| VList (items : list Value)
| VDict (fields : list (string * Value)).

(** [d[key]] for reading: the value of the first field named [key]. *)
Fixpoint dict_get (key : string) (fields : list (string * Value)) : option Value :=
  match fields with
  | [] => None
  | (k, v) :: rest => if String.eqb k key then Some v else dict_get key rest
  end.

(** [d[key] = v]: the value is replaced in place when the key is there, and
    the field is added at the end otherwise. *)
Fixpoint dict_set (key : string) (v : Value) (fields : list (string * Value))
    : list (string * Value) :=
  match fields with
  | [] => [(key, v)]
  | (k, v0) :: rest =>
      if String.eqb k key then (k, v) :: rest else (k, v0) :: dict_set key v rest
  end.

(** A [pandas.Series]: its index and its values, position by position. *)
Context {Time : Type}.
Record TimeSeries := mkSeries { index : list Time; values : list Num }.

(** [str(t)] for an element of the index. *)
Variable str_time : Time -> string.
(** [json.dumps(v)]. *)
Variable json_dumps : Value -> string.

(** [series_to_obj(ts, cat)]; [cat = None] is Python's [None]. The result is
    [None] when [ts.index[0]] raises [IndexError]. *)
Definition series_to_obj (ts : TimeSeries) (cat : option Value)
    : option (list (string * Value)) :=
  match index ts with
  | [] => None
  | t0 :: _ =>
      let obj := [("start", VStr (str_time t0)); ("target", VList (VNum <$> values ts))] in
      let obj := match cat with
                 | Some c => dict_set "cat" c obj
                 | None => obj
                 end in
      Some obj
  end.

(** [series_to_jsonline(ts, cat)]. *)
Definition series_to_jsonline (ts : TimeSeries) (cat : option Value) : option string :=
  match series_to_obj ts cat with
  | Some obj => Some (json_dumps (VDict obj))
  | None => None
  end.

(** The loop that writes one of the two files: for each series the encoded
    JSON line, then an encoded newline. *)
Definition write_series (f : BytesIO) (ts : TimeSeries) : option BytesIO :=
  match series_to_jsonline ts None with
  | Some line =>
      let f := write f (bytes_utf8 line) in
      Some (write f (bytes_utf8 nl))
  | None => None
  end.

(** [with open(name, "wb") as f: for ts in series: ...]: the file written. *)
Definition write_jsonlines (series : list TimeSeries) : option BytesIO :=
  for_each write_series BytesIO_new series.

(** *** Views used to state the properties *)

(** A file of lines: every line is followed by a newline. *)
Definition lines_text (lines : list string) : string :=
  foldr (fun line rest => line ++ nl ++ rest) "" lines.

Lemma write_series_appends (f : BytesIO) (ts : TimeSeries) obj :
  pos f = length (buf f) ->
  series_to_obj ts None = Some obj ->
  exists f', write_series f ts = Some f'
    /\ buf f' = (buf f ++ bytes_utf8 (json_dumps (VDict obj) ++ nl))%list
    /\ pos f' = length (buf f').
Proof.
  intros Hpos Hobj. unfold write_series, series_to_jsonline. rewrite Hobj.
  eexists. split; [reflexivity|].
  rewrite (write_at_end f) by exact Hpos.
  rewrite write_at_end by reflexivity. simpl.
  rewrite bytes_utf8_app, app_assoc. split; reflexivity.
Qed.

Lemma series_to_obj_nonempty (ts : TimeSeries) (cat : option Value) :
  index ts <> [] -> is_Some (series_to_obj ts cat).
Proof.
  intros Hne. unfold series_to_obj. destruct (index ts); [congruence|].
  eexists. reflexivity.
Qed.

Lemma write_loop_appends (series : list TimeSeries) (f : BytesIO) :
  pos f = length (buf f) ->
  Forall (fun ts => index ts <> []) series ->
  exists objs f',
    Forall2 (fun ts obj => series_to_obj ts None = Some obj) series objs
    /\ for_each write_series f series = Some f'
    /\ buf f' = (buf f ++ bytes_utf8
                   (lines_text ((fun obj => json_dumps (VDict obj)) <$> objs)))%list
    /\ pos f' = length (buf f').
Proof.
  revert f. induction series as [|ts series IH]; intros f Hpos Hall.
  - exists [], f. split; [constructor|]. split; [reflexivity|].
    simpl. rewrite app_nil_r. split; [reflexivity | exact Hpos].
  - apply Forall_cons in Hall as [Hts Hall].
    destruct (series_to_obj_nonempty ts None Hts) as [obj Hobj].
    destruct (write_series_appends f ts obj Hpos Hobj) as (f1 & Hw & Hbuf1 & Hpos1).
    destruct (IH f1 Hpos1 Hall) as (objs & f' & Hobjs & Hrun & Hbuf & Hpos').
    exists (obj :: objs), f'. split; [constructor; assumption|].
    split; [simpl; rewrite Hw; exact Hrun|]. split; [|exact Hpos'].
    rewrite Hbuf, Hbuf1, fmap_cons. simpl lines_text.
    rewrite <- app_assoc, <- bytes_utf8_app, append_assoc. reflexivity.
Qed.

(** C4 (amended). For every non-empty time series [ts], [series_to_obj]
    returns an object whose ["start"] field is the string form of the first
    index of [ts], whose ["target"] field is the list of the values of
    [ts], and which has a ["cat"] field exactly when [cat] is not [None]
    (its value is then [cat]); [series_to_jsonline] is the JSON
    serialization of that object; and the file written for a list of
    non-empty series holds, for each series in order, the serialization of
    its object (without ["cat"]) followed by a newline. *)
Theorem series_jsonlines (ts : TimeSeries) (cat : option Value)
    (series : list TimeSeries) :
  index ts <> [] ->
  Forall (fun s => index s <> []) series ->
  (exists t0 obj,
     head (index ts) = Some t0
     /\ series_to_obj ts cat = Some obj
     /\ dict_get "start" obj = Some (VStr (str_time t0))
     /\ dict_get "target" obj = Some (VList (VNum <$> values ts))
     /\ (is_Some (dict_get "cat" obj) <-> cat <> None)
     /\ dict_get "cat" obj = cat
     /\ series_to_jsonline ts cat = Some (json_dumps (VDict obj)))
  /\ (exists objs f,
        Forall2 (fun s obj => series_to_obj s None = Some obj) series objs
        /\ write_jsonlines series = Some f
        /\ buf f = bytes_utf8 (lines_text ((fun obj => json_dumps (VDict obj)) <$> objs))).
Proof.
  intros Hne Hall. split.
  - unfold series_to_jsonline, series_to_obj.
    destruct (index ts) as [|t0 rest]; [congruence|].
    exists t0. eexists. split; [reflexivity|]. split; [reflexivity|].
    destruct cat as [c|]; simpl.
    + repeat split; try reflexivity; [discriminate | eexists; reflexivity].
    + repeat split; try reflexivity; [intros [? ?]; discriminate | congruence].
  - destruct (write_loop_appends series BytesIO_new eq_refl Hall)
      as (objs & f & Hobjs & Hrun & Hbuf & _).
    exists objs, f. split; [exact Hobjs|]. split; [exact Hrun|]. exact Hbuf.
Qed.

End Json.

(** *** Series of whole numbers indexed by day numbers *)

Definition dquote : string := String (ascii_of_nat 34) "".

(** A serializer for the examples, with [json.dumps]'s separators; it is
    meant for strings that need no escaping. *)
Fixpoint dumps (v : @Value Z) : string :=
  match v with
  | VNone => "null"
  | VNum x => str_int x
  | VInt n => str_int n
  | VStr s => dquote ++ s ++ dquote
  | VList items => "[" ++ join ", " (List.map dumps items) ++ "]"
  | VDict fields =>
      "{" ++ join ", " (List.map (fun kv => match kv with
                                           | (k, v) => dquote ++ k ++ dquote ++ ": " ++ dumps v
                                           end) fields) ++ "}"
  end.

Example series_to_jsonline_with_cat :
  series_to_jsonline str_int dumps (mkSeries [17; 18; 19] [5; 0; 7]) (Some (VInt 3))
  = Some ("{" ++ dquote ++ "start" ++ dquote ++ ": " ++ dquote ++ "17" ++ dquote ++ ", "
          ++ dquote ++ "target" ++ dquote ++ ": [5, 0, 7], "
          ++ dquote ++ "cat" ++ dquote ++ ": 3}").
Proof. vm_compute. reflexivity. Qed.

Example write_jsonlines_two :
  buf <$> write_jsonlines str_int dumps [mkSeries [17; 18] [5; 0]; mkSeries [20] [9]]
  = Some (bytes_utf8
      ("{" ++ dquote ++ "start" ++ dquote ++ ": " ++ dquote ++ "17" ++ dquote ++ ", "
       ++ dquote ++ "target" ++ dquote ++ ": [5, 0]}" ++ nl
       ++ "{" ++ dquote ++ "start" ++ dquote ++ ": " ++ dquote ++ "20" ++ dquote ++ ", "
       ++ dquote ++ "target" ++ dquote ++ ": [9]}" ++ nl)).
Proof. vm_compute. reflexivity. Qed.

(** The claim for every series fails on the empty one: [ts.index[0]] raises
    [IndexError], so neither function returns, and the loop that writes the
    file stops at such a series. *)
Lemma series_to_obj_counterexample :
  series_to_obj str_int (mkSeries [] []) (@None (@Value Z)) = None
  /\ series_to_jsonline str_int dumps (mkSeries [] []) None = None
  /\ write_jsonlines str_int dumps [mkSeries [17] [5]; mkSeries [] []] = None.
Proof. repeat split; reflexivity. Qed.

Lemma series_jsonlines_witness :
  index (mkSeries [17; 18; 19] [5; 0; 7]) <> []
  /\ exists obj : list (string * @Value Z),
       series_to_obj str_int (mkSeries [17; 18; 19] [5; 0; 7]) (Some (VInt 3)) = Some obj
       /\ dict_get "start" obj = Some (VStr "17")
       /\ dict_get "cat" obj = Some (VInt 3).
Proof.
  split; [discriminate|].
  destruct (series_jsonlines str_int dumps (mkSeries [17; 18; 19] [5; 0; 7])
              (Some (VInt 3)) [mkSeries [17; 18] [5; 0]])
    as [(t0 & obj & Ht0 & Hobj & Hstart & _ & _ & Hcat & _) _].
  - discriminate.
  - repeat constructor; discriminate.
  - exists obj. split; [exact Hobj|]. split; [|exact Hcat].
    injection Ht0 as <-. exact Hstart.
Defined.

End Series.

(** ** Waiting for training jobs and endpoints *)

Module Jobs.

(** The values held by the notebook variables these cells touch: a string,
    or a response of the service (a dictionary of strings). *)
Inductive Val :=
| VStr (s : string)
| VDict (d : gmap string string).

(** What a cell does that can be seen from outside. *)
Inductive Event :=
| Describe (k : nat)          (* the [k]-th describe call to the service *)
| Sleep (seconds : Z)         (* [time.sleep(seconds)] *)
| Wait (waiter : string)      (* [get_waiter(waiter).wait(...)] *)
| Create (call : string)      (* [create_training_job(...)], [create_endpoint(...)] *)
| Print (line : string).      (* [print(line)] *)

(** The notebook while a cell runs: its variables, the events so far, and
    the number of describe calls made so far. *)
Record World := mkWorld
  { env : gmap string Val; trace : list Event; queries : nat }.

(** How a computation ends: with a value, with an exception (its class and
    its message), or not within the steps allowed to it. *)
Inductive Outcome (A : Type) :=
| Ok (a : A) (w : World)
| Raised (class message : string) (w : World)
| Running.
Arguments Ok {A} a w.
Arguments Raised {A} class message w.
Arguments Running {A}.

Definition M (A : Type) : Type := World -> Outcome A.

Definition ret {A} (a : A) : M A := fun w => Ok a w.

Definition bind {A B} (c : M A) (k : A -> M B) : M B :=
  fun w =>
    match c w with
    | Ok a w' => k a w'
    | Raised class message w' => Raised class message w'
    | Running => Running
    end.

Notation "'let*' x ':=' c 'in' k" := (bind c (fun x => k))
  (at level 10, x name, c at level 100, k at level 200).
Notation "c ;; k" := (bind c (fun _ => k))
  (at level 100, k at level 200, right associativity).

(** [raise class(message)]. *)
Definition raise {A} (class message : string) : M A :=
  fun w => Raised class message w.

Definition emit (e : Event) : M unit :=
  fun w => Ok tt (mkWorld (env w) (trace w ++ [e]) (queries w)).

Definition print (line : string) : M unit := emit (Print line).
Definition sleep (seconds : Z) : M unit := emit (Sleep seconds).
Definition create (call : string) : M unit := emit (Create call).

(** Reading the variable [x] as a string; a variable that was never
    assigned is a [NameError]. A response read where these cells use a
    string does not occur in them and is made a [TypeError]. *)
Definition get_str (x : string) : M string :=
  fun w =>
    match env w !! x with
    | Some (VStr s) => Ok s w
    | Some (VDict _) => Raised "TypeError" x w
    | None => Raised "NameError" x w
    end.

(** Reading the variable [x] as a response. *)
Definition get_dict (x : string) : M (gmap string string) :=
  fun w =>
    match env w !! x with
    | Some (VDict d) => Ok d w
    | Some (VStr _) => Raised "TypeError" x w
    | None => Raised "NameError" x w
    end.

(** [x = v]. *)
Definition assign (x : string) (v : Val) : M unit :=
  fun w => Ok tt (mkWorld (<[x := v]> (env w)) (trace w) (queries w)).

(** [d[key]]. *)
Definition subscript (d : gmap string string) (key : string) : M string :=
  match d !! key with
  | Some s => ret s
  | None => raise "KeyError" key
  end.

(** The three states an acceptor of a waiter can put the wait in. *)
Inductive Acceptor := Success | Failure | Retry.

(** A [while] loop given [fuel] turns. *)
Fixpoint while (fuel : nat) (cond : M bool) (body : M unit) : M unit :=
  match fuel with
  | O => fun _ => Running
  | S fuel' =>
      let* c := cond in
      if c then body ;; while fuel' cond body else ret tt
  end.

Section Service.
(** The response of the service to the [k]-th describe call
    ([describe_training_job] or [describe_endpoint]); errors of the
    service client itself are not modelled. *)
Variable service : nat -> gmap string string.
Definition describe : M (gmap string string) :=
  fun w => Ok (service (queries w))
              (mkWorld (env w) (trace w ++ [Describe (queries w)]) (S (queries w))).

(** *** The polling loops *)

(** The training-job loop of the image-classification notebook: its
    condition, its body, the loop, and the lines of the cell from the first
    status query on. *)
Definition training_cond : M bool :=
  let* status := get_str "status" in
  ret (negb (String.eqb status "Completed") && negb (String.eqb status "Failed")).

Definition training_body : M unit :=
  sleep 60 ;;
  let* r := describe in
  let* status := subscript r "TrainingJobStatus" in
  assign "status" (VStr status) ;;
  print status.

Definition training_loop (fuel : nat) : M unit := while fuel training_cond training_body.

Definition poll_training_job (fuel : nat) : M unit :=
  create "create_training_job" ;;
  let* r := describe in
  let* status := subscript r "TrainingJobStatus" in
  assign "status" (VStr status) ;;
  print status ;;
  training_loop fuel.

(** The condition of both endpoint loops. *)
Definition endpoint_cond : M bool :=
  let* status := get_str "status" in ret (String.eqb status "Creating").

(** The endpoint loop of xgboost_mnist. *)
Definition endpoint_body_mnist : M unit :=
  sleep 60 ;;
  let* resp := describe in
  assign "resp" (VDict resp) ;;
  let* status := subscript resp "EndpointStatus" in
  assign "status" (VStr status) ;;
  print ("Status: " ++ status).

Definition endpoint_loop_mnist (fuel : nat) : M unit :=
  while fuel endpoint_cond endpoint_body_mnist.

(** The lines after either endpoint loop. *)
Definition print_endpoint : M unit :=
  let* resp := get_dict "resp" in
  let* arn := subscript resp "EndpointArn" in
  print ("Arn: " ++ arn) ;;
  let* status := get_str "status" in
  print ("Status: " ++ status).

Definition poll_endpoint_mnist (fuel : nat) : M unit :=
  create "create_endpoint" ;;
  let* resp := describe in
  assign "resp" (VDict resp) ;;
  let* status := subscript resp "EndpointStatus" in
  assign "status" (VStr status) ;;
  print ("Status: " ++ status) ;;
  endpoint_loop_mnist fuel ;;
  print_endpoint.

(** The endpoint loop of the image-classification notebook. *)
Definition endpoint_body_multilabel : M unit :=
  let* status := get_str "status" in
  print ("Status: " ++ status) ;;
  sleep 60 ;;
  let* resp := describe in
  assign "resp" (VDict resp) ;;
  let* status := subscript resp "EndpointStatus" in
  assign "status" (VStr status).

Definition endpoint_loop_multilabel (fuel : nat) : M unit :=
  while fuel endpoint_cond endpoint_body_multilabel.

Definition poll_endpoint_multilabel (fuel : nat) : M unit :=
  create "create_endpoint" ;;
  let* resp := describe in
  assign "resp" (VDict resp) ;;
  let* status := subscript resp "EndpointStatus" in
  assign "status" (VStr status) ;;
  endpoint_loop_multilabel fuel ;;
  print_endpoint.

(** *** The cells that check the status *)

(** The sequence-to-sequence job: the cell that checks the status. *)
Definition check_training_seq2seq : M unit :=
  let* r := describe in
  let* status := subscript r "TrainingJobStatus" in
  assign "status" (VStr status) ;;
  print status ;;
  if String.eqb status "Failed" then
    let* r := describe in
    let* message := subscript r "FailureReason" in
    assign "message" (VStr message) ;;
    print ("Training failed with the following error: " ++ message) ;;
    raise "Exception" "Training job failed"
  else ret tt.

(** *** Views used to state the properties *)

(** The three polling loops. *)
Inductive Loop := TrainingJobLoop | EndpointLoopMnist | EndpointLoopMultilabel.

Definition loop_cond (l : Loop) : M bool :=
  match l with
  | TrainingJobLoop => training_cond
  | EndpointLoopMnist | EndpointLoopMultilabel => endpoint_cond
  end.

Definition loop_body (l : Loop) : M unit :=
  match l with
  | TrainingJobLoop => training_body
  | EndpointLoopMnist => endpoint_body_mnist
  | EndpointLoopMultilabel => endpoint_body_multilabel
  end.

Definition run_loop (l : Loop) (fuel : nat) : M unit :=
  match l with
  | TrainingJobLoop => training_loop fuel
  | EndpointLoopMnist => endpoint_loop_mnist fuel
  | EndpointLoopMultilabel => endpoint_loop_multilabel fuel
  end.


(** The terminal statuses of the specification. *)
Definition terminal (l : Loop) (status : string) : bool :=
  match l with
  | TrainingJobLoop => String.eqb status "Completed" || String.eqb status "Failed"
  | EndpointLoopMnist | EndpointLoopMultilabel => negb (String.eqb status "Creating")
  end.




(** *** Loops that leave at the first state where the condition fails *)




Lemma loop_cond_terminal (l : Loop) (w : World) (status : string) :
  env w !! "status" = Some (VStr status) ->
  loop_cond l w = Ok (negb (terminal l status)) w.
Proof.
  intros Hs. destruct l; simpl; unfold training_cond, endpoint_cond, bind, get_str, ret;
    rewrite Hs; try reflexivity.
  - rewrite negb_orb. reflexivity.
  - rewrite negb_involutive. reflexivity.
  - rewrite negb_involutive. reflexivity.
Qed.


Lemma run_loop_while (l : Loop) (fuel : nat) :
  run_loop l fuel = while fuel (loop_cond l) (loop_body l).
Proof. destruct l; reflexivity. Qed.


(** *** The status checks *)



Lemma while_never_raises (cond : M bool) (body : M unit) (P : World -> Prop) :
  (forall w, P w -> exists b, cond w = Ok b w) ->
  (forall w, P w -> exists w', body w = Ok tt w' /\ P w') ->
  forall fuel w, P w ->
    (exists w', while fuel cond body w = Ok tt w' /\ P w')
    \/ while fuel cond body w = Running.
Proof.
  intros Hcond Hbody. induction fuel as [|fuel IH]; intros w HP; [right; reflexivity|].
  simpl. unfold bind. destruct (Hcond w HP) as [[|] ->].
  - destruct (Hbody w HP) as (w1 & -> & HP1). apply IH, HP1.
  - left. exists w. split; [reflexivity | exact HP].
Qed.

(** The variables the endpoint cells read after their loop hold a status and
    a response of the service. *)
Definition endpoint_vars (w : World) : Prop :=
  (exists status, env w !! "status" = Some (VStr status))
  /\ (exists k, env w !! "resp" = Some (VDict (service k))).

Lemma training_loop_never_raises (fuel : nat) (w : World) :
  (forall k, is_Some (service k !! "TrainingJobStatus")) ->
  (exists status, env w !! "status" = Some (VStr status)) ->
  (exists w', training_loop fuel w = Ok tt w') \/ training_loop fuel w = Running.
Proof.
  intros Hkeys Hs.
  destruct (while_never_raises training_cond training_body
              (fun w => exists status, env w !! "status" = Some (VStr status)))
    with (fuel := fuel) (w := w) as [(w' & Hw & _)|Hw].
  - intros w1 [s1 H1]. unfold training_cond, bind, get_str, ret. rewrite H1.
    eexists. reflexivity.
  - intros w1 _. destruct (Hkeys (queries w1)) as [s2 H2].
    unfold training_body, bind, sleep, print, emit, describe, subscript, assign, ret. simpl.
    rewrite H2. simpl. eexists. split; [reflexivity|]. simpl.
    exists s2. apply lookup_insert_eq.
  - exact Hs.
  - left. exists w'. exact Hw.
  - right. exact Hw.
Qed.

Lemma endpoint_loop_never_raises (l : Loop) (fuel : nat) (w : World) :
  l <> TrainingJobLoop ->
  (forall k, is_Some (service k !! "EndpointStatus")) ->
  endpoint_vars w ->
  (exists w', run_loop l fuel w = Ok tt w' /\ endpoint_vars w')
  \/ run_loop l fuel w = Running.
Proof.
  intros Hl Hkeys Hvars. rewrite run_loop_while.
  apply (while_never_raises (loop_cond l) (loop_body l) endpoint_vars); [| |exact Hvars].
  - intros w1 [[s1 H1] _]. rewrite (loop_cond_terminal l w1 s1 H1). eexists. reflexivity.
  - intros w1 [[s1 H1] _]. destruct (Hkeys (queries w1)) as [s2 H2].
    destruct l; [congruence| |]; simpl;
      unfold endpoint_body_mnist, endpoint_body_multilabel,
        bind, sleep, print, emit, describe, subscript, assign, get_str, ret; simpl;
      rewrite ?H1; simpl; rewrite H2; simpl;
      (eexists; split; [reflexivity|]); split; simpl.
    + exists s2. apply lookup_insert_eq.
    + exists (queries w1). rewrite lookup_insert_ne by discriminate. apply lookup_insert_eq.
    + exists s2. apply lookup_insert_eq.
    + exists (queries w1). rewrite lookup_insert_ne by discriminate. apply lookup_insert_eq.
Qed.

Lemma print_endpoint_returns (w : World) :
  (forall k, is_Some (service k !! "EndpointArn")) ->
  endpoint_vars w -> exists w', print_endpoint w = Ok tt w'.
Proof.
  intros Hkeys [[s Hs] [k Hr]]. destruct (Hkeys k) as [arn Harn].
  unfold print_endpoint, bind, get_dict, get_str, subscript, print, emit, ret.
  rewrite Hr, Harn. simpl. rewrite Hs. eexists. reflexivity.
Qed.

Ltac run_cell :=
  unfold check_training_seq2seq,
    poll_training_job, poll_endpoint_mnist, poll_endpoint_multilabel,
    bind, create, sleep, print, emit, describe, subscript, assign, raise, ret;
  simpl.



Lemma poll_training_job_never_raises (fuel : nat) (w : World) :
  (forall k, is_Some (service k !! "TrainingJobStatus")) ->
  (exists w', poll_training_job fuel w = Ok tt w') \/ poll_training_job fuel w = Running.
Proof.
  intros Hkeys. destruct (Hkeys (queries w)) as [s Hs].
  run_cell. rewrite Hs. simpl.
  apply training_loop_never_raises; [exact Hkeys|]. simpl.
  exists s. apply lookup_insert_eq.
Qed.

Lemma poll_endpoint_never_raises (fuel : nat) (w : World) :
  (forall k, is_Some (service k !! "EndpointStatus")) ->
  (forall k, is_Some (service k !! "EndpointArn")) ->
  ((exists w', poll_endpoint_mnist fuel w = Ok tt w') \/ poll_endpoint_mnist fuel w = Running)
  /\ ((exists w', poll_endpoint_multilabel fuel w = Ok tt w')
      \/ poll_endpoint_multilabel fuel w = Running).
Proof.
  intros Hkeys Harn. destruct (Hkeys (queries w)) as [s Hs]. split.
  - run_cell. rewrite Hs. simpl.
    match goal with |- context [endpoint_loop_mnist fuel ?w0] =>
      destruct (endpoint_loop_never_raises EndpointLoopMnist fuel w0)
        as [(w1 & Hrun & Hvars)|Hrun]; [discriminate | exact Hkeys | | |]
    end.
    + split; simpl; [exists s; apply lookup_insert_eq|]. exists (queries w).
      rewrite lookup_insert_ne by discriminate. apply lookup_insert_eq.
    + simpl in Hrun. rewrite Hrun. left. apply print_endpoint_returns; assumption.
    + simpl in Hrun. rewrite Hrun. right. reflexivity.
  - run_cell. rewrite Hs. simpl.
    match goal with |- context [endpoint_loop_multilabel fuel ?w0] =>
      destruct (endpoint_loop_never_raises EndpointLoopMultilabel fuel w0)
        as [(w1 & Hrun & Hvars)|Hrun]; [discriminate | exact Hkeys | | |]
    end.
    + split; simpl; [exists s; apply lookup_insert_eq|]. exists (queries w).
      rewrite lookup_insert_ne by discriminate. apply lookup_insert_eq.
    + simpl in Hrun. rewrite Hrun. left. apply print_endpoint_returns; assumption.
    + simpl in Hrun. rewrite Hrun. right. reflexivity.
Qed.

(** *** The cells that poll with a waiter *)

Section Waiters.
(** The seconds between two polls of a waiter and the number of polls it
    may make, by waiter name: the configuration that the service
    description shipped with botocore gives the waiter. *)
Variable delay : string -> Z.
Variable max_attempts : string -> nat.
(** The text of a [WaiterError], from the waiter name and the failure
    status met ([None] when the attempts ran out). *)
Variable waiter_error : string -> option string -> string.


(** What the acceptors of a waiter make of a response: the statuses of
    [success] end the wait, those of [failure] make it raise, anything else
    (also a response without the field) is polled again. *)
Definition accept (field : string) (success failure : list string)
    (response : gmap string string) : Acceptor :=
  match response !! field with
  | Some status =>
      if bool_decide (status ∈ success) then Success
      else if bool_decide (status ∈ failure) then Failure
      else Retry
  | None => Retry
  end.

(** The loop of [Waiter.wait]: describe, return on success, raise
    [WaiterError] on failure and when no attempt is left, otherwise sleep
    and poll again. [retries] is the number of attempts left after this
    one. *)
Fixpoint poll (name field : string) (success failure : list string) (retries : nat)
    : M unit :=
  let* response := describe in
  match accept field success failure response with
  | Success => ret tt
  | Failure => raise "WaiterError" (waiter_error name (response !! field))
  | Retry =>
      match retries with
      | O => raise "WaiterError" (waiter_error name None)
      | S retries' => sleep (delay name) ;; poll name field success failure retries'
      end
  end.

(** [client.get_waiter(name).wait(...)]: the first poll is made whatever
    the number of attempts allowed. *)
Definition wait (name field : string) (success failure : list string) : M unit :=
  emit (Wait name) ;;
  poll name field success failure (max_attempts name - 1).

(** The two waiters the notebooks use, with the acceptors of the service
    description. *)
Definition training_job_completed_or_stopped : M unit :=
  wait "training_job_completed_or_stopped" "TrainingJobStatus" ["Completed"; "Stopped"] ["Failed"].

Definition endpoint_in_service : M unit :=
  wait "endpoint_in_service" "EndpointStatus" ["InService"] ["Failed"].

(** xgboost_mnist: the two training jobs are created, the waiter waits
    for the distributed job, and its status is checked. *)
Definition train_and_check_mnist : M unit :=
  create "create_training_job" ;;
  create "create_training_job" ;;
  let* r := describe in
  let* status := subscript r "TrainingJobStatus" in
  assign "status" (VStr status) ;;
  print status ;;
  training_job_completed_or_stopped ;;
  let* r := describe in
  let* status := subscript r "TrainingJobStatus" in
  assign "status" (VStr status) ;;
  print ("Training job ended with status: " ++ status) ;;
  if String.eqb status "Failed" then
    let* r := describe in
    let* message := subscript r "FailureReason" in
    assign "message" (VStr message) ;;
    print ("Training failed with the following error: " ++ message) ;;
    raise "Exception" "Training job failed"
  else ret tt.

(** The sequence-to-sequence endpoint: created, waited for, checked. *)
Definition create_and_check_endpoint : M unit :=
  create "create_endpoint" ;;
  let* resp := describe in
  assign "resp" (VDict resp) ;;
  let* status := subscript resp "EndpointStatus" in
  assign "status" (VStr status) ;;
  print ("Status: " ++ status) ;;
  endpoint_in_service ;;
  let* endpoint_response := describe in
  assign "endpoint_response" (VDict endpoint_response) ;;
  let* status := subscript endpoint_response "EndpointStatus" in
  assign "status" (VStr status) ;;
  print ("Endpoint creation ended with EndpointStatus = " ++ status) ;;
  if negb (String.eqb status "InService") then
    raise "Exception" "Endpoint creation failed."
  else ret tt.














(** *** The cells *)






End Waiters.

(** The cells with a hand-written polling loop have no check after the
    loop: on responses that hold the fields they read, they return or are
    still polling, and raise nothing, whatever the final status. *)
Theorem polling_cells_never_raise (w : World) (fuel : nat) :
  (forall k, is_Some (service k !! "TrainingJobStatus")
             /\ is_Some (service k !! "EndpointStatus")
             /\ is_Some (service k !! "EndpointArn")) ->
  ((exists w', poll_training_job fuel w = Ok tt w') \/ poll_training_job fuel w = Running)
  /\ ((exists w', poll_endpoint_mnist fuel w = Ok tt w')
      \/ poll_endpoint_mnist fuel w = Running)
  /\ ((exists w', poll_endpoint_multilabel fuel w = Ok tt w')
      \/ poll_endpoint_multilabel fuel w = Running).
Proof.
  intros Hkeys. split.
  - apply poll_training_job_never_raises. intros k. apply Hkeys.
  - apply poll_endpoint_never_raises; intros k; apply Hkeys.
Qed.

End Service.

(** *** A training job that completes at the third query, and an endpoint *)



(** An endpoint that stays in 'Creating' and reports when it last changed. *)
Definition still_creating (k : nat) : gmap string string :=
  <[ "LastModifiedTime" := Py.str_int (Z.of_nat k) ]> {[ "EndpointStatus" := "Creating" ]}.


(** *** A failed training job and a failed endpoint *)

Definition failed_job (_ : nat) : gmap string string :=
  <[ "FailureReason" := "OutOfMemory" ]> {[ "TrainingJobStatus" := "Failed" ]}.


(** A waiter configuration for the examples: 30 seconds between polls,
    three attempts. *)
Definition every_30 (_ : string) : Z := 30.
Definition three_attempts (_ : string) : nat := 3.

Definition waiter_text (name : string) (status : option string) : string :=
  match status with
  | Some s => "Waiter " ++ name ++ " failed: terminal failure state " ++ s
  | None => "Waiter " ++ name ++ " failed: Max attempts exceeded"
  end.

(** A training job whose status the waiter sees as completed and the cell,
    one query later, as failed. *)
Definition late_failure (k : nat) : gmap string string :=
  <[ "FailureReason" := "OutOfMemory" ]>
    {[ "TrainingJobStatus" :=
         if (k <? 1)%nat then "InProgress" else if (k <? 2)%nat then "Completed" else "Failed" ]}.

Example train_and_check_mnist_failed :
  train_and_check_mnist failed_job every_30 three_attempts waiter_text (mkWorld ∅ [] 0)
  = Raised "WaiterError"
      "Waiter training_job_completed_or_stopped failed: terminal failure state Failed"
      (mkWorld {[ "status" := VStr "Failed" ]}
         [Create "create_training_job"; Create "create_training_job";
          Describe 0; Print "Failed"; Wait "training_job_completed_or_stopped";
          Describe 1]
         2).
Proof. vm_compute. reflexivity. Qed.

Example train_and_check_mnist_late_failure :
  train_and_check_mnist late_failure every_30 three_attempts waiter_text (mkWorld ∅ [] 0)
  = Raised "Exception" "Training job failed"
      (mkWorld (<[ "message" := VStr "OutOfMemory" ]> {[ "status" := VStr "Failed" ]})
         [Create "create_training_job"; Create "create_training_job";
          Describe 0; Print "InProgress"; Wait "training_job_completed_or_stopped";
          Describe 1; Describe 2; Print "Training job ended with status: Failed";
          Describe 3; Print "Training failed with the following error: OutOfMemory"]
         4).
Proof. vm_compute. reflexivity. Qed.

(** An endpoint still in 'Creating' when the attempts of the waiter run
    out. *)
Example create_and_check_endpoint_runs_out :
  exists w', create_and_check_endpoint still_creating every_30 three_attempts waiter_text
               (mkWorld ∅ [] 0)
             = Raised "WaiterError" "Waiter endpoint_in_service failed: Max attempts exceeded" w'
    /\ trace w' = [Create "create_endpoint"; Describe 0; Print "Status: Creating";
                   Wait "endpoint_in_service"; Describe 1; Sleep 30; Describe 2; Sleep 30;
                   Describe 3].
Proof. eexists. split; vm_compute; reflexivity. Qed.


(** A service whose responses hold every field the polling cells read. *)
Definition busy_service (k : nat) : gmap string string :=
  <[ "TrainingJobStatus" := if (k <? 2)%nat then "InProgress" else "Failed" ]>
    (<[ "EndpointArn" := "arn:endpoint" ]>
       {[ "EndpointStatus" := if (k <? 2)%nat then "Creating" else "Failed" ]}).

Lemma polling_cells_never_raise_witness :
  (forall k, is_Some (busy_service k !! "TrainingJobStatus")
             /\ is_Some (busy_service k !! "EndpointStatus")
             /\ is_Some (busy_service k !! "EndpointArn"))
  /\ ((exists w', poll_training_job busy_service 5 (mkWorld ∅ [] 0) = Ok tt w')
      \/ poll_training_job busy_service 5 (mkWorld ∅ [] 0) = Running).
Proof.
  assert (Hkeys : forall k, is_Some (busy_service k !! "TrainingJobStatus")
             /\ is_Some (busy_service k !! "EndpointStatus")
             /\ is_Some (busy_service k !! "EndpointArn")).
  { intros k. unfold busy_service. repeat split; eexists.
    - apply lookup_insert_eq.
    - rewrite lookup_insert_ne by discriminate. rewrite lookup_insert_ne by discriminate.
      apply lookup_singleton_eq.
    - rewrite lookup_insert_ne by discriminate. apply lookup_insert_eq. }
  split; [exact Hkeys|].
  exact (proj1 (polling_cells_never_raise busy_service (mkWorld ∅ [] 0) 5 Hkeys)).
Defined.

End Jobs.

(** ** Word vectors and cosine similarity (blazingtext, word2vec) *)

Module Spearman.
Import Py.

Section Vectors.
(** The numbers of numpy ([float64]) and the operations the cell uses; the
    properties below hold whatever these compute. *)
Context {F : Type}.
(** [x == 0]. *)
Variable is_zero : F -> bool.
(** [x / y]. *)
Variable fdiv : F -> F -> F.
(** [np.linalg.norm(v)] and [np.dot(v1, v2)]. *)
Variable norm : list F -> F.
Variable dot : list F -> list F -> F.
(** The parsed response of the [k]-th call [bt_endpoint.predict] for a list
    of words: one record [(word, vector)] for each. *)
Variable predict : nat -> list string -> list (string * list F).

(** The state of the collecting loop. *)
Record Collect := mkCollect
  { vectors : gmap string (list F); batch_start : Z; batch_end : Z; calls : nat }.

Definition batch_size : Z := 500.

(** The body of [for i in vecs]. *)
Definition store (vectors : gmap string (list F)) (i : string * list F)
    : gmap string (list F) :=
  let arr := snd i in
  if is_zero (norm arr) then vectors
  else <[fst i := arr]> vectors.

(** The body of [while len(vectors) != total_words]. *)
Definition collect_step (query_words : list string) (st : Collect) : Collect :=
  let total_words := Z.of_nat (length query_words) in
  let batch_end := Z.min (batch_end st) total_words in
  let subset_words := slice query_words (batch_start st) batch_end in
  let vecs := predict (calls st) subset_words in
  let vectors := foldl store (vectors st) vecs in
  mkCollect vectors (batch_start st + batch_size) (batch_end + batch_size) (S (calls st)).

(** The state the loop starts from: [vectors = {}], [batch_start = 0],
    [batch_end = batch_start + batch_size]. *)
Definition collect_start : Collect := mkCollect ∅ 0 (0 + batch_size) 0.

(** The loop; [None]: not finished within [fuel] turns. *)
Fixpoint collect (fuel : nat) (query_words : list string) (st : Collect) : option Collect :=
  match fuel with
  | O => None
  | S fuel' =>
      if (size (vectors st) =? length query_words)%nat then Some st
      else collect fuel' query_words (collect_step query_words st)
  end.

(** A division that records whether the divisor is zero: [None] stands for
    a division by zero (numpy then warns and gives [inf] or [nan]). *)
Definition checked_div (x y : F) : option F :=
  if is_zero y then None else Some (fdiv x y).

(** [similarity(v1, v2)]. *)
Definition similarity (v1 v2 : list F) : option F :=
  let n1 := norm v1 in
  let n2 := norm v2 in
  match checked_div (dot v1 v2) n1 with
  | Some q => checked_div q n2
  | None => None
  end.

(** Every stored vector has a non-zero norm. *)
Definition nonzero_norms (vectors : gmap string (list F)) : Prop :=
  forall word v, vectors !! word = Some v -> is_zero (norm v) = false.

Lemma store_nonzero vectors i : nonzero_norms vectors -> nonzero_norms (store vectors i).
Proof.
  intros Hinv. unfold store. destruct (is_zero (norm (snd i))) eqn:Hz; [exact Hinv|].
  intros word v. destruct (decide (fst i = word)) as [<-|Hne].
  - rewrite lookup_insert_eq. intros [= <-]. exact Hz.
  - rewrite lookup_insert_ne by exact Hne. apply Hinv.
Qed.

Lemma store_all_nonzero vecs vectors :
  nonzero_norms vectors -> nonzero_norms (foldl store vectors vecs).
Proof.
  revert vectors. induction vecs as [|i vecs IH]; intros vectors Hinv; [exact Hinv|].
  simpl. apply IH, store_nonzero, Hinv.
Qed.

Lemma collect_step_nonzero query_words st :
  nonzero_norms (vectors st) -> nonzero_norms (vectors (collect_step query_words st)).
Proof. intros Hinv. unfold collect_step. simpl. apply store_all_nonzero, Hinv. Qed.

Lemma turns_nonzero query_words (n : nat) :
  nonzero_norms (vectors (Nat.iter n (collect_step query_words) collect_start)).
Proof.
  induction n as [|n IH]; simpl.
  - intros word v. rewrite lookup_empty. discriminate.
  - apply collect_step_nonzero, IH.
Qed.

(** A loop that finishes has made some number of turns. *)
Lemma collect_turns fuel query_words st st' :
  collect fuel query_words st = Some st' ->
  exists n, st' = Nat.iter n (collect_step query_words) st.
Proof.
  revert st. induction fuel as [|fuel IH]; intros st Hrun; [discriminate|].
  simpl in Hrun. destruct (size (vectors st) =? length query_words)%nat.
  - injection Hrun as <-. exists 0%nat. reflexivity.
  - destruct (IH _ Hrun) as [n ->]. exists (S n).
    rewrite Nat.iter_succ_r. reflexivity.
Qed.

(** C7. After any number of turns of the collecting loop, and so when it
    has finished, every vector in [vectors] has a non-zero norm, and for
    every two vectors [v1], [v2] taken from [vectors] both divisions of
    [similarity] have a non-zero divisor: it returns
    [dot(v1, v2) / n1 / n2]. *)
Theorem similarity_divisors_nonzero (query_words : list string) (n : nat)
    (word1 word2 : string) (v1 v2 : list F) :
  let st := Nat.iter n (collect_step query_words) collect_start in
  vectors st !! word1 = Some v1 ->
  vectors st !! word2 = Some v2 ->
  is_zero (norm v1) = false
  /\ is_zero (norm v2) = false
  /\ similarity v1 v2 = Some (fdiv (fdiv (dot v1 v2) (norm v1)) (norm v2))
  /\ forall fuel st', collect fuel query_words collect_start = Some st' ->
       nonzero_norms (vectors st').
Proof.
  intros st H1 H2.
  pose proof (turns_nonzero query_words n word1 v1 H1) as Hn1.
  pose proof (turns_nonzero query_words n word2 v2 H2) as Hn2.
  split; [exact Hn1|]. split; [exact Hn2|]. split.
  - unfold similarity, checked_div. rewrite Hn1, Hn2. reflexivity.
  - intros fuel st' Hrun. destruct (collect_turns _ _ _ _ Hrun) as [m ->].
    apply turns_nonzero.
Qed.

(** *** A word without a usable vector *)

(** The words stored are query words other than [skipped]. *)
Definition stored_within (query_words : list string) (skipped : string)
    (vectors : gmap string (list F)) : Prop :=
  dom vectors ⊆ (list_to_set query_words : gset string) ∖ {[ skipped ]}.

Lemma store_within query_words skipped words vectors i :
  words ⊆ query_words ->
  fst i ∈ words ->
  (fst i = skipped -> is_zero (norm (snd i)) = true) ->
  stored_within query_words skipped vectors ->
  stored_within query_words skipped (store vectors i).
Proof.
  intros Hsub Hin Hzero Hinv. unfold store.
  destruct (is_zero (norm (snd i))) eqn:Hz; [exact Hinv|].
  unfold stored_within in *. rewrite dom_insert_L.
  intros w Hw. apply elem_of_union in Hw as [Hw|Hw]; [|apply Hinv, Hw].
  apply elem_of_singleton in Hw as ->.
  apply elem_of_difference. split.
  - apply elem_of_list_to_set, Hsub, Hin.
  - intros Hs. apply elem_of_singleton in Hs. specialize (Hzero Hs). discriminate.
Qed.

Lemma slice_subseteq {A} (xs : list A) (a b : Z) : slice xs a b ⊆ xs.
Proof.
  unfold slice. etransitivity; [apply subseteq_take | apply subseteq_drop].
Qed.

(** The collecting loop cannot finish when the endpoint gives one of the
    query words a vector of norm zero every time: that word is never
    stored, so [len(vectors)] stays below [total_words]. The endpoint is
    taken to answer with the words it was asked for, and [query_words] to
    hold no word twice (it is [list(set(...))]). *)
Theorem collect_never_finishes (query_words : list string) (skipped : string) (fuel : nat) :
  NoDup query_words ->
  skipped ∈ query_words ->
  (forall k words i, i ∈ predict k words -> fst i ∈ words) ->
  (forall k words i, i ∈ predict k words -> fst i = skipped ->
     is_zero (norm (snd i)) = true) ->
  collect fuel query_words collect_start = None.
Proof.
  intros Hnd Hskipped Hwords Hzero.
  assert (Hrun : forall st, stored_within query_words skipped (vectors st) ->
    collect fuel query_words st = None).
  { induction fuel as [|fuel' IH]; intros st Hinv; [reflexivity|].
    simpl. destruct (Nat.eqb_spec (size (vectors st)) (length query_words)) as [Heq|_].
    - exfalso.
      assert (H1 : size (dom (vectors st)) = size (vectors st)) by apply size_dom.
      assert (H2 : size (list_to_set query_words : gset string) = length query_words)
        by apply size_list_to_set, Hnd.
      assert (Hlt : (size ((list_to_set query_words : gset string) ∖ {[ skipped ]})
                     < size (list_to_set query_words : gset string))%nat).
      { apply subset_size, subset_difference_elem_of, elem_of_list_to_set, Hskipped. }
      pose proof (subseteq_size _ _ Hinv). lia.
    - apply IH. unfold collect_step. simpl.
      set (words := slice query_words (batch_start st)
                      (Z.min (batch_end st) (Z.of_nat (length query_words)))).
      assert (Hall : forall i, i ∈ predict (calls st) words ->
        fst i ∈ words /\ (fst i = skipped -> is_zero (norm (snd i)) = true)).
      { intros i Hi. split; [apply (Hwords _ _ _ Hi) | apply (Hzero _ _ _ Hi)]. }
      revert Hall Hinv. generalize (predict (calls st) words) (vectors st).
      intros vecs. induction vecs as [|i vecs IHv]; intros vectors0 Hall Hinv0; [exact Hinv0|].
      simpl. apply IHv.
      + intros j Hj. apply Hall, list_elem_of_further, Hj.
      + destruct (Hall i (list_elem_of_here _ _)) as [Hin Hz].
        apply (store_within query_words skipped words vectors0 i
                 (slice_subseteq _ _ _) Hin Hz Hinv0). }
  apply Hrun. unfold stored_within. simpl. rewrite dom_empty_L. apply empty_subseteq.
Qed.

End Vectors.

(** *** The cell on binary64 floats *)

Import PrimFloat.

Definition float_is_zero (x : PrimFloat.float) : bool := PrimFloat.eqb x PrimFloat.zero.

(** The Euclidean norm, summing the squares from the left. *)
Definition float_norm (v : list PrimFloat.float) : PrimFloat.float :=
  PrimFloat.sqrt (foldl (fun acc x => PrimFloat.add acc (PrimFloat.mul x x)) PrimFloat.zero v).

Definition float_dot (v1 v2 : list PrimFloat.float) : PrimFloat.float :=
  foldl PrimFloat.add PrimFloat.zero (zip_with PrimFloat.mul v1 v2).

(** An endpoint that knows three words; the vector of "dog" is zero. *)
Definition toy_vector (word : string) : list PrimFloat.float :=
  if String.eqb word "cat" then [3%float; 4%float]
  else if String.eqb word "emu" then [1%float; 0%float]
  else [0%float; 0%float].

Definition toy_predict (_ : nat) (words : list string) : list (string * list PrimFloat.float) :=
  (fun word => (word, toy_vector word)) <$> words.

Example collect_skips_zero_vector :
  let st := collect_step float_is_zero float_norm toy_predict ["cat"; "dog"; "emu"]
              (@collect_start PrimFloat.float) in
  vectors st !! "cat" = Some [3%float; 4%float]
  /\ vectors st !! "dog" = None
  /\ similarity float_is_zero PrimFloat.div float_norm float_dot
       [3%float; 4%float] [1%float; 0%float] = Some (3 / 5)%float
  /\ similarity float_is_zero PrimFloat.div float_norm float_dot
       [3%float; 4%float] [0%float; 0%float] = None.
Proof. vm_compute. repeat split; reflexivity. Qed.

(** With the zero vector of "dog" left out, [len(vectors)] never reaches
    [total_words]: the loop does not finish. *)
Lemma collect_never_finishes_witness :
  NoDup ["cat"; "dog"; "emu"]
  /\ "dog" ∈ ["cat"; "dog"; "emu"]
  /\ collect float_is_zero float_norm toy_predict 50 ["cat"; "dog"; "emu"]
       (@collect_start PrimFloat.float) = None.
Proof.
  assert (Hnd : NoDup ["cat"; "dog"; "emu"]).
  { apply (bool_decide_unpack _). vm_compute. exact I. }
  assert (Hin : "dog" ∈ ["cat"; "dog"; "emu"]).
  { apply list_elem_of_further, list_elem_of_here. }
  split; [exact Hnd|]. split; [exact Hin|].
  apply (collect_never_finishes float_is_zero float_norm toy_predict
           ["cat"; "dog"; "emu"] "dog" 50 Hnd Hin).
  - intros k words i Hi. unfold toy_predict in Hi.
    apply list_elem_of_fmap in Hi as (word & -> & Hword). exact Hword.
  - intros k words i Hi Hdog. unfold toy_predict in Hi.
    apply list_elem_of_fmap in Hi as (word & -> & Hword). simpl in Hdog. subst word.
    vm_compute. reflexivity.
Defined.

Lemma similarity_divisors_nonzero_witness :
  let st := Nat.iter 1 (collect_step float_is_zero float_norm toy_predict ["cat"; "dog"; "emu"])
              (@collect_start PrimFloat.float) in
  vectors st !! "cat" = Some [3%float; 4%float]
  /\ vectors st !! "emu" = Some [1%float; 0%float]
  /\ similarity float_is_zero PrimFloat.div float_norm float_dot
       [3%float; 4%float] [1%float; 0%float]
     = Some (PrimFloat.div (PrimFloat.div (float_dot [3%float; 4%float] [1%float; 0%float])
                              (float_norm [3%float; 4%float]))
               (float_norm [1%float; 0%float])).
Proof.
  intros st.
  assert (Hcat : vectors st !! "cat" = Some [3%float; 4%float]) by (vm_compute; reflexivity).
  assert (Hemu : vectors st !! "emu" = Some [1%float; 0%float]) by (vm_compute; reflexivity).
  split; [exact Hcat|]. split; [exact Hemu|].
  exact (proj1 (proj2 (proj2 (similarity_divisors_nonzero float_is_zero
    PrimFloat.div float_norm float_dot toy_predict ["cat"; "dog"; "emu"] 1
    "cat" "emu" [3%float; 4%float] [1%float; 0%float] Hcat Hemu)))).
Defined.

End Spearman.

(** ** Stripping the label prefix on a deep copy (language identification) *)

Module Labels.

(** Python values: atoms, and references to objects on the heap. *)
Inductive Val :=
| VNone
| VNum (x : Q)
| VStr (s : string)
| VRef (l : nat).

(** Heap objects: lists and dictionaries (fields in insertion order). *)
Inductive Obj :=
| OList (items : list Val)
| ODict (fields : list (string * Val)).

(** The heap: the object at location [l] is [h !! l]; a new object goes to
    the end. *)
Abbreviation Heap := (list Obj).

(** The values an object holds, in iteration order, with their keys (the
    empty string for the items of a list). *)
Definition entries (o : Obj) : list (string * Val) :=
  match o with
  | OList items => (fun v => ("", v)) <$> items
  | ODict fields => fields
  end.

(** The empty object of the same class: [[]] or [{}]. *)
Definition empty_like (o : Obj) : Obj :=
  match o with
  | OList _ => OList []
  | ODict _ => ODict []
  end.

(** [y.append(v)] for a list, [y[key] = v] for a dictionary that does not
    have [key] yet. *)
Definition add_entry (o : Obj) (e : string * Val) : Obj :=
  match o with
  | OList items => OList (items ++ [snd e])%list
  | ODict fields => ODict (fields ++ [e])%list
  end.

(** The state of a deep copy: the heap and the memo dictionary, which maps
    an object already met to its copy. *)
Abbreviation CopyState := (list Obj * gmap nat nat)%type.

(** The loop of [_deepcopy_list] and [_deepcopy_dict] over the entries of
    the object copied: each value is copied by [rec] and added to the new
    object at [y]. *)
Fixpoint copy_entries (rec : Val -> CopyState -> option (Val * CopyState)) (y : nat)
    (es : list (string * Val)) (st : CopyState) : option CopyState :=
  match es with
  | [] => Some st
  | (key, a) :: rest =>
      match rec a st with
      | None => None
      | Some (a', (h, memo)) =>
          match h !! y with
          | None => None
          | Some oy => copy_entries rec y rest (<[y := add_entry oy (key, a')]> h, memo)
          end
      end
  end.

(** [copy.deepcopy(x, memo)]: an atom is its own copy; an object met before
    is answered from the memo; otherwise an empty object is made, entered
    in the memo, and filled. [None]: [fuel] nested calls did not suffice,
    or a reference leads nowhere. *)
Fixpoint deepcopy (fuel : nat) (x : Val) (st : CopyState) : option (Val * CopyState) :=
  match fuel with
  | O => None
  | S fuel' =>
      match x with
      | VRef l =>
          let '(h, memo) := st in
          match memo !! l with
          | Some y => Some (VRef y, st)
          | None =>
              match h !! l with
              | None => None
              | Some o =>
                  let y := length h in
                  match copy_entries (deepcopy fuel') y (entries o)
                          ((h ++ [empty_like o])%list, <[l := y]> memo) with
                  | None => None
                  | Some st' => Some (VRef y, st')
                  end
              end
          end
      | _ => Some (x, st)
      end
  end.

(** [d[key]] for a dictionary's fields. *)
Fixpoint dict_get (key : string) (fields : list (string * Val)) : option Val :=
  match fields with
  | [] => None
  | (k, v) :: rest => if String.eqb k key then Some v else dict_get key rest
  end.

(** [d[key] = v]. *)
Fixpoint dict_set (key : string) (v : Val) (fields : list (string * Val))
    : list (string * Val) :=
  match fields with
  | [] => [(key, v)]
  | (k, v0) :: rest =>
      if String.eqb k key then (k, v) :: rest else (k, v0) :: dict_set key v rest
  end.

(** [s[n:]] for a string. *)
Fixpoint drop_chars (n : nat) (s : string) : string :=
  match n, s with
  | O, _ => s
  | S n', EmptyString => EmptyString
  | S n', String _ rest => drop_chars n' rest
  end.

Section Strip.
(** [s.upper()]. *)
Variable upper : string -> string.

(** [v[0]]: the first item of a list, the first character of a string;
    [None] is an exception ([IndexError], [KeyError], [TypeError]). *)
Definition first (h : Heap) (v : Val) : option Val :=
  match v with
  | VStr (String c _) => Some (VStr (String c EmptyString))
  | VRef l =>
      match h !! l with
      | Some (OList (x :: _)) => Some x
      | _ => None
      end
  | _ => None
  end.

(** The body of the loop: [output['label'] = output['label'][0][9:].upper()].
    [None] is an exception; a list sliced by [[9:]] has no [upper]. *)
Definition strip_label (h : Heap) (output : Val) : option Heap :=
  match output with
  | VRef d =>
      match h !! d with
      | Some (ODict fields) =>
          match dict_get "label" fields with
          | Some label =>
              match first h label with
              | Some (VStr s) =>
                  Some (<[d := ODict (dict_set "label" (VStr (upper (drop_chars 9 s))) fields)]> h)
              | _ => None
              end
          | None => None
          end
      | _ => None
      end
  | _ => None
  end.

(** The values a [for] loop over [v] goes through: the items of a list, the
    keys of a dictionary, the characters of a string; [None]: [v] is not
    iterable. *)
Definition iterate (h : Heap) (v : Val) : option (list Val) :=
  match v with
  | VRef l =>
      match h !! l with
      | Some (OList items) => Some items
      | Some (ODict fields) => Some ((fun kv => VStr (fst kv)) <$> fields)
      | None => None
      end
  | VStr s => Some ((fun c => VStr (String c EmptyString)) <$> list_ascii_of_string s)
  | _ => None
  end.

(** The cell: [predictions_copy = copy.deepcopy(predictions)], then the loop
    over the outputs of the copy. The result is the copy and the heap. *)
Definition strip_labels (fuel : nat) (predictions : Val) (h : Heap) : option (Val * Heap) :=
  match deepcopy fuel predictions (h, ∅) with
  | None => None
  | Some (predictions_copy, (h, _)) =>
      match iterate h predictions_copy with
      | None => None
      | Some outputs =>
          match Py.for_each strip_label h outputs with
          | Some h' => Some (predictions_copy, h')
          | None => None
          end
      end
  end.

End Strip.

(** *** What a deep copy does to a heap *)

Section DeepCopy.
(** The heap before the copy. Its references lead to its own objects. *)
Variable h0 : Heap.

Definition closed_val (v : Val) : Prop :=
  match v with
  | VRef l => (l < length h0)%nat
  | _ => True
  end.

Definition closed_heap : Prop :=
  forall l o, h0 !! l = Some o -> Forall (fun e => closed_val (snd e)) (entries o).

(** The copy of a value under a memo: an atom is itself, an object is its
    entry in the memo. *)
Definition copy_val (memo : gmap nat nat) (v : Val) : Val :=
  match v with
  | VRef l =>
      match memo !! l with
      | Some y => VRef y
      | None => v
      end
  | _ => v
  end.

(** The memo has an entry for the value, if it is an object. *)
Definition known (memo : gmap nat nat) (v : Val) : Prop :=
  match v with
  | VRef l => is_Some (memo !! l)
  | _ => True
  end.

Definition obj_map (f : Val -> Val) (o : Obj) : Obj :=
  match o with
  | OList items => OList (f <$> items)
  | ODict fields => ODict ((fun kv => (fst kv, f (snd kv))) <$> fields)
  end.

(** The objects of [h0] are where they were, and the memo maps objects of
    [h0] to distinct objects made after them. *)
Definition inv (st : CopyState) : Prop :=
  take (length h0) (fst st) = h0
  /\ (forall l y, snd st !! l = Some y ->
        (l < length h0)%nat /\ (length h0 <= y)%nat /\ (y < length (fst st))%nat)
  /\ (forall l1 l2 y, snd st !! l1 = Some y -> snd st !! l2 = Some y -> l1 = l2).

(** The object at [y] is the finished copy of the object at [l]. *)
Definition complete (st : CopyState) (l y : nat) : Prop :=
  exists o, h0 !! l = Some o
    /\ fst st !! y = Some (obj_map (copy_val (snd st)) o)
    /\ Forall (fun e => known (snd st) (snd e)) (entries o).

(** The objects of [h0] that have no copy yet. *)
Definition todo (memo : gmap nat nat) : nat :=
  length (filter (fun l => memo !! l = None) (seq 0 (length h0))).

(** What a call that copies [x] from state [st] has done when it returns
    [x'] in state [st']. *)
Definition copied (x : Val) (st : CopyState) (x' : Val) (st' : CopyState) : Prop :=
  inv st'
  /\ snd st ⊆ snd st'
  /\ (forall l, (l < length (fst st))%nat -> fst st' !! l = fst st !! l)
  /\ (length (fst st) <= length (fst st'))%nat
  /\ x' = copy_val (snd st') x
  /\ known (snd st') x
  /\ (forall l y, snd st' !! l = Some y -> snd st !! l = None ->
        (length (fst st) <= y)%nat /\ complete st' l y).

Lemma filter_length_le {A} (P Q : A -> Prop) `{!forall x, Decision (P x)}
    `{!forall x, Decision (Q x)} (xs : list A) :
  (forall x, P x -> Q x) -> (length (filter P xs) <= length (filter Q xs))%nat.
Proof.
  intros HPQ. induction xs as [|x xs IH]; [reflexivity|].
  rewrite !filter_cons. destruct (decide (P x)) as [HP|HP].
  - rewrite decide_True by (apply HPQ, HP). simpl. lia.
  - destruct (decide (Q x)); simpl; lia.
Qed.

Lemma filter_length_lt {A} (P Q : A -> Prop) `{!forall x, Decision (P x)}
    `{!forall x, Decision (Q x)} (xs : list A) (a : A) :
  (forall x, P x -> Q x) -> a ∈ xs -> Q a -> ~ P a ->
  (length (filter P xs) < length (filter Q xs))%nat.
Proof.
  intros HPQ Hin HQ HnP. induction xs as [|x xs IH]; [inversion Hin|].
  rewrite !filter_cons. apply elem_of_cons in Hin as [<-|Hin].
  - rewrite decide_False by exact HnP. rewrite decide_True by exact HQ. simpl.
    pose proof (filter_length_le P Q xs HPQ). lia.
  - specialize (IH Hin). destruct (decide (P x)) as [HP|HP].
    + rewrite decide_True by (apply HPQ, HP). simpl. lia.
    + destruct (decide (Q x)); simpl; lia.
Qed.

Lemma todo_mono (memo memo' : gmap nat nat) : memo ⊆ memo' -> (todo memo' <= todo memo)%nat.
Proof.
  intros Hsub. apply filter_length_le. intros l Hnone.
  destruct (memo !! l) as [y|] eqn:Hl; [|reflexivity].
  rewrite (lookup_weaken _ _ _ _ Hl Hsub) in Hnone. discriminate.
Qed.

Lemma todo_insert (memo : gmap nat nat) (l y : nat) :
  (l < length h0)%nat -> memo !! l = None -> (todo (<[l := y]> memo) < todo memo)%nat.
Proof.
  intros Hl Hnone. apply (filter_length_lt _ _ _ l).
  - intros l' Hl'. destruct (decide (l = l')) as [<-|Hne]; [exact Hnone|].
    rewrite lookup_insert_ne in Hl' by exact Hne. exact Hl'.
  - apply elem_of_seq. lia.
  - exact Hnone.
  - rewrite lookup_insert_eq. discriminate.
Qed.

Lemma copy_val_mono (memo memo' : gmap nat nat) (v : Val) :
  memo ⊆ memo' -> known memo v -> copy_val memo' v = copy_val memo v.
Proof.
  intros Hsub Hk. destruct v as [| | |l]; try reflexivity.
  destruct Hk as [y Hy]. simpl. rewrite Hy, (lookup_weaken _ _ _ _ Hy Hsub). reflexivity.
Qed.

Lemma known_mono (memo memo' : gmap nat nat) (v : Val) :
  memo ⊆ memo' -> known memo v -> known memo' v.
Proof.
  intros Hsub Hk. destruct v as [| | |l]; try exact I.
  destruct Hk as [y Hy]. exists y. apply (lookup_weaken _ _ _ _ Hy Hsub).
Qed.

Lemma obj_map_mono (memo memo' : gmap nat nat) (o : Obj) :
  memo ⊆ memo' -> Forall (fun e => known memo (snd e)) (entries o) ->
  obj_map (copy_val memo') o = obj_map (copy_val memo) o.
Proof.
  intros Hsub Hk. destruct o as [items|fields]; simpl in *; f_equal.
  - apply list_fmap_ext. intros i v Hv. apply copy_val_mono; [exact Hsub|].
    rewrite Forall_fmap, Forall_forall in Hk. apply (Hk v).
    eapply list_elem_of_lookup_2, Hv.
  - apply list_fmap_ext. intros i kv Hkv. f_equal. apply copy_val_mono; [exact Hsub|].
    rewrite Forall_forall in Hk. apply (Hk kv). eapply list_elem_of_lookup_2, Hkv.
Qed.

Lemma complete_mono (h h' : Heap) (memo memo' : gmap nat nat) (l y : nat) :
  complete (h, memo) l y -> memo ⊆ memo' -> h' !! y = h !! y -> complete (h', memo') l y.
Proof.
  intros (o & Ho & Hy & Hk) Hsub Hsame. exists o. simpl in *.
  split; [exact Ho|]. split.
  - rewrite Hsame, Hy, (obj_map_mono memo memo' o Hsub Hk). reflexivity.
  - eapply Forall_impl; [exact Hk|]. intros e. apply known_mono, Hsub.
Qed.

(** Filling an empty object with the copied entries gives the mapped
    object. *)
Lemma fill_obj_map (f : Val -> Val) (o : Obj) :
  foldl add_entry (empty_like o) ((fun e => (fst e, f (snd e))) <$> entries o) = obj_map f o.
Proof.
  destruct o as [items|fields]; simpl.
  - assert (H : forall acc, foldl add_entry (OList acc)
        ((fun e => (fst e, f (snd e))) <$> ((fun v => ("", v)) <$> items))
        = OList (acc ++ (f <$> items))).
    { induction items as [|v items IH]; intros acc; simpl; [rewrite app_nil_r; reflexivity|].
      rewrite IH, <- app_assoc. reflexivity. }
    apply (H []).
  - assert (H : forall acc, foldl add_entry (ODict acc)
        ((fun e => (fst e, f (snd e))) <$> fields)
        = ODict (acc ++ ((fun kv => (fst kv, f (snd kv))) <$> fields))).
    { induction fields as [|kv fields IH]; intros acc; simpl; [rewrite app_nil_r; reflexivity|].
      rewrite IH, <- app_assoc. reflexivity. }
    apply (H []).
Qed.

Hypothesis h0_closed : closed_heap.

Lemma inv_length (h : Heap) (memo : gmap nat nat) : inv (h, memo) -> (length h0 <= length h)%nat.
Proof.
  intros (Htake & _). simpl in Htake.
  pose proof (f_equal length Htake) as Hlen. rewrite length_take in Hlen. lia.
Qed.

Lemma inv_lookup (h : Heap) (memo : gmap nat nat) (l : nat) :
  inv (h, memo) -> (l < length h0)%nat -> h !! l = h0 !! l.
Proof.
  intros (Htake & _) Hl. simpl in Htake.
  rewrite <- (lookup_take_lt h (length h0) l) by exact Hl. rewrite Htake. reflexivity.
Qed.

(** The loop that fills the new object at [y], given that the nested calls
    do what [copied] says. *)
Lemma copy_entries_spec (fuel y : nat) :
  (forall x h memo, inv (h, memo) -> closed_val x -> (todo memo < fuel)%nat ->
     exists x' st', deepcopy fuel x (h, memo) = Some (x', st')
       /\ copied x (h, memo) x' st') ->
  (length h0 <= y)%nat ->
  forall es h memo oy,
    inv (h, memo) -> Forall (fun e => closed_val (snd e)) es -> (todo memo < fuel)%nat ->
    h !! y = Some oy ->
    exists h' memo',
      copy_entries (deepcopy fuel) y es (h, memo) = Some (h', memo')
      /\ inv (h', memo')
      /\ memo ⊆ memo'
      /\ (forall l, (l < length h)%nat -> l <> y -> h' !! l = h !! l)
      /\ (length h <= length h')%nat
      /\ h' !! y = Some (foldl add_entry oy
                           ((fun e => (fst e, copy_val memo' (snd e))) <$> es))
      /\ Forall (fun e => known memo' (snd e)) es
      /\ (forall l y', memo' !! l = Some y' -> memo !! l = None ->
            (length h <= y')%nat /\ complete (h', memo') l y').
Proof.
  intros Hrec Hy. induction es as [|[key a] es IH]; intros h memo oy Hinv Hes Htodo Hoy.
  - exists h, memo. split; [reflexivity|]. split; [exact Hinv|]. split; [reflexivity|].
    split; [reflexivity|]. split; [reflexivity|]. split; [exact Hoy|].
    split; [constructor|]. intros l y' H1 H2. congruence.
  - apply Forall_cons in Hes as [Ha Hes]. simpl in Ha.
    destruct (Hrec a h memo Hinv Ha Htodo) as (a' & [h1 memo1] & Hcall & Hcopied).
    destruct Hcopied as (Hinv1 & Hsub1 & Hframe1 & Hlen1 & Ha' & Hknown1 & Hnew1).
    simpl in Hsub1, Hframe1, Hlen1, Ha', Hknown1, Hnew1.
    pose proof (lookup_lt_Some _ _ _ Hoy) as Hylt.
    assert (Hoy1 : h1 !! y = Some oy) by (rewrite Hframe1 by exact Hylt; exact Hoy).
    simpl copy_entries. rewrite Hcall, Hoy1.
    set (h1' := <[y := add_entry oy (key, a')]> h1).
    assert (Hlen1' : length h1' = length h1) by apply length_insert.
    assert (Hinv1' : inv (h1', memo1)).
    { destruct Hinv1 as (Ht & Hr & Hi). simpl in *. split; [|split].
      - simpl. unfold h1'. rewrite take_insert_ge by exact Hy. exact Ht.
      - simpl. rewrite Hlen1'. exact Hr.
      - exact Hi. }
    destruct (IH h1' memo1 (add_entry oy (key, a')) Hinv1' Hes) as
      (h' & memo' & Hrun & Hinv' & Hsub' & Hframe' & Hlen' & Hy' & Hknown' & Hnew').
    { pose proof (todo_mono memo memo1 Hsub1). lia. }
    { unfold h1'. apply list_lookup_insert_eq. lia. }
    exists h', memo'. split; [exact Hrun|]. split; [exact Hinv'|].
    split; [etransitivity; eassumption|].
    split.
    { intros l Hl Hne. rewrite Hframe' by (rewrite ?Hlen1'; lia || exact Hne).
      unfold h1'. rewrite list_lookup_insert_ne by (intros ->; apply Hne; reflexivity).
      apply Hframe1, Hl. }
    split; [lia|].
    split.
    { rewrite Hy'. simpl. rewrite Ha'.
      rewrite (copy_val_mono memo1 memo' a Hsub' Hknown1). reflexivity. }
    split.
    { constructor; [|exact Hknown']. simpl. apply (known_mono memo1 memo' a Hsub' Hknown1). }
    intros l y' Hl' Hl.
    destruct (memo1 !! l) as [y1|] eqn:Hl1.
    + assert (y1 = y') as ->.
      { pose proof (lookup_weaken _ _ _ _ Hl1 Hsub') as H'. congruence. }
      destruct (Hnew1 l y' Hl1 Hl) as (Hfresh & Hcomplete). split; [exact Hfresh|].
      apply (complete_mono h1 h' memo1 memo' l y' Hcomplete Hsub').
      destruct Hinv1 as (_ & Hr & _). destruct (Hr l y' Hl1) as (_ & _ & Hy1lt). simpl in Hy1lt.
      rewrite Hframe' by (rewrite ?Hlen1'; lia).
      unfold h1'. apply list_lookup_insert_ne. lia.
    + destruct (Hnew' l y' Hl' Hl1) as (Hfresh & Hcomplete).
      split; [lia | exact Hcomplete].
Qed.

(** A deep copy with enough fuel returns, and what it returns is the copy:
    the heap it found is untouched, new memo entries lead to new objects,
    and each of them is the finished copy of its original. *)
Lemma deepcopy_spec (fuel : nat) :
  forall x h memo, inv (h, memo) -> closed_val x -> (todo memo < fuel)%nat ->
    exists x' st', deepcopy fuel x (h, memo) = Some (x', st')
      /\ copied x (h, memo) x' st'.
Proof.
  induction fuel as [|fuel IH]; intros x h memo Hinv Hx Htodo; [lia|].
  assert (Hatom : forall v, copy_val memo v = v -> known memo v ->
    exists x' st', Some (v, (h, memo)) = Some (x', st') /\ copied v (h, memo) x' st').
  { intros v Hv Hk. exists v, (h, memo). split; [reflexivity|].
    split; [exact Hinv|]. split; [reflexivity|]. split; [reflexivity|].
    split; [reflexivity|]. split; [symmetry; exact Hv|]. split; [exact Hk|].
    intros l y H1 H2. simpl in *. congruence. }
  destruct x as [|q|s|l]; try (apply Hatom; [reflexivity | exact I]).
  simpl in Hx. simpl deepcopy.
  destruct (memo !! l) as [y|] eqn:Hmemo.
  { exists (VRef y), (h, memo). split; [reflexivity|].
    split; [exact Hinv|]. split; [reflexivity|]. split; [reflexivity|].
    split; [reflexivity|]. simpl. rewrite Hmemo. split; [reflexivity|].
    split; [eexists; reflexivity|]. intros l' y' H1 H2. congruence. }
  pose proof (inv_length h memo Hinv) as Hlen.
  destruct (lookup_lt_is_Some_2 h0 l Hx) as [o Ho].
  rewrite (inv_lookup h memo l Hinv Hx), Ho.
  set (y := length h). set (h1 := (h ++ [empty_like o])%list). set (memo1 := <[l := y]> memo).
  assert (Hinv1 : inv (h1, memo1)).
  { destruct Hinv as (Ht & Hr & Hi). simpl in *. split; [|split]; simpl.
    - unfold h1. rewrite take_app_le by exact Hlen. exact Ht.
    - intros l' y'. unfold memo1, h1. rewrite length_app. simpl.
      destruct (decide (l = l')) as [<-|Hne].
      + rewrite lookup_insert_eq. intros [= <-]. unfold y. lia.
      + rewrite lookup_insert_ne by exact Hne. intros H'.
        destruct (Hr l' y' H') as (? & ? & ?). lia.
    - intros l1 l2 y'. unfold memo1.
      destruct (decide (l = l1)) as [<-|Hne1]; destruct (decide (l = l2)) as [<-|Hne2];
        rewrite ?lookup_insert_eq, ?lookup_insert_ne by assumption.
      + reflexivity.
      + intros [= <-] H'. destruct (Hr l2 y H') as (_ & _ & Hlt). unfold y in Hlt. lia.
      + intros H' [= <-]. destruct (Hr l1 y H') as (_ & _ & Hlt). unfold y in Hlt. lia.
      + apply Hi. }
  destruct (copy_entries_spec fuel y IH Hlen (entries o) h1 memo1 (empty_like o) Hinv1)
    as (h' & memo' & Hrun & Hinv' & Hsub' & Hframe' & Hlen' & Hy' & Hknown' & Hnew').
  { apply (h0_closed l o Ho). }
  { pose proof (todo_insert memo l y Hx Hmemo). unfold memo1. lia. }
  { unfold h1, y. apply list_lookup_middle. reflexivity. }
  fold y h1 memo1. rewrite Hrun.
  assert (Hl' : memo' !! l = Some y).
  { apply (lookup_weaken memo1); [apply lookup_insert_eq | exact Hsub']. }
  assert (Hlen1 : length h1 = S (length h)) by (unfold h1; rewrite length_app; simpl; lia).
  exists (VRef y), (h', memo'). split; [reflexivity|].
  split; [exact Hinv'|].
  split. { simpl. etransitivity; [apply (insert_subseteq memo l y Hmemo) | exact Hsub']. }
  split.
  { simpl. intros l0 Hl0. rewrite Hframe' by (unfold y; lia).
    unfold h1. apply lookup_app_l, Hl0. }
  split; [simpl; lia|].
  split; [simpl; rewrite Hl'; reflexivity|].
  split; [simpl; eexists; exact Hl'|].
  simpl. intros l0 y0 H0 Hnone.
  destruct (decide (l = l0)) as [<-|Hne].
  - assert (y0 = y) as -> by congruence. split; [unfold y; lia|].
    exists o. split; [exact Ho|]. simpl. split; [|exact Hknown'].
    rewrite Hy'. f_equal. apply fill_obj_map.
  - destruct (Hnew' l0 y0 H0) as (Hfresh & Hcomplete).
    { unfold memo1. rewrite lookup_insert_ne by exact Hne. exact Hnone. }
    split; [lia | exact Hcomplete].
Qed.

End DeepCopy.

(** *** The response and the rewritten copy *)

Section Response.
Variable upper : string -> string.

(** The output at [d] is a dictionary whose ['label'] is a list that starts
    with the string [s]. *)
Definition has_label (h : Heap) (d : nat) (s : string) : Prop :=
  exists fields ll rest,
    h !! d = Some (ODict fields)
    /\ dict_get "label" fields = Some (VRef ll)
    /\ h !! ll = Some (OList (VStr s :: rest)).

(** [p] is a predictions response as the JSON decoder builds it: a list of
    distinct output objects [ds], output [i] having the label [labels[i]]. *)
Definition is_response (h : Heap) (p : Val) (ds : list nat) (labels : list string) : Prop :=
  exists lp, p = VRef lp
    /\ h !! lp = Some (OList (VRef <$> ds))
    /\ NoDup ds
    /\ Forall2 (has_label h) ds labels.

(** The output at [d] is a dictionary whose ['label'] is the string [s]
    without its first 9 characters, in upper case. *)
Definition has_stripped (h : Heap) (d : nat) (s : string) : Prop :=
  exists fields,
    h !! d = Some (ODict fields)
    /\ dict_get "label" fields = Some (VStr (upper (drop_chars 9 s))).

Definition is_stripped (h : Heap) (c : Val) (ds : list nat) (labels : list string) : Prop :=
  exists lc, c = VRef lc
    /\ h !! lc = Some (OList (VRef <$> ds))
    /\ Forall2 (has_stripped h) ds labels.

Lemma dict_get_set (key : string) (v : Val) (fields : list (string * Val)) :
  dict_get key (dict_set key v fields) = Some v.
Proof.
  induction fields as [|[k v0] fields IH]; simpl.
  - rewrite String.eqb_refl. reflexivity.
  - destruct (String.eqb k key) eqn:Hk; simpl; rewrite Hk; [reflexivity | exact IH].
Qed.

Lemma dict_get_map (f : Val -> Val) (key : string) (fields : list (string * Val)) :
  dict_get key ((fun kv => (fst kv, f (snd kv))) <$> fields) = f <$> dict_get key fields.
Proof.
  induction fields as [|[k v0] fields IH]; [reflexivity|].
  rewrite fmap_cons. simpl. destruct (String.eqb k key); [reflexivity | exact IH].
Qed.

Lemma dict_get_Forall (P : Val -> Prop) (key : string) (fields : list (string * Val)) v :
  Forall (fun e => P (snd e)) fields -> dict_get key fields = Some v -> P v.
Proof.
  induction fields as [|[k v0] fields IH]; [discriminate|].
  intros Hall Hget. apply Forall_cons in Hall as [H0 Hall]. simpl in Hget.
  destruct (String.eqb k key); [injection Hget as <-; exact H0 | exact (IH Hall Hget)].
Qed.

Lemma has_label_insert (h : Heap) (d d' : nat) (s : string) fields (o' : Obj) :
  h !! d = Some (ODict fields) -> d' <> d ->
  has_label h d' s -> has_label (<[d := o']> h) d' s.
Proof.
  intros Hd Hne (fields' & ll & rest & H1 & H2 & H3).
  exists fields', ll, rest. split; [|split; [exact H2|]].
  - rewrite list_lookup_insert_ne by (intros ->; apply Hne; reflexivity). exact H1.
  - rewrite list_lookup_insert_ne by congruence. exact H3.
Qed.

Lemma has_label_insert_all (h : Heap) (d : nat) fields (o' : Obj)
    (ds : list nat) (labels : list string) :
  h !! d = Some (ODict fields) -> d ∉ ds ->
  Forall2 (has_label h) ds labels -> Forall2 (has_label (<[d := o']> h)) ds labels.
Proof.
  intros Hd Hnotin Hall. induction Hall as [|d' s ds labels Hd' Hall IH]; [constructor|].
  apply not_elem_of_cons in Hnotin as [Hne Hnotin].
  constructor; [|apply IH, Hnotin].
  apply (has_label_insert h d d' s fields o' Hd); [congruence | exact Hd'].
Qed.

(** The loop over distinct outputs rewrites each label and touches nothing
    else. *)
Lemma strip_loop (ds : list nat) :
  forall (labels : list string) (h : Heap),
    NoDup ds -> Forall2 (has_label h) ds labels ->
    exists h', Py.for_each (strip_label upper) h (VRef <$> ds) = Some h'
      /\ (forall l, l ∉ ds -> h' !! l = h !! l)
      /\ Forall2 (has_stripped h') ds labels.
Proof.
  induction ds as [|d ds IH]; intros labels h Hnd Hall.
  - apply Forall2_nil_inv_l in Hall as ->. exists h.
    split; [reflexivity|]. split; [reflexivity | constructor].
  - apply Forall2_cons_inv_l in Hall as (s & labels' & Hd & Hall & ->).
    apply NoDup_cons in Hnd as [Hnotin Hnd].
    destruct Hd as (fields & ll & rest & Hhd & Hget & Hll).
    rewrite fmap_cons. simpl Py.for_each. unfold strip_label at 1.
    rewrite Hhd, Hget. simpl first. rewrite Hll.
    set (o' := ODict (dict_set "label" (VStr (upper (drop_chars 9 s))) fields)).
    destruct (IH labels' (<[d := o']> h) Hnd) as (h' & Hrun & Hframe & Hdone).
    { apply (has_label_insert_all h d fields o' ds labels' Hhd Hnotin Hall). }
    exists h'. split; [exact Hrun|]. split.
    + intros l Hl. apply not_elem_of_cons in Hl as [Hne Hl].
      rewrite (Hframe l Hl). apply list_lookup_insert_ne. congruence.
    + constructor; [|exact Hdone]. exists (dict_set "label" (VStr (upper (drop_chars 9 s))) fields).
      split; [|apply dict_get_set].
      rewrite (Hframe d Hnotin). apply list_lookup_insert_eq.
      apply lookup_lt_Some in Hhd. exact Hhd.
Qed.

Lemma has_label_frame (h h' : Heap) (n d : nat) (s : string) :
  (forall l o, h !! l = Some o -> Forall (fun e => match snd e with
                                                  | VRef c => (c < n)%nat
                                                  | _ => True
                                                  end) (entries o)) ->
  (forall l, (l < n)%nat -> h' !! l = h !! l) -> (d < n)%nat ->
  has_label h d s -> has_label h' d s.
Proof.
  intros Hclosed Hframe Hd (fields & ll & rest & H1 & H2 & H3).
  exists fields, ll, rest. split; [rewrite Hframe by exact Hd; exact H1|].
  split; [exact H2|]. rewrite Hframe; [exact H3|].
  apply (dict_get_Forall (fun v => match v with VRef c => (c < n)%nat | _ => True end)
           "label" fields (VRef ll)); [|exact H2].
  apply (Hclosed d (ODict fields) H1).
Qed.

(** C10. For a predictions response on a heap whose references all lead to
    objects, the cell returns, given enough fuel; every object that existed
    before is unchanged, so the original response reads as before; the copy
    is a list of new output objects; and in the copy every output's
    ['label'] is the first element of the original label list without its
    first 9 characters, in upper case. *)
Theorem strip_labels_on_copy (h0 : Heap) (predictions : Val) (ds : list nat)
    (labels : list string) (fuel : nat) :
  closed_heap h0 ->
  is_response h0 predictions ds labels ->
  (length h0 < fuel)%nat ->
  exists predictions_copy h' ds',
    strip_labels upper fuel predictions h0 = Some (predictions_copy, h')
    /\ (forall l, (l < length h0)%nat -> h' !! l = h0 !! l)
    /\ is_response h' predictions ds labels
    /\ is_stripped h' predictions_copy ds' labels
    /\ Forall (fun d' => (length h0 <= d')%nat) ds'.
Proof.
  intros Hclosed (lp & -> & Hlp & Hnd & Hlabels) Hfuel.
  assert (Hinv0 : inv h0 (h0, ∅)).
  { split; [|split]; simpl.
    - apply take_ge. reflexivity.
    - intros l y. rewrite lookup_empty. discriminate.
    - intros l1 l2 y. rewrite lookup_empty. discriminate. }
  assert (Htodo : (todo h0 ∅ < fuel)%nat).
  { unfold todo. eapply Nat.le_lt_trans; [apply length_filter|].
    rewrite length_seq. exact Hfuel. }
  destruct (deepcopy_spec h0 Hclosed fuel (VRef lp) h0 ∅ Hinv0) as
    (c & [h2 memo] & Hcall & Hinv2 & _ & _ & _ & Hc & Hknown & Hnew); [|exact Htodo|].
  { simpl. apply lookup_lt_Some in Hlp. exact Hlp. }
  simpl in Hc, Hknown, Hnew.
  assert (Hall : forall l y, memo !! l = Some y ->
    (length h0 <= y)%nat /\ complete h0 (h2, memo) l y).
  { intros l y Hl. apply Hnew; [exact Hl | apply lookup_empty]. }
  destruct Hknown as [lc Hlc]. rewrite Hlc in Hc. subst c.
  destruct (Hall lp lc Hlc) as (Hlcfresh & o & Ho & Hh2lc & Hkids).
  rewrite Hlp in Ho. injection Ho as <-. simpl in Hh2lc, Hkids.
  set (ds' := (fun d => default 0%nat (memo !! d)) <$> ds).
  assert (Hds : forall d, d ∈ ds -> memo !! d = Some (default 0%nat (memo !! d))).
  { intros d Hd. rewrite Forall_fmap, Forall_fmap, Forall_forall in Hkids.
    destruct (Hkids d Hd) as [y Hy]. simpl in Hy. rewrite Hy. reflexivity. }
  assert (Hitems : copy_val memo <$> (VRef <$> ds) = VRef <$> ds').
  { unfold ds'. rewrite <- !list_fmap_compose. apply list_fmap_ext.
    intros i d Hd. simpl. rewrite (Hds d) by (eapply list_elem_of_lookup_2, Hd). reflexivity. }
  rewrite Hitems in Hh2lc.
  assert (Hnd' : NoDup ds').
  { unfold ds'. apply NoDup_fmap_2_strong; [|exact Hnd].
    intros d1 d2 Hd1 Hd2 Heq. destruct Hinv2 as (_ & _ & Hinj). simpl in Hinj.
    apply (Hinj d1 d2 (default 0%nat (memo !! d1))); [apply Hds, Hd1|].
    rewrite Heq. apply Hds, Hd2. }
  assert (Hfresh' : Forall (fun d' => (length h0 <= d')%nat) ds').
  { unfold ds'. rewrite Forall_fmap, Forall_forall. intros d Hd. simpl.
    apply (Hall d), Hds, Hd. }
  assert (Hlabels2 : Forall2 (has_label h2) ds' labels).
  { unfold ds'. rewrite Forall2_fmap_l.
    assert (Hgen : forall ds1 labels1, Forall2 (has_label h0) ds1 labels1 ->
      (forall d, d ∈ ds1 -> d ∈ ds) ->
      Forall2 (fun d s => has_label h2 (default 0%nat (memo !! d)) s) ds1 labels1).
    { intros ds1 labels1 H. induction H as [|d s ds1 labels1 Hd Hrest IH]; intros Hsub;
        [constructor|].
      constructor; [|apply IH; intros d' Hd'; apply Hsub, list_elem_of_further, Hd'].
      assert (Hdin : d ∈ ds) by apply Hsub, list_elem_of_here.
      destruct Hd as (fields & ll & rest & H1 & H2 & H3).
      destruct (Hall d _ (Hds d Hdin)) as (_ & o & Ho & Hcopy & Hk).
      rewrite H1 in Ho. injection Ho as <-. simpl in Hcopy, Hk.
      pose proof (dict_get_Forall (known memo) "label" fields (VRef ll) Hk H2) as [ll' Hll'].
      destruct (Hall ll ll' Hll') as (_ & o & Ho & Hcopy' & _).
      rewrite H3 in Ho. injection Ho as <-. simpl in Hcopy'.
      eexists _, ll', _. split; [exact Hcopy|]. split; [|exact Hcopy'].
      rewrite dict_get_map, H2. simpl. rewrite Hll'. reflexivity. }
    apply (Hgen ds labels Hlabels). auto. }
  destruct (strip_loop ds' labels h2 Hnd' Hlabels2) as (h3 & Hrun & Hframe & Hdone).
  assert (Hold : forall l, (l < length h0)%nat -> h3 !! l = h0 !! l).
  { intros l Hl. rewrite Hframe.
    - apply (inv_lookup h0 h2 memo l Hinv2 Hl).
    - intros Hin. rewrite Forall_forall in Hfresh'. specialize (Hfresh' l Hin). lia. }
  exists (VRef lc), h3, ds'.
  split.
  { unfold strip_labels. rewrite Hcall. simpl iterate. rewrite Hh2lc, Hrun. reflexivity. }
  split; [exact Hold|]. split; [|split; [|exact Hfresh']].
  - exists lp. split; [reflexivity|].
    pose proof (lookup_lt_Some _ _ _ Hlp) as Hlplt.
    split; [rewrite Hold by exact Hlplt; exact Hlp|]. split; [exact Hnd|].
    assert (Hin : Forall (fun d => (d < length h0)%nat) ds).
    { specialize (Hclosed lp _ Hlp). simpl in Hclosed.
      rewrite Forall_fmap, Forall_fmap in Hclosed. exact Hclosed. }
    clear -Hlabels Hin Hold Hclosed.
    induction Hlabels as [|d s ds1 labels1 Hd Hrest IH]; [constructor|].
    apply Forall_cons in Hin as [Hdlt Hin]. constructor; [|apply IH, Hin].
    apply (has_label_frame h0 h3 (length h0) d s Hclosed Hold Hdlt Hd).
  - exists lc. split; [reflexivity|]. split; [|exact Hdone].
    rewrite Hframe; [exact Hh2lc|].
    intros Hin. apply list_elem_of_lookup_1 in Hin as [i Hi].
    destruct (Forall2_lookup_l _ _ _ _ _ Hlabels2 Hi) as (s & _ & (fields & _ & _ & Hd & _)).
    congruence.
Qed.

End Response.

(** *** A response with two outputs *)

(** Upper case for the letters a to z, for the examples. *)
Definition upper_char (c : ascii) : ascii :=
  let n := nat_of_ascii c in
  if ((97 <=? n) && (n <=? 122))%nat then ascii_of_nat (n - 32) else c.

Fixpoint upper_ascii (s : string) : string :=
  match s with
  | EmptyString => EmptyString
  | String c rest => String (upper_char c) (upper_ascii rest)
  end.

(** The heap after decoding
    [[{"label": ["__label__en"], "prob": [0.9]}, {"label": ["__label__fr"], "prob": [0.8]}]];
    the response is the list at location 6. *)
Definition response_heap : Heap :=
  [ OList [VStr "__label__en"];
    OList [VNum (9 # 10)];
    ODict [("label", VRef 0); ("prob", VRef 1)];
    OList [VStr "__label__fr"];
    OList [VNum (8 # 10)];
    ODict [("label", VRef 3); ("prob", VRef 4)];
    OList [VRef 2; VRef 5] ].

Example strip_labels_two_outputs :
  strip_labels upper_ascii 8 (VRef 6) response_heap
  = Some (VRef 7,
          (response_heap ++
           [ OList [VRef 8; VRef 11];
             ODict [("label", VStr "EN"); ("prob", VRef 10)];
             OList [VStr "__label__en"];
             OList [VNum (9 # 10)];
             ODict [("label", VStr "FR"); ("prob", VRef 13)];
             OList [VStr "__label__fr"];
             OList [VNum (8 # 10)] ])%list).
Proof. vm_compute. reflexivity. Qed.

(** A list that holds the same output object twice is not a decoded
    response ([is_response] asks for distinct outputs): the copy shares the
    output too, and the second turn of the loop reads the label the first
    turn wrote. *)
Example strip_labels_shared_output :
  strip_labels upper_ascii 8 (VRef 3)
    [ OList [VStr "__label__en"]; OList [VNum (9 # 10)];
      ODict [("label", VRef 0); ("prob", VRef 1)];
      OList [VRef 2; VRef 2] ]
  = Some (VRef 4,
          [ OList [VStr "__label__en"]; OList [VNum (9 # 10)];
            ODict [("label", VRef 0); ("prob", VRef 1)];
            OList [VRef 2; VRef 2];
            OList [VRef 5; VRef 5];
            ODict [("label", VStr ""); ("prob", VRef 7)];
            OList [VStr "__label__en"];
            OList [VNum (9 # 10)] ]).
Proof. vm_compute. reflexivity. Qed.

Lemma response_heap_closed : closed_heap response_heap.
Proof.
  intros l o Hl.
  do 7 (destruct l as [|l]; [injection Hl as <-; repeat constructor; simpl; lia|]).
  discriminate.
Qed.

Lemma response_heap_is_response :
  is_response response_heap (VRef 6) [2; 5]%nat ["__label__en"; "__label__fr"].
Proof.
  exists 6%nat. split; [reflexivity|]. split; [reflexivity|]. split.
  - apply NoDup_cons. split; [|apply NoDup_singleton].
    intros Hin. apply list_elem_of_singleton in Hin. discriminate.
  - constructor; [|constructor; [|constructor]].
    + exists [("label", VRef 0); ("prob", VRef 1)], 0%nat, []. repeat split; reflexivity.
    + exists [("label", VRef 3); ("prob", VRef 4)], 3%nat, []. repeat split; reflexivity.
Qed.

Lemma strip_labels_on_copy_witness :
  closed_heap response_heap
  /\ is_response response_heap (VRef 6) [2; 5]%nat ["__label__en"; "__label__fr"]
  /\ exists predictions_copy h' ds',
       strip_labels upper_ascii 8 (VRef 6) response_heap = Some (predictions_copy, h')
       /\ is_response h' (VRef 6) [2; 5]%nat ["__label__en"; "__label__fr"]
       /\ is_stripped upper_ascii h' predictions_copy ds' ["__label__en"; "__label__fr"].
Proof.
  split; [exact response_heap_closed|]. split; [exact response_heap_is_response|].
  destruct (strip_labels_on_copy upper_ascii response_heap (VRef 6) [2; 5]%nat
              ["__label__en"; "__label__fr"] 8
              response_heap_closed response_heap_is_response)
    as (c & h' & ds' & Hrun & _ & Horig & Hcopy & _).
  - simpl. lia.
  - exists c, h', ds'. split; [exact Hrun|]. split; [exact Horig | exact Hcopy].
Defined.

End Labels.

(** ** Contiguous class labels for the COCO annotations *)

Module CocoMapper.

(** The literal [original_list] of [get_coco_mapper]: the category ids of
    the COCO data set. *)
Definition original_list : list Z :=
  [1; 2; 3; 4; 5; 6; 7; 8; 9; 10; 11; 13; 14; 15; 16; 17; 18; 19; 20;
   21; 22; 23; 24; 25; 27; 28; 31; 32; 33; 34; 35; 36; 37; 38; 39; 40;
   41; 42; 43; 44; 46; 47; 48; 49; 50; 51; 52; 53; 54; 55; 56; 57; 58; 59; 60;
   61; 62; 63; 64; 65; 67; 70; 72; 73; 74; 75; 76; 77; 78; 79; 80;
   81; 82; 84; 85; 86; 87; 88; 89; 90].

(** The body of [for orig in original_list]: the state is the dictionary
    [COCO] and [iter_counter]. *)
Definition number (st : gmap Z Z * Z) (orig : Z) : gmap Z Z * Z :=
  let '(COCO, iter_counter) := st in
  (<[orig := iter_counter]> COCO, iter_counter + 1).

(** [get_coco_mapper()]. *)
Definition get_coco_mapper : gmap Z Z :=
  let iter_counter := 0 in
  let COCO := ∅ in
  fst (foldl number (COCO, iter_counter) original_list).

(** [get_mapper_fn(map)]: the closure [mapper]; [None] is the [KeyError] of
    [map[in_category]]. *)
Definition get_mapper_fn (map : gmap Z Z) : Z -> option Z :=
  fun in_category => map !! in_category.

Definition fix_index_mapping : Z -> option Z := get_mapper_fn get_coco_mapper.

(** The labels of a list grow from each position to the next. *)
Fixpoint increasing (l : list Z) : bool :=
  match l with
  | x :: rest =>
      match rest with
      | y :: _ => (x <? y) && increasing rest
      | [] => true
      end
  | [] => true
  end.

(** The loop on any list without repetition: the label at position [i] gets
    the number [iter_counter + i], and the other keys are left as they
    were. *)
Lemma number_lookup (l : list Z) (COCO : gmap Z Z) (iter_counter x : Z) :
  NoDup l ->
  fst (foldl number (COCO, iter_counter) l) !! x =
  match list_find (fun y => y = x) l with
  | Some (i, _) => Some (iter_counter + Z.of_nat i)
  | None => COCO !! x
  end.
Proof.
  revert COCO iter_counter. induction l as [|y l IH]; intros COCO c Hnd; [reflexivity|].
  apply NoDup_cons in Hnd as [Hy Hnd]. simpl foldl. rewrite IH by exact Hnd.
  cbn [list_find]. destruct (decide (y = x)) as [->|Hne].
  - destruct (list_find (fun y => y = x) l) as [[i z]|] eqn:Hfind.
    + apply list_find_Some in Hfind as (Hi & -> & _).
      exfalso. apply Hy. eapply list_elem_of_lookup_2, Hi.
    + rewrite lookup_insert_eq. simpl. f_equal. lia.
  - destruct (list_find (fun y => y = x) l) as [[i z]|]; simpl.
    + f_equal. lia.
    + apply lookup_insert_ne, Hne.
Qed.

Lemma increasing_head (x : Z) (rest : list Z) (j : nat) (y : Z) :
  increasing (x :: rest) = true -> rest !! j = Some y -> x < y.
Proof.
  revert x j. induction rest as [|z rest IH]; intros x j Hinc Hj; [discriminate|].
  cbn [increasing] in Hinc. apply andb_prop in Hinc as [Hxz Hinc].
  apply Z.ltb_lt in Hxz. destruct j as [|j].
  - injection Hj as <-. exact Hxz.
  - pose proof (IH z j Hinc Hj). lia.
Qed.

Lemma increasing_lookup (l : list Z) (i j : nat) (x y : Z) :
  increasing l = true -> (i < j)%nat -> l !! i = Some x -> l !! j = Some y -> x < y.
Proof.
  revert i j. induction l as [|z l IH]; intros i j Hinc Hij Hi Hj; [discriminate|].
  destruct j as [|j]; [lia|]. destruct i as [|i].
  - injection Hi as <-. exact (increasing_head _ _ _ _ Hinc Hj).
  - apply (IH i j); [|lia|exact Hi|exact Hj].
    cbn [increasing] in Hinc. destruct l; [reflexivity|].
    apply andb_prop in Hinc as [_ Hinc]. exact Hinc.
Qed.

Lemma original_list_NoDup : NoDup original_list.
Proof. apply (bool_decide_unpack _). vm_compute. exact I. Qed.

Lemma fix_index_mapping_find (in_category : Z) :
  fix_index_mapping in_category =
  (fun p => Z.of_nat (fst p)) <$> list_find (fun y => y = in_category) original_list.
Proof.
  unfold fix_index_mapping, get_mapper_fn, get_coco_mapper. cbv zeta.
  rewrite number_lookup by exact original_list_NoDup.
  destruct (list_find _ original_list) as [[i z]|]; [reflexivity | apply lookup_empty].
Qed.

(** [fix_index_mapping] sends the 80 listed category ids, in the order of
    the list, onto the labels 0 to 79 without a gap and without a
    collision, and raises [KeyError] for every other id. *)
Theorem fix_index_mapping_contiguous :
  (forall in_category c,
     fix_index_mapping in_category = Some c <->
     0 <= c < 80 /\ original_list !! Z.to_nat c = Some in_category)
  /\ (forall in_category,
        fix_index_mapping in_category = None <-> in_category ∉ original_list)
  /\ (forall a b ca cb,
        fix_index_mapping a = Some ca -> fix_index_mapping b = Some cb ->
        (a < b <-> ca < cb)).
Proof.
  assert (Hlen : length original_list = 80%nat) by reflexivity.
  assert (Hsome : forall in_category c,
     fix_index_mapping in_category = Some c <->
     0 <= c < 80 /\ original_list !! Z.to_nat c = Some in_category).
  { intros x c. rewrite fix_index_mapping_find. split.
    - intros Hf. apply fmap_Some in Hf as ([i y] & Hfind & ->).
      apply list_find_Some in Hfind as (Hi & -> & _). simpl.
      pose proof (lookup_lt_Some _ _ _ Hi). rewrite Nat2Z.id. split; [lia | exact Hi].
    - intros [Hc Hi].
      destruct (list_find (fun y => y = x) original_list) as [[j y]|] eqn:Hfind.
      + apply list_find_Some in Hfind as (Hj & -> & _). simpl. f_equal.
        pose proof (NoDup_lookup _ _ _ _ original_list_NoDup Hi Hj). lia.
      + exfalso. apply list_find_None in Hfind.
        rewrite Forall_forall in Hfind. apply (Hfind x); [|reflexivity].
        eapply list_elem_of_lookup_2, Hi. }
  split; [exact Hsome|]. split.
  - intros x. rewrite fix_index_mapping_find, fmap_None, list_find_None, Forall_forall.
    split.
    + intros Hall Hin. exact (Hall x Hin eq_refl).
    + intros Hnin y Hy ->. exact (Hnin Hy).
  - intros a b ca cb Ha Hb.
    apply Hsome in Ha as [Hca Ha]. apply Hsome in Hb as [Hcb Hb].
    assert (Hsorted : forall i j x y, (i < j)%nat ->
      original_list !! i = Some x -> original_list !! j = Some y -> x < y).
    { intros i j x y. apply increasing_lookup. reflexivity. }
    split.
    + intros Hab. destruct (Z.lt_trichotomy ca cb) as [Hlt|[Heq|Hgt]]; [exact Hlt| |].
      * subst cb. rewrite Ha in Hb. injection Hb as ->. lia.
      * pose proof (Hsorted (Z.to_nat cb) (Z.to_nat ca) b a ltac:(lia) Hb Ha). lia.
    + intros Hlt. apply (Hsorted (Z.to_nat ca) (Z.to_nat cb) a b ltac:(lia) Ha Hb).
Qed.

(** Category 12 is not a COCO category: the look-up raises; the ids after
    it are shifted down. *)
Example fix_index_mapping_gap :
  fix_index_mapping 11 = Some 10 /\ fix_index_mapping 12 = None
  /\ fix_index_mapping 13 = Some 11 /\ fix_index_mapping 90 = Some 79.
Proof. vm_compute. repeat split; reflexivity. Qed.

End CocoMapper.

(** ** Invoking the endpoint for one batch ([do_predict]) *)

Module Predict.
Import Py.

(** [s.split(sep)] for a separator of one character: the pieces between the
    occurrences of [sep]; there is always at least one piece. *)
Fixpoint split (sep : ascii) (s : string) : list string :=
  match s with
  | EmptyString => [""]
  | String c rest =>
      if Ascii.eqb c sep then "" :: split sep rest
      else match split sep rest with
           | piece :: pieces => String c piece :: pieces
           | [] => [String c ""]
           end
  end.

(** [b.decode("ascii")]; [None] is the [UnicodeDecodeError] of a byte above
    127. *)
Fixpoint decode_ascii (b : list byte) : option string :=
  match b with
  | [] => Some ""
  | x :: rest =>
      if (Byte.to_N x <? 128)%N then
        match decode_ascii rest with
        | Some s => Some (String (ascii_of_byte x) s)
        | None => None
        end
      else None
  end.

(** A [for] comprehension whose element expression may raise. *)
Fixpoint comprehension {X Y} (f : X -> option Y) (xs : list X) : option (list Y) :=
  match xs with
  | [] => Some []
  | x :: rest =>
      match f x with
      | Some y =>
          match comprehension f rest with
          | Some ys => Some (y :: ys)
          | None => None
          end
      | None => None
      end
  end.

(** How often the character [c] occurs in [s]. *)
Fixpoint occurrences (c : ascii) (s : string) : nat :=
  match s with
  | EmptyString => 0
  | String x rest => ((if Ascii.eqb x c then 1 else 0) + occurrences c rest)%nat
  end.

Section Runtime.
(** Python floats and the state outside the function. *)
Context {F W : Type}.
(** [float(s)]; [None] is its [ValueError]. *)
Variable float : string -> option F.
(** [math.ceil(x)]; [None] is the [ValueError] or [OverflowError] it raises
    for a float that is not finite. *)
Variable ceil : F -> option Z.
(** [b.decode("utf-8")]; [None] is its [UnicodeDecodeError]. *)
Variable decode_utf8 : list byte -> option string.
(** [runtime_client.invoke_endpoint(EndpointName, ContentType, Body)]
    followed by [response["Body"].read()]: the bytes of the response; [None]
    when the call raises. *)
Variable invoke_endpoint : string -> string -> string -> W -> option (list byte * W).

(** [do_predict] of xgboost_mnist. *)
Definition do_predict_ascii (data : list string) (endpoint_name content_type : string)
    (w : W) : option (list F * W) :=
  let payload := join nl data in
  match invoke_endpoint endpoint_name content_type payload w with
  | None => None
  | Some (body, w) =>
      match decode_ascii body with
      | None => None
      | Some result =>
          match comprehension float (split "," result) with
          | None => None
          | Some preds => Some (preds, w)
          end
      end
  end.

(** [do_predict] of the image-classification notebook. *)
Definition do_predict_ceil (data : list string) (endpoint_name content_type : string)
    (w : W) : option (list Z * W) :=
  let payload := join nl data in
  match invoke_endpoint endpoint_name content_type payload w with
  | None => None
  | Some (body, w) =>
      match decode_utf8 body with
      | None => None
      | Some result =>
          let result := split "," result in
          match comprehension float result with
          | None => None
          | Some preds =>
              match comprehension ceil preds with
              | None => None
              | Some preds => Some (preds, w)
              end
          end
      end
  end.

End Runtime.

(** The text holds code points below 128 only. *)
Fixpoint is_ascii (s : string) : bool :=
  match s with
  | EmptyString => true
  | String c rest => (N_of_ascii c <? 128)%N && is_ascii rest
  end.

(** [s.encode("ascii")] for such a text. *)
Fixpoint encode_ascii (s : string) : list byte :=
  match s with
  | EmptyString => []
  | String c rest => byte_of_ascii c :: encode_ascii rest
  end.

(** *** Facts about the built-ins *)

(** Appending to the same text is injective. *)
Lemma append_inj_l (p a b : string) : p ++ a = p ++ b -> a = b.
Proof.
  induction p as [|c p IH]; [intros H; exact H|].
  rewrite !append_cons. intros [= H]. apply IH, H.
Qed.

Lemma split_length (sep : ascii) (s : string) :
  length (split sep s) = S (occurrences sep s).
Proof.
  induction s as [|c s IH]; [reflexivity|]. simpl.
  destruct (Ascii.eqb c sep); simpl; [rewrite IH; reflexivity|].
  destruct (split sep s) as [|piece pieces]; [discriminate|]. simpl in *. lia.
Qed.

Lemma comprehension_length {X Y} (f : X -> option Y) (xs : list X) (ys : list Y) :
  comprehension f xs = Some ys -> length ys = length xs.
Proof.
  revert ys. induction xs as [|x xs IH]; intros ys H; simpl in H.
  - injection H as <-. reflexivity.
  - destruct (f x); [|discriminate]. destruct (comprehension f xs); [|discriminate].
    injection H as <-. simpl. f_equal. apply IH. reflexivity.
Qed.

Lemma comprehension_fmap {X Y} (f : X -> option Y) (g : Y -> X) (ys : list Y) :
  (forall y, y ∈ ys -> f (g y) = Some y) -> comprehension f (g <$> ys) = Some ys.
Proof.
  induction ys as [|y ys IH]; intros Hfg; [reflexivity|].
  rewrite fmap_cons. cbn [comprehension].
  rewrite Hfg by apply list_elem_of_here.
  rewrite IH; [reflexivity|]. intros z Hz. apply Hfg, list_elem_of_further, Hz.
Qed.

(** A piece without the separator, followed by the separator or the end,
    is the first piece of the split. *)
Lemma split_piece (sep : ascii) (x : string) :
  occurrences sep x = 0%nat -> split sep x = [x].
Proof.
  induction x as [|c x IH]; intros Hx; [reflexivity|]. simpl in *.
  destruct (Ascii.eqb c sep); [discriminate|]. rewrite IH by exact Hx. reflexivity.
Qed.

Lemma split_piece_sep (sep : ascii) (x rest : string) :
  occurrences sep x = 0%nat ->
  split sep (x ++ String sep rest) = x :: split sep rest.
Proof.
  induction x as [|c x IH]; intros Hx.
  - simpl. rewrite Ascii.eqb_refl. reflexivity.
  - rewrite append_cons. simpl in *.
    destruct (Ascii.eqb c sep); [discriminate|]. rewrite IH by exact Hx. reflexivity.
Qed.

(** Splitting undoes joining, for a list that is not empty and whose
    pieces do not hold the separator. *)
Lemma split_join (sep : ascii) (xs : list string) :
  xs <> [] ->
  Forall (fun x => occurrences sep x = 0%nat) xs ->
  split sep (join (String sep "") xs) = xs.
Proof.
  induction xs as [|x xs IH]; intros Hne Hall; [congruence|].
  apply Forall_cons in Hall as [Hx Hall]. destruct xs as [|y ys].
  - simpl. apply split_piece, Hx.
  - change (join (String sep "") (x :: y :: ys))
      with (x ++ String sep "" ++ join (String sep "") (y :: ys)).
    rewrite append_cons. change ("" ++ ?s) with s.
    rewrite split_piece_sep by exact Hx. rewrite IH by (congruence || exact Hall).
    reflexivity.
Qed.

Lemma byte_to_N_of_ascii (c : ascii) : Byte.to_N (byte_of_ascii c) = N_of_ascii c.
Proof.
  destruct c as [[] [] [] [] [] [] [] []]; reflexivity.
Qed.

Lemma decode_encode_ascii (s : string) :
  is_ascii s = true -> decode_ascii (encode_ascii s) = Some s.
Proof.
  induction s as [|c s IH]; intros Hall; [reflexivity|].
  cbn [is_ascii] in Hall. apply andb_prop in Hall as [Hc Hall].
  cbn [encode_ascii decode_ascii].
  rewrite byte_to_N_of_ascii, Hc, IH by exact Hall.
  rewrite ascii_of_byte_of_ascii. reflexivity.
Qed.


Lemma is_ascii_app (a b : string) : is_ascii (a ++ b) = is_ascii a && is_ascii b.
Proof.
  induction a as [|c a IH]; [reflexivity|].
  rewrite append_cons. cbn [is_ascii]. rewrite IH, andb_assoc. reflexivity.
Qed.

Lemma is_ascii_join (sep : string) (xs : list string) :
  is_ascii sep = true -> Forall (fun x => is_ascii x = true) xs ->
  is_ascii (join sep xs) = true.
Proof.
  intros Hsep. induction xs as [|x xs IH]; intros Hall; [reflexivity|].
  apply Forall_cons in Hall as [Hx Hall]. destruct xs as [|y ys]; [exact Hx|].
  change (join sep (x :: y :: ys)) with (x ++ sep ++ join sep (y :: ys)).
  rewrite !is_ascii_app, Hx, Hsep, IH by exact Hall. reflexivity.
Qed.

Section Properties.
Context {F W : Type}.
Variable float : string -> option F.
Variable ceil : F -> option Z.
Variable decode_utf8 : list byte -> option string.
Variable invoke_endpoint : string -> string -> string -> W -> option (list byte * W).

Lemma do_predict_ascii_fields (data : list string) (endpoint_name content_type : string)
    (w : W) (preds : list F) (w' : W) :
  do_predict_ascii float invoke_endpoint data endpoint_name content_type w = Some (preds, w') ->
  exists body result,
    invoke_endpoint endpoint_name content_type (join nl data) w = Some (body, w')
    /\ decode_ascii body = Some result
    /\ length preds = S (occurrences "," result).
Proof.
  intros Hrun. unfold do_predict_ascii in Hrun. cbv zeta in Hrun.
  destruct (invoke_endpoint _ _ _ _) as [[body w1]|] eqn:Hinv; [|discriminate].
  destruct (decode_ascii body) as [result|] eqn:Hdec; [|discriminate].
  destruct (comprehension float (split "," result)) as [ps|] eqn:Hps; [|discriminate].
  injection Hrun as <- <-. exists body, result.
  apply comprehension_length in Hps. rewrite split_length in Hps.
  split; [reflexivity|]. split; [exact Hdec | exact Hps].
Qed.

(** Both [do_predict] functions give one prediction for each
    comma-separated field of the decoded response, so never an empty list:
    a response without a comma, also an empty one, has one field. *)
Theorem do_predict_one_per_field (data : list string) (endpoint_name content_type : string)
    (w : W) :
  (forall preds w',
     do_predict_ascii float invoke_endpoint data endpoint_name content_type w = Some (preds, w') ->
     exists body result,
       invoke_endpoint endpoint_name content_type (join nl data) w = Some (body, w')
       /\ decode_ascii body = Some result
       /\ length preds = S (occurrences "," result)
       /\ preds <> [])
  /\ (forall preds w',
        do_predict_ceil float ceil decode_utf8 invoke_endpoint data endpoint_name content_type w
          = Some (preds, w') ->
        exists body result,
          invoke_endpoint endpoint_name content_type (join nl data) w = Some (body, w')
          /\ decode_utf8 body = Some result
          /\ length preds = S (occurrences "," result)
          /\ preds <> []).
Proof.
  split; intros preds w' Hrun.
  - destruct (do_predict_ascii_fields _ _ _ _ _ _ Hrun) as (body & result & Hinv & Hdec & Hlen).
    exists body, result. split; [exact Hinv|]. split; [exact Hdec|]. split; [exact Hlen|].
    intros ->. discriminate.
  - unfold do_predict_ceil in Hrun. cbv zeta in Hrun.
    destruct (invoke_endpoint _ _ _ _) as [[body w1]|] eqn:Hinv; [|discriminate].
    destruct (decode_utf8 body) as [result|] eqn:Hdec; [|discriminate].
    destruct (comprehension float (split "," result)) as [ps|] eqn:Hps; [|discriminate].
    destruct (comprehension ceil ps) as [zs|] eqn:Hzs; [|discriminate].
    injection Hrun as <- <-. exists body, result.
    apply comprehension_length in Hps. apply comprehension_length in Hzs.
    rewrite split_length in Hps.
    split; [reflexivity|]. split; [exact Hdec|]. split; [congruence|].
    intros ->. simpl in Hzs. lia.
Qed.

(** A response that is the ASCII text of numbers joined by commas is read
    back as these numbers: for a text form [render] that holds no comma,
    is ASCII, and that [float] parses back. *)
Theorem do_predict_reads_numbers (render : F -> string) (xs : list F)
    (data : list string) (endpoint_name content_type : string) (w w' : W) :
  xs <> [] ->
  Forall (fun x => occurrences "," (render x) = 0%nat
                   /\ is_ascii (render x) = true
                   /\ float (render x) = Some x) xs ->
  invoke_endpoint endpoint_name content_type (join nl data) w
    = Some (encode_ascii (join "," (render <$> xs)), w') ->
  do_predict_ascii float invoke_endpoint data endpoint_name content_type w = Some (xs, w').
Proof.
  intros Hne Hall Hinv. unfold do_predict_ascii. cbv zeta. rewrite Hinv.
  rewrite decode_encode_ascii.
  - rewrite (split_join ","%char).
    + rewrite comprehension_fmap; [reflexivity|].
      intros y Hy. rewrite Forall_forall in Hall. apply (Hall y Hy).
    + destruct xs; [congruence | discriminate].
    + apply Forall_fmap. eapply Forall_impl; [exact Hall|]. intros x Hx. apply Hx.
  - apply is_ascii_join; [reflexivity|].
    apply Forall_fmap. eapply Forall_impl; [exact Hall|]. intros x Hx. apply Hx.
Qed.

End Properties.

(** *** Whole numbers as predictions *)

(** A stand-in for [float] on the texts of whole numbers. *)
Definition float_int (s : string) : option Z :=
  match NilZero.int_of_string s with
  | Some d => Some (Z.of_int d)
  | None => None
  end.

(** An endpoint that answers every payload with ["7,2,1"]. *)
Definition fixed_endpoint (_ _ _ : string) (calls : nat) : option (list byte * nat) :=
  Some (encode_ascii "7,2,1", S calls).

Example do_predict_three :
  do_predict_ascii float_int fixed_endpoint ["a"; "b"; "c"] "ep" "text/csv" 0%nat
  = Some ([7; 2; 1], 1%nat).
Proof. vm_compute. reflexivity. Qed.

(** An empty response has one field, the empty text, which is no number. *)
Example do_predict_empty_body :
  do_predict_ascii float_int (fun _ _ _ (w : nat) => Some ([], w)) ["a"] "ep" "text/csv" 0%nat
  = None.
Proof. vm_compute. reflexivity. Qed.

Lemma do_predict_reads_numbers_witness :
  [7; 2; 1] <> []
  /\ do_predict_ascii float_int fixed_endpoint ["a"; "b"; "c"] "ep" "text/csv" 0%nat
     = Some ([7; 2; 1], 1%nat).
Proof.
  split; [discriminate|].
  apply (do_predict_reads_numbers float_int fixed_endpoint str_int [7; 2; 1]).
  - discriminate.
  - repeat (apply Forall_cons; split; [vm_compute; repeat split; reflexivity|]). constructor.
  - reflexivity.
Defined.

End Predict.

(** ** Batches and the evaluation cell (xgboost_mnist) *)

Module Evaluation.
Import Py Predict BatchPredict.

(** What the evaluation cell can raise; [CallError] stands for the
    exceptions of [float], of decoding and of the call of the endpoint. *)
Inductive Exn := ZeroDivisionError | IndexError | CallError.

(** The character of ["\n"]. *)
Definition lf : ascii := ascii_of_nat 10.

(** [c.isspace()] for a code point below 256. *)
Definition isspace (c : ascii) : bool :=
  let n := N_of_ascii c in
  ((9 <=? n) && (n <=? 13) || (28 <=? n) && (n <=? 32) || (n =? 133) || (n =? 160))%N.

(** [s.lstrip()]. *)
Fixpoint lstrip (s : string) : string :=
  match s with
  | EmptyString => ""
  | String c rest => if isspace c then lstrip rest else s
  end.

(** [s.rstrip()]. *)
Fixpoint rstrip (s : string) : string :=
  match s with
  | EmptyString => ""
  | String c rest =>
      match rstrip rest with
      | EmptyString => if isspace c then "" else String c ""
      | kept => String c kept
      end
  end.

(** [s.strip()]. *)
Definition strip (s : string) : string := rstrip (lstrip s).

Section Cell.
Context {F W : Type}.
(** [float(s)]. *)
Variable float : string -> option F.
(** [x != y] on floats. *)
Variable ne : F -> F -> bool.
(** The endpoint behind [runtime_client.invoke_endpoint]. *)
Variable invoke_endpoint : string -> string -> string -> W -> option (list byte * W).
(** [sys.stdout.write(s)]. *)
Variable stdout_write : string -> W -> W.

(** [sum(1 for i in range(len(preds)) if preds[i] != labels[i])]; [None] is
    the [IndexError] of [labels[i]]. *)
Definition mismatches (preds labels : list F) : option Z :=
  for_each
    (fun total i =>
       match index preds i, index labels i with
       | Some p, Some l => Some (if ne p l then total + 1 else total)
       | _, _ => None
       end)
    0 (range (Z.of_nat (length preds))).

(** The cell that reads the local test file (its text is [text]), sends its
    lines to the endpoint and computes the error rate that it prints: the
    float quotient [sum(...) / float(len(preds))]. *)
Definition evaluate (text : string) (endpoint_name : string) (w : W)
    : Exn + (PrimFloat.float * W) :=
  let payload := strip text in
  match comprehension (fun line =>
          match index (split " " line) 0 with
          | Some label => float label
          | None => None
          end) (split lf payload) with
  | None => inl CallError
  | Some labels =>
      let test_data := split lf payload in
      match batch_predict_min (do_predict_ascii float invoke_endpoint) stdout_write
              test_data 100 endpoint_name "text/x-libsvm" w with
      | None => inl CallError
      | Some (preds, w) =>
          match mismatches preds labels with
          | None => inl IndexError
          | Some wrong =>
              if Z.of_nat (length preds) =? 0 then inl ZeroDivisionError
              else inr (PrimFloat.div (float_of_int wrong)
                                      (float_of_int (Z.of_nat (length preds))), w)
          end
      end
  end.

End Cell.

Section Batches.
Context {A R W : Type}.
Variable do_predict : list A -> string -> string -> W -> option (list R * W).
Variable stdout_write : string -> W -> W.

(** The turns of the loop of [batch_predict] at the offsets [k * bs] for
    [k] from [k0] on, as long as these lie inside [data]. *)
Lemma batch_turns (related : A -> R -> Prop) (data : list A) (bs : nat)
    (endpoint_name content_type : string) (n : nat) :
  (0 < bs)%nat ->
  (forall chunk w, chunk <> [] ->
     exists preds w', do_predict chunk endpoint_name content_type w = Some (preds, w')
       /\ Forall2 related chunk preds) ->
  forall (k0 : nat) (arrs : list R) (w : W),
  (n = 0 \/ (k0 + n - 1) * bs < length data)%nat ->
  exists preds w',
    for_each
      (fun '(arrs, w) offset =>
         match do_predict (slice data offset
                             (Z.min (offset + Z.of_nat bs) (Z.of_nat (length data))))
                          endpoint_name content_type w with
         | None => None
         | Some (preds, w) => Some ((arrs ++ preds)%list, stdout_write "." w)
         end)
      (arrs, w) ((fun k => 0 + Z.of_nat k * Z.of_nat bs) <$> seq k0 n)
    = Some ((arrs ++ preds)%list, w')
    /\ Forall2 related (take (n * bs) (drop (k0 * bs) data)) preds
    /\ (length preds = 0%nat -> n = 0%nat).
Proof.
  intros Hbs Hcall. induction n as [|n IH]; intros k0 arrs w Hin.
  - exists [], w. simpl. rewrite app_nil_r. repeat split. constructor.
  - assert (Hk0 : (k0 * bs < length data)%nat) by nia.
    cbn [seq fmap list_fmap for_each].
    pose proof (chunk_min_take_drop data bs k0 Hk0) as Hchunk.
    unfold chunk_min in Hchunk. cbv zeta in Hchunk. rewrite Hchunk.
    destruct (Hcall (take bs (drop (k0 * bs) data)) w) as (preds & w1 & -> & Hrel).
    { intros Hnil. apply (f_equal length) in Hnil.
      rewrite length_take, length_drop in Hnil. simpl in Hnil. lia. }
    destruct (IH (S k0) (arrs ++ preds)%list (stdout_write "." w1)) as (rest & w' & Hrun & Hrest & _).
    { destruct n as [|n]; [left; reflexivity|right]. nia. }
    exists (preds ++ rest)%list, w'. split; [|split].
    + rewrite app_assoc. exact Hrun.
    + replace (take (S n * bs) (drop (k0 * bs) data))
        with (take bs (drop (k0 * bs) data) ++ take (n * bs) (drop (S k0 * bs) data))%list.
      * apply Forall2_app; assumption.
      * replace (S k0 * bs)%nat with (k0 * bs + bs)%nat by lia.
        rewrite <- drop_drop, take_take_drop. f_equal; lia.
    + intros Hlen. exfalso. rewrite length_app in Hlen.
      apply Forall2_length in Hrel. rewrite length_take, length_drop in Hrel. lia.
Qed.

(** When every call of [do_predict] gives one prediction for each row of
    its chunk, related to the row by [related], [batch_predict] gives one
    prediction for each row of [data], in the order of the rows. *)
Theorem batch_predict_one_per_row (related : A -> R -> Prop) (data : list A)
    (batch_size : Z) (endpoint_name content_type : string) (w : W) :
  0 < batch_size ->
  (forall chunk w, chunk <> [] ->
     exists preds w', do_predict chunk endpoint_name content_type w = Some (preds, w')
       /\ Forall2 related chunk preds) ->
  exists arrs w',
    batch_predict_min do_predict stdout_write data batch_size endpoint_name content_type w
      = Some (arrs, w')
    /\ Forall2 related data arrs.
Proof.
  intros Hpos Hcall. unfold batch_predict_min, range3. cbv zeta.
  destruct (Z.eqb_spec batch_size 0) as [->|_]; [lia|].
  destruct (Z.ltb_spec 0 batch_size) as [_|]; [|lia].
  set (items := Z.of_nat (length data)).
  set (q := (items - 0 + batch_size - 1) / batch_size).
  set (bs := Z.to_nat batch_size).
  assert (Hbs : batch_size = Z.of_nat bs) by (unfold bs; lia).
  pose proof (Z.div_mod (items - 0 + batch_size - 1) batch_size ltac:(lia)) as Hdm.
  pose proof (Z.mod_pos_bound (items - 0 + batch_size - 1) batch_size Hpos) as Hmod.
  fold q in Hdm.
  assert (Hq : 0 <= q) by (apply Z.div_pos; unfold items; lia).
  rewrite Hbs.
  destruct (batch_turns related data bs endpoint_name content_type (Z.to_nat q)
              ltac:(lia) Hcall 0%nat [] w) as (preds & w' & Hrun & Hrel & _).
  { destruct (Z.to_nat q) eqn:Hn; [left; reflexivity|right]. unfold items in *. nia. }
  exists preds, w'. split; [exact Hrun|].
  rewrite Nat.mul_0_l, drop_0, take_ge in Hrel by (unfold items in *; nia). exact Hrel.
Qed.

(** A [batch_size] of zero raises ([range] refuses a zero step) whatever
    [data] is; with a negative [batch_size], or with no rows, no call is made
    and the result is the empty list. *)
Theorem batch_predict_nothing_to_send (endpoint_name content_type : string) (w : W) :
  (forall data,
     batch_predict_min do_predict stdout_write data 0 endpoint_name content_type w = None)
  /\ (forall data batch_size, batch_size < 0 ->
        batch_predict_min do_predict stdout_write data batch_size endpoint_name content_type w
          = Some ([], w))
  /\ (forall batch_size, batch_size <> 0 ->
        batch_predict_min do_predict stdout_write [] batch_size endpoint_name content_type w
          = Some ([], w)).
Proof.
  split; [reflexivity|]. split.
  - intros data batch_size Hneg. unfold batch_predict_min, range3. cbv zeta.
    destruct (Z.eqb_spec batch_size 0) as [->|_]; [lia|].
    destruct (Z.ltb_spec 0 batch_size) as [|_]; [lia|].
    match goal with |- context [seq 0 (Z.to_nat ?e)] =>
      assert (Hn : e <= 0) by (apply Z.lt_succ_r, Z.div_lt_upper_bound; lia);
      replace (Z.to_nat e) with 0%nat by lia
    end.
    reflexivity.
  - intros batch_size Hne. unfold batch_predict_min, range3. cbv zeta.
    destruct (Z.eqb_spec batch_size 0) as [->|_]; [lia|]. simpl length.
    destruct (Z.ltb_spec 0 batch_size) as [Hpos|Hneg].
    + match goal with |- context [seq 0 (Z.to_nat ?e)] =>
        replace (Z.to_nat e) with 0%nat by (rewrite Z.div_small by lia; reflexivity)
      end.
      reflexivity.
    + match goal with |- context [seq 0 (Z.to_nat ?e)] =>
        replace (Z.to_nat e) with 0%nat by (rewrite Z.div_small by lia; reflexivity)
      end.
      reflexivity.
Qed.

(** The loop only extends [arrs]. *)
Lemma batch_loop_extends (data : list A) (batch_size : Z)
    (endpoint_name content_type : string) (offsets : list Z) :
  forall (arrs : list R) (w : W) (arrs' : list R) (w' : W),
  for_each
    (fun '(arrs, w) offset =>
       match do_predict (slice data offset
                           (Z.min (offset + batch_size) (Z.of_nat (length data))))
                        endpoint_name content_type w with
       | None => None
       | Some (preds, w) => Some ((arrs ++ preds)%list, stdout_write "." w)
       end)
    (arrs, w) offsets = Some (arrs', w') ->
  exists more, arrs' = (arrs ++ more)%list.
Proof.
  induction offsets as [|offset offsets IH]; intros arrs w arrs' w' Hrun.
  - injection Hrun as <- <-. exists []. rewrite app_nil_r. reflexivity.
  - cbn [for_each] in Hrun.
    destruct (do_predict _ _ _ _) as [[preds w1]|]; [|discriminate].
    destruct (IH _ _ _ _ Hrun) as [more ->]. exists (preds ++ more)%list.
    rewrite app_assoc. reflexivity.
Qed.

(** With rows to send and a [do_predict] that never gives an empty list,
    [batch_predict] gives no empty list either. *)
Lemma batch_predict_not_empty (data : list A) (batch_size : Z)
    (endpoint_name content_type : string) (w : W) (arrs : list R) (w' : W) :
  0 < batch_size ->
  data <> [] ->
  (forall chunk w preds w',
     do_predict chunk endpoint_name content_type w = Some (preds, w') -> preds <> []) ->
  batch_predict_min do_predict stdout_write data batch_size endpoint_name content_type w
    = Some (arrs, w') ->
  arrs <> [].
Proof.
  intros Hpos Hne Hcall. unfold batch_predict_min, range3. cbv zeta.
  destruct (Z.eqb_spec batch_size 0) as [->|_]; [lia|].
  destruct (Z.ltb_spec 0 batch_size) as [_|]; [|lia].
  set (q := (Z.of_nat (length data) - 0 + batch_size - 1) / batch_size).
  assert (Hq : 0 < q).
  { apply Z.div_str_pos. destruct data; [congruence|]. simpl length. lia. }
  destruct (Z.to_nat q) as [|n] eqn:Hn; [lia|].
  cbn [seq fmap list_fmap for_each].
  destruct (do_predict _ _ _ _) as [[preds w1]|] eqn:Hfirst; [|discriminate].
  intros Hrun. apply batch_loop_extends in Hrun as [more ->].
  apply Hcall in Hfirst. destruct preds; [congruence|discriminate].
Qed.

End Batches.

Section Division.
Context {F W : Type}.
Variable float : string -> option F.
Variable ne : F -> F -> bool.
Variable invoke_endpoint : string -> string -> string -> W -> option (list byte * W).
Variable stdout_write : string -> W -> W.

(** The evaluation cell never divides by zero: [payload.split] gives at
    least one line, so [batch_predict] calls [do_predict] at least once, and
    every call that returns gives at least one prediction; [len(preds)] is
    not zero when the quotient is taken. The cell ends with an exception of
    a call, with the [IndexError] of [labels[i]], or with a quotient. *)
Theorem evaluate_never_divides_by_zero (text endpoint_name : string) (w : W) :
  evaluate float ne invoke_endpoint stdout_write text endpoint_name w = inl CallError
  \/ evaluate float ne invoke_endpoint stdout_write text endpoint_name w = inl IndexError
  \/ exists rate w',
       evaluate float ne invoke_endpoint stdout_write text endpoint_name w = inr (rate, w').
Proof.
  unfold evaluate. cbv zeta.
  destruct (comprehension _ (split lf (strip text))) as [labels|]; [|left; reflexivity].
  destruct (batch_predict_min _ _ _ _ _ _ _) as [[preds w']|] eqn:Hrun; [|left; reflexivity].
  destruct (mismatches ne preds labels) as [wrong|]; [|right; left; reflexivity].
  destruct (Z.eqb_spec (Z.of_nat (length preds)) 0) as [Hzero|_];
    [|right; right; eexists _, _; reflexivity].
  exfalso. apply batch_predict_not_empty in Hrun; [|lia| |].
  - destruct preds; [congruence | discriminate].
  - intros Hnil. apply (f_equal length) in Hnil. rewrite split_length in Hnil. discriminate.
  - intros chunk w0 ps w1 Hcall.
    destruct (do_predict_ascii_fields _ _ _ _ _ _ _ _ Hcall) as (body & result & _ & _ & Hlen).
    intros Hnil. rewrite Hnil in Hlen. discriminate.
Qed.

End Division.

(** *** Examples *)

Example batch_predict_empty_data :
  batch_predict_min (fun (_ : list Z) _ _ (_ : nat) => @None (list Z * nat)) (fun _ w => w)
    [] 100 "ep" "text/csv" 0%nat = Some ([], 0%nat).
Proof. reflexivity. Qed.

Lemma batch_predict_one_per_row_witness :
  0 < 2
  /\ exists arrs w',
       batch_predict_min echo_predict (fun _ w => w) [1; 2; 3; 4; 5] 2 "ep" "text/csv" 0%nat
         = Some (arrs, w')
       /\ Forall2 eq [1; 2; 3; 4; 5] arrs.
Proof.
  split; [lia|].
  apply (batch_predict_one_per_row echo_predict (fun _ w => w) eq [1; 2; 3; 4; 5] 2
           "ep" "text/csv" 0%nat); [lia|].
  intros chunk w _. exists chunk, (S w). split; [reflexivity|].
  apply Forall2_same_length_lookup. split; [reflexivity|]. intros i x y Hx Hy. congruence.
Defined.

End Evaluation.

(** ** Splitting a data file at random ([data_split]) *)

Module DataSplit.
Import Py.

(** What [data_split] can raise. *)
Inductive Exn := ValueError | IndexError | OverflowError.

(** [int((PERCENT / 100.0) * num_of_data)] for a whole number [PERCENT]. *)
Definition fraction (PERCENT : Z) (num_of_data : nat) : option Z :=
  int_of_float
    (PrimFloat.mul (PrimFloat.div (float_of_int PERCENT) (float_of_int 100))
                   (float_of_int (Z.of_nat num_of_data))).

(** [xs.pop(i)]: the list without the element at [i]; [None] is the
    [IndexError]. *)
Definition pop {A} (xs : list A) (i : Z) : option (list A) :=
  if (0 <=? i) && (i <? Z.of_nat (length xs)) then Some (delete (Z.to_nat i) xs)
  else if (- Z.of_nat (length xs) <=? i) && (i <? 0)
       then Some (delete (Z.to_nat (i + Z.of_nat (length xs))) xs)
       else None.

(** A [for] loop whose body may raise. *)
Fixpoint for_each {S X} (body : S -> X -> Exn + S) (s : S) (xs : list X) : Exn + S :=
  match xs with
  | [] => inr s
  | x :: rest =>
      match body s x with
      | inr s' => for_each body s' rest
      | inl e => inl e
      end
  end.

(** The two characters that end a line. *)
Definition lf : ascii := ascii_of_nat 10.
Definition cr : ascii := ascii_of_nat 13.

(** What a file opened with [open(name, "r")] gives for the text it holds:
    the line ends ['\r\n'] and ['\r'] are read as ['\n']. *)
Fixpoint universal_newlines (s : string) : string :=
  match s with
  | EmptyString => EmptyString
  | String c rest =>
      if Ascii.eqb c cr then
        String lf match rest with
                  | EmptyString => EmptyString
                  | String c' rest' =>
                      if Ascii.eqb c' lf then universal_newlines rest'
                      else universal_newlines rest
                  end
      else String c (universal_newlines rest)
  end.

(** The lines of a text, each with its ['\n']; the last line has none when
    the text does not end with one. *)
Fixpoint keepends (s : string) : list string :=
  match s with
  | EmptyString => []
  | String c rest =>
      if Ascii.eqb c lf then String c EmptyString :: keepends rest
      else match keepends rest with
           | [] => [String c EmptyString]
           | l :: ls => String c l :: ls
           end
  end.

(** [[l for l in open(FILE_DATA, "r")]] for a file that holds [text]. *)
Definition readlines (text : string) : list string := keepends (universal_newlines text).

(** The text of the three files opened for writing: what has been written
    to each, one [write] after the other. *)
Record Files := mkFiles { train_file : string; valid_file : string; tests_file : string }.

(** The state of the sampling loop: the lines not yet drawn, the three
    parts, and how many random numbers have been asked for. *)
Record State := mkState
  { data : list string; split_data : list (list string); calls : nat }.

(** *** Lines and text *)

(** A line with its line end: characters that end no line, then ['\n']. *)
Fixpoint complete (l : string) : bool :=
  match l with
  | EmptyString => false
  | String c rest =>
      match rest with
      | EmptyString => Ascii.eqb c lf
      | String _ _ => negb (Ascii.eqb c lf) && negb (Ascii.eqb c cr) && complete rest
      end
  end.

(** The text is empty or ends with a line end. *)
Fixpoint terminated (s : string) : bool :=
  match s with
  | EmptyString => true
  | String c rest =>
      match rest with
      | EmptyString => Ascii.eqb c lf || Ascii.eqb c cr
      | String _ _ => terminated rest
      end
  end.

(** No character of the text is ['\r']. *)
Fixpoint no_cr (s : string) : bool :=
  match s with
  | EmptyString => true
  | String c rest => negb (Ascii.eqb c cr) && no_cr rest
  end.

Lemma universal_newlines_cons (c : ascii) (rest : string) :
  universal_newlines (String c rest) =
  if Ascii.eqb c cr then
    String lf match rest with
              | EmptyString => EmptyString
              | String c' rest' =>
                  if Ascii.eqb c' lf then universal_newlines rest'
                  else universal_newlines rest
              end
  else String c (universal_newlines rest).
Proof. reflexivity. Qed.

(** What is read holds no ['\r'], and ends with ['\n'] when the text of
    the file ends with a line end. *)
Lemma universal_newlines_text (n : nat) :
  forall s, (String.length s <= n)%nat ->
    no_cr (universal_newlines s) = true
    /\ (terminated s = true -> terminated (universal_newlines s) = true).
Proof.
  induction n as [|n IH]; intros s Hlen.
  - destruct s; [split; reflexivity | simpl in Hlen; lia].
  - destruct s as [|c rest]; [split; reflexivity|]. simpl in Hlen.
    rewrite universal_newlines_cons.
    destruct (Ascii.eqb_spec c cr) as [->|Hc].
    + destruct rest as [|c' rest'].
      * split; reflexivity.
      * destruct (Ascii.eqb_spec c' lf) as [->|Hc'].
        -- destruct (IH rest' ltac:(simpl in Hlen; lia)) as [Hno Hend].
           split; [exact Hno|]. intros Ht.
           destruct rest' as [|c2 rest2]; [reflexivity|].
           change (terminated (String cr (String lf (String c2 rest2))))
             with (terminated (String c2 rest2)) in Ht.
           specialize (Hend Ht).
           destruct (universal_newlines (String c2 rest2)) eqn:E; [reflexivity|].
           exact Hend.
        -- destruct (IH (String c' rest') ltac:(lia)) as [Hno Hend].
           split; [exact Hno|]. intros Ht.
           change (terminated (String cr (String c' rest')))
             with (terminated (String c' rest')) in Ht.
           specialize (Hend Ht).
           destruct (universal_newlines (String c' rest')) eqn:E; [reflexivity|].
           exact Hend.
    + destruct (IH rest ltac:(lia)) as [Hno Hend]. split.
      * simpl. rewrite Hno. destruct (Ascii.eqb_spec c cr); [contradiction | reflexivity].
      * intros Ht. destruct rest as [|c' rest'].
        -- simpl in Ht |- *. destruct (Ascii.eqb_spec c cr); [contradiction|].
           rewrite orb_false_r in Ht. rewrite Ht. reflexivity.
        -- change (terminated (String c (String c' rest')))
             with (terminated (String c' rest')) in Ht.
           specialize (Hend Ht).
           destruct (universal_newlines (String c' rest')) eqn:E.
           ++ rewrite universal_newlines_cons in E.
              destruct (Ascii.eqb c' cr); discriminate E.
           ++ exact Hend.
Qed.

(** The lines of a text without ['\r'] that ends with ['\n'] are
    complete. *)
Lemma keepends_complete (s : string) :
  no_cr s = true -> terminated s = true ->
  Forall (fun l => complete l = true) (keepends s).
Proof.
  induction s as [|c rest IH]; intros Hno Hend; [constructor|].
  simpl in Hno. apply andb_true_iff in Hno as [Hc Hno].
  assert (Hrest : rest = EmptyString \/ terminated rest = true).
  { destruct rest; [left; reflexivity | right; exact Hend]. }
  simpl keepends. destruct (Ascii.eqb_spec c lf) as [->|Hlf].
  - apply Forall_cons. split; [reflexivity|].
    destruct Hrest as [->|Ht]; [constructor | apply IH; assumption].
  - destruct Hrest as [->|Ht].
    + simpl in Hend. destruct (Ascii.eqb_spec c lf); [contradiction|].
      destruct (Ascii.eqb c cr); [discriminate Hc | discriminate Hend].
    + specialize (IH Hno Ht). destruct (keepends rest) as [|l ls] eqn:E.
      * destruct rest as [|c' rest']; [|simpl in E; destruct (Ascii.eqb c' lf);
          [discriminate E | destruct (keepends rest'); discriminate E]].
        simpl in Hend. destruct (Ascii.eqb_spec c lf); [contradiction|].
        destruct (Ascii.eqb c cr); [discriminate Hc | discriminate Hend].
      * apply Forall_cons in IH as [Hl Hls]. apply Forall_cons. split; [|exact Hls].
        destruct l as [|c' l']; [discriminate Hl|].
        change (complete (String c (String c' l')))
          with (negb (Ascii.eqb c lf) && negb (Ascii.eqb c cr) && complete (String c' l')).
        rewrite Hl, Hc. destruct (Ascii.eqb_spec c lf); [contradiction | reflexivity].
Qed.

Lemma readlines_complete (text : string) :
  terminated text = true -> Forall (fun l => complete l = true) (readlines text).
Proof.
  intros Hend. unfold readlines.
  destruct (universal_newlines_text (String.length text) text (Nat.le_refl _)) as [Hno Ht].
  apply keepends_complete; [exact Hno | exact (Ht Hend)].
Qed.

(** A complete line in front of a text is read back as it is. *)
Lemma universal_newlines_line (l rest : string) :
  complete l = true ->
  universal_newlines (l ++ rest) = l ++ universal_newlines rest.
Proof.
  induction l as [|c l IH]; intros Hl; [discriminate Hl|].
  destruct l as [|c' l'].
  - simpl in Hl. apply Ascii.eqb_eq in Hl. subst c.
    rewrite !append_cons. rewrite universal_newlines_cons. reflexivity.
  - change (complete (String c (String c' l')))
      with (negb (Ascii.eqb c lf) && negb (Ascii.eqb c cr) && complete (String c' l')) in Hl.
    apply andb_true_iff in Hl as [Hc Hl]. apply andb_true_iff in Hc as [Hlf Hcr].
    rewrite append_cons, universal_newlines_cons.
    destruct (Ascii.eqb c cr); [discriminate Hcr|].
    rewrite (IH Hl). reflexivity.
Qed.

Lemma keepends_cons (c : ascii) (rest : string) :
  keepends (String c rest) =
  if Ascii.eqb c lf then String c EmptyString :: keepends rest
  else match keepends rest with
       | [] => [String c EmptyString]
       | l :: ls => String c l :: ls
       end.
Proof. reflexivity. Qed.

Lemma keepends_line (l rest : string) :
  complete l = true -> keepends (l ++ rest) = l :: keepends rest.
Proof.
  induction l as [|c l IH]; intros Hl; [discriminate Hl|].
  destruct l as [|c' l'].
  - simpl in Hl. rewrite append_cons, keepends_cons, Hl. reflexivity.
  - change (complete (String c (String c' l')))
      with (negb (Ascii.eqb c lf) && negb (Ascii.eqb c cr) && complete (String c' l')) in Hl.
    apply andb_true_iff in Hl as [Hc Hl]. apply andb_true_iff in Hc as [Hlf Hcr].
    rewrite append_cons, keepends_cons.
    destruct (Ascii.eqb c lf); [discriminate Hlf|].
    rewrite (IH Hl). reflexivity.
Qed.

Section Random.
(** [random.randint(a, b)] at its [k]-th call, for [a <= b]. *)
Variable randint : nat -> Z -> Z -> Z.

(** The body of [for i in range(fraction)]. [random.randint(0, -1)] raises
    [ValueError]. *)
Definition draw (split_ind : nat) (st : State) : Exn + State :=
  let b := Z.of_nat (length (data st)) - 1 in
  if b <? 0 then inl ValueError
  else
    let rand_data_ind := randint (calls st) 0 b in
    match split_data st !! split_ind, index (data st) rand_data_ind with
    | Some part, Some l =>
        let split_data := <[split_ind := (part ++ [l])%list]> (split_data st) in
        match pop (data st) rand_data_ind with
        | Some data => inr (mkState data split_data (S (calls st)))
        | None => inl IndexError
        end
    | _, _ => inl IndexError
    end.

(** The two nested loops over [enumerate(data_fractions)]. *)
Definition sample (data_fractions : list Z) (st : State) : Exn + State :=
  for_each
    (fun st '(split_ind, fraction) =>
       for_each (fun st _ => draw split_ind st) st (range fraction))
    st (imap (fun split_ind fraction => (split_ind, fraction)) data_fractions).

(** [data_split(...)] for a data file that holds [text]. The result is the
    text the three output files hold at the end; when an exception leaves
    the function, the exception and what has been written by then. *)
Definition data_split (text : string)
    (PERCENT_TRAIN PERCENT_VALIDATION PERCENT_TEST : Z) : Exn * Files + Files :=
  let data := readlines text in
  let files := mkFiles "" "" "" in
  let num_of_data := length data in
  match fraction PERCENT_TRAIN num_of_data, fraction PERCENT_VALIDATION num_of_data,
        fraction PERCENT_TEST num_of_data with
  | Some num_train, Some num_valid, Some num_tests =>
      let data_fractions := [num_train; num_valid; num_tests] in
      match sample data_fractions (mkState data [[]; []; []] 0) with
      | inl e => inl (e, files)
      | inr st =>
          match split_data st !! 0%nat, split_data st !! 1%nat, split_data st !! 2%nat with
          | Some part0, Some part1, Some part2 =>
              let files := foldl (fun f l => mkFiles (train_file f ++ l) (valid_file f)
                                               (tests_file f)) files part0 in
              let files := foldl (fun f l => mkFiles (train_file f) (valid_file f ++ l)
                                               (tests_file f)) files part1 in
              let files := foldl (fun f l => mkFiles (train_file f) (valid_file f)
                                               (tests_file f ++ l)) files part2 in
              inr files
          | _, _, _ => inl (IndexError, files)
          end
      end
  | _, _, _ => inl (OverflowError, files)
  end.

(** *** The sampling loop *)

(** The random numbers lie in the range asked for. *)
Definition in_range : Prop := forall k b, 0 <= b -> 0 <= randint k 0 b <= b.

(** [n] draws into part [split_ind]. *)
Lemma draws_enough (split_ind : nat) (fraction : Z) (n : nat) :
  in_range ->
  forall st part,
  n = Z.to_nat fraction ->
  (n <= length (data st))%nat ->
  split_data st !! split_ind = Some part ->
  exists data' drawn,
    for_each (fun st _ => draw split_ind st) st (range fraction)
      = inr (mkState data' (<[split_ind := (part ++ drawn)%list]> (split_data st))
               (calls st + n))
    /\ length drawn = n
    /\ (drawn ++ data')%list ≡ₚ data st.
Proof.
  intros Hrand st part Hn. unfold range. rewrite <- Hn. clear Hn fraction.
  generalize 0%nat as k0. revert st part.
  induction n as [|n IH]; intros st part k0 Hlen Hpart.
  - exists (data st), []. simpl. rewrite app_nil_r, list_insert_id by exact Hpart.
    rewrite Nat.add_0_r. destruct st; repeat split; reflexivity.
  - cbn [seq fmap list_fmap for_each]. unfold draw at 1. cbv zeta.
    destruct (Z.ltb_spec (Z.of_nat (length (data st)) - 1) 0) as [|Hb]; [lia|].
    pose proof (Hrand (calls st) _ Hb) as Hr.
    set (r := randint (calls st) 0 (Z.of_nat (length (data st)) - 1)) in *.
    rewrite Hpart. unfold index, pop.
    destruct (Z.leb_spec 0 r) as [_|]; [|lia].
    destruct (Z.ltb_spec r (Z.of_nat (length (data st)))) as [_|]; [|lia].
    destruct (lookup_lt_is_Some_2 (data st) (Z.to_nat r) ltac:(lia)) as [l Hl].
    rewrite Hl. cbn [andb].
    destruct (IH (mkState (delete (Z.to_nat r) (data st))
                    (<[split_ind := (part ++ [l])%list]> (split_data st)) (S (calls st)))
                 (part ++ [l])%list (S k0)) as (data' & drawn & Hrun & Hdrawn & Hperm).
    { simpl. rewrite length_delete by (eexists; exact Hl). lia. }
    { simpl. apply list_lookup_insert_eq. eapply lookup_lt_Some, Hpart. }
    exists data', (l :: drawn). split; [|split].
    + rewrite Hrun. simpl. rewrite list_insert_insert_eq, <- app_assoc. do 2 f_equal. lia.
    + simpl. f_equal. exact Hdrawn.
    + simpl in Hperm. simpl. rewrite Hperm. symmetry. apply delete_Permutation, Hl.
Qed.

(** More draws than lines are left: the draw after the last line raises. *)
Lemma draws_short (split_ind : nat) (fraction : Z) :
  in_range ->
  forall st part,
  (length (data st) < Z.to_nat fraction)%nat ->
  split_data st !! split_ind = Some part ->
  for_each (fun st _ => draw split_ind st) st (range fraction) = inl ValueError.
Proof.
  intros Hrand st part Hlen Hpart. unfold range.
  generalize 0%nat as k0. remember (Z.to_nat fraction) as n eqn:Hn. clear Hn fraction.
  revert st part Hlen Hpart.
  induction n as [|n IH]; intros st part Hlen Hpart k0; [lia|].
  cbn [seq fmap list_fmap for_each]. unfold draw at 1. cbv zeta.
  destruct (Z.ltb_spec (Z.of_nat (length (data st)) - 1) 0) as [|Hb]; [reflexivity|].
  pose proof (Hrand (calls st) _ Hb) as Hr.
  set (r := randint (calls st) 0 (Z.of_nat (length (data st)) - 1)) in *.
  rewrite Hpart. unfold index, pop.
  destruct (Z.leb_spec 0 r) as [_|]; [|lia].
  destruct (Z.ltb_spec r (Z.of_nat (length (data st)))) as [_|]; [|lia].
  destruct (lookup_lt_is_Some_2 (data st) (Z.to_nat r) ltac:(lia)) as [l Hl].
  rewrite Hl. cbn [andb].
  apply (IH _ (part ++ [l])%list).
  - simpl. rewrite length_delete by (eexists; exact Hl). lia.
  - simpl. apply list_lookup_insert_eq. eapply lookup_lt_Some, Hpart.
Qed.

Lemma sample_three (num_train num_valid num_tests : Z) (st : State) :
  sample [num_train; num_valid; num_tests] st =
  match for_each (fun st _ => draw 0 st) st (range num_train) with
  | inl e => inl e
  | inr st =>
      match for_each (fun st _ => draw 1 st) st (range num_valid) with
      | inl e => inl e
      | inr st => for_each (fun st _ => draw 2 st) st (range num_tests)
      end
  end.
Proof.
  unfold sample. cbn [imap for_each]. unfold compose.
  destruct (for_each (fun st _ => draw 0 st) st (range num_train)) as [e|st1]; [reflexivity|].
  destruct (for_each (fun st _ => draw 1 st) st1 (range num_valid)) as [e|st2]; [reflexivity|].
  destruct (for_each (fun st _ => draw 2 st) st2 (range num_tests)); reflexivity.
Qed.

(** The text that a sequence of writes leaves in a file. *)
Definition written (parts : list string) : string := foldr String.append "" parts.

Lemma write_lines (files : Files) (part0 part1 part2 : list string) :
  foldl (fun f l => mkFiles (train_file f) (valid_file f) (tests_file f ++ l))
    (foldl (fun f l => mkFiles (train_file f) (valid_file f ++ l) (tests_file f))
       (foldl (fun f l => mkFiles (train_file f ++ l) (valid_file f) (tests_file f))
          files part0) part1) part2
  = mkFiles (train_file files ++ written part0) (valid_file files ++ written part1)
      (tests_file files ++ written part2).
Proof.
  assert (Hnil : forall a : string, a ++ "" = a).
  { induction a as [|c a IH]; [reflexivity|]. rewrite append_cons, IH. reflexivity. }
  assert (H0 : forall part f,
    foldl (fun f l => mkFiles (train_file f ++ l) (valid_file f) (tests_file f)) f part
    = mkFiles (train_file f ++ written part) (valid_file f) (tests_file f)).
  { induction part as [|l part IH]; intros f; simpl.
    - rewrite Hnil. destruct f; reflexivity.
    - rewrite IH. simpl. rewrite append_assoc. reflexivity. }
  assert (H1 : forall part f,
    foldl (fun f l => mkFiles (train_file f) (valid_file f ++ l) (tests_file f)) f part
    = mkFiles (train_file f) (valid_file f ++ written part) (tests_file f)).
  { induction part as [|l part IH]; intros f; simpl.
    - rewrite Hnil. destruct f; reflexivity.
    - rewrite IH. simpl. rewrite append_assoc. reflexivity. }
  assert (H2 : forall part f,
    foldl (fun f l => mkFiles (train_file f) (valid_file f) (tests_file f ++ l)) f part
    = mkFiles (train_file f) (valid_file f) (tests_file f ++ written part)).
  { induction part as [|l part IH]; intros f; simpl.
    - rewrite Hnil. destruct f; reflexivity.
    - rewrite IH. simpl. rewrite append_assoc. reflexivity. }
  rewrite H0, H1, H2. reflexivity.
Qed.

(** Complete lines written one after the other are read back one by one. *)
Lemma readlines_written (parts : list string) :
  Forall (fun l => complete l = true) parts -> readlines (written parts) = parts.
Proof.
  unfold readlines. induction parts as [|l parts IH]; intros Hall; [reflexivity|].
  apply Forall_cons in Hall as [Hl Hall]. simpl written.
  rewrite (universal_newlines_line l _ Hl), (keepends_line l _ Hl), (IH Hall).
  reflexivity.
Qed.

(** When the three counts together do not exceed the number of lines,
    [data_split] returns. The three files hold, written one after the
    other, [num_train], [num_valid] and [num_tests] lines of the data file,
    taken at different positions: no line of the data is written twice,
    inside a file or across the files. When the data file is empty or ends
    with a line end, each file read back gives the lines written to it. *)
Theorem data_split_partition (text : string)
    (PERCENT_TRAIN PERCENT_VALIDATION PERCENT_TEST num_train num_valid num_tests : Z) :
  in_range ->
  fraction PERCENT_TRAIN (length (readlines text)) = Some num_train ->
  fraction PERCENT_VALIDATION (length (readlines text)) = Some num_valid ->
  fraction PERCENT_TEST (length (readlines text)) = Some num_tests ->
  (Z.to_nat num_train + Z.to_nat num_valid + Z.to_nat num_tests
   <= length (readlines text))%nat ->
  exists part0 part1 part2 : list string,
    data_split text PERCENT_TRAIN PERCENT_VALIDATION PERCENT_TEST
      = inr (mkFiles (written part0) (written part1) (written part2))
    /\ length part0 = Z.to_nat num_train
    /\ length part1 = Z.to_nat num_valid
    /\ length part2 = Z.to_nat num_tests
    /\ (part0 ++ part1 ++ part2)%list ⊆+ readlines text
    /\ (terminated text = true ->
        readlines (written part0) = part0
        /\ readlines (written part1) = part1
        /\ readlines (written part2) = part2).
Proof.
  intros Hrand H1 H2 H3 Hsum. unfold data_split. cbv zeta. rewrite H1, H2, H3.
  rewrite sample_three.
  destruct (draws_enough 0 num_train (Z.to_nat num_train) Hrand
              (mkState (readlines text) [[]; []; []] 0) [] eq_refl ltac:(simpl; lia) eq_refl)
    as (data1 & part0 & -> & Hl0 & Hp0).
  simpl in Hp0. pose proof (Permutation_length Hp0) as Hn0. rewrite length_app in Hn0.
  destruct (draws_enough 1 num_valid (Z.to_nat num_valid) Hrand
              (mkState data1 [part0; []; []] (0 + Z.to_nat num_train)) []
              eq_refl ltac:(simpl; lia) eq_refl)
    as (data2 & part1 & Hrun1 & Hl1 & Hp1).
  simpl in Hp1. pose proof (Permutation_length Hp1) as Hn1. rewrite length_app in Hn1.
  destruct (draws_enough 2 num_tests (Z.to_nat num_tests) Hrand
              (mkState data2 [part0; part1; []] (0 + Z.to_nat num_train + Z.to_nat num_valid)) []
              eq_refl ltac:(simpl; lia) eq_refl)
    as (data3 & part2 & Hrun2 & Hl2 & Hp2).
  simpl in Hp2.
  cbn [insert list_insert app split_data calls] in *. rewrite Hrun1.
  cbn [insert list_insert app split_data calls].
  rewrite Hrun2. cbn [insert list_insert app split_data lookup list_lookup].
  rewrite write_lines. exists part0, part1, part2.
  split; [reflexivity|].
  split; [exact Hl0|]. split; [exact Hl1|]. split; [exact Hl2|].
  assert (Hsub : (part0 ++ part1 ++ part2)%list ⊆+ readlines text).
  { rewrite <- Hp0, <- Hp1, <- Hp2.
    apply submseteq_app; [reflexivity|]. apply submseteq_app; [reflexivity|].
    apply submseteq_inserts_r. reflexivity. }
  split; [exact Hsub|].
  intros Hend. pose proof (readlines_complete text Hend) as Hall.
  assert (Hparts : Forall (fun l => complete l = true) (part0 ++ part1 ++ part2)%list).
  { rewrite Forall_forall in Hall |- *. intros l Hl. apply Hall.
    eapply elem_of_submseteq; eassumption. }
  apply Forall_app in Hparts as [Hc0 Hparts]. apply Forall_app in Hparts as [Hc1 Hc2].
  split; [|split]; apply readlines_written; assumption.
Qed.

(** When the three counts together exceed the number of lines, the data
    runs out during the sampling: [random.randint(0, -1)] raises
    [ValueError], and at that point the three output files are open and
    nothing has been written to them. *)
Theorem data_split_runs_out (text : string)
    (PERCENT_TRAIN PERCENT_VALIDATION PERCENT_TEST num_train num_valid num_tests : Z) :
  in_range ->
  fraction PERCENT_TRAIN (length (readlines text)) = Some num_train ->
  fraction PERCENT_VALIDATION (length (readlines text)) = Some num_valid ->
  fraction PERCENT_TEST (length (readlines text)) = Some num_tests ->
  (length (readlines text)
   < Z.to_nat num_train + Z.to_nat num_valid + Z.to_nat num_tests)%nat ->
  data_split text PERCENT_TRAIN PERCENT_VALIDATION PERCENT_TEST
    = inl (ValueError, mkFiles "" "" "").
Proof.
  intros Hrand H1 H2 H3 Hsum. unfold data_split. cbv zeta. rewrite H1, H2, H3.
  rewrite sample_three.
  destruct (Nat.le_gt_cases (Z.to_nat num_train) (length (readlines text))) as [Hle0|Hgt0].
  2:{ rewrite (draws_short 0 num_train Hrand (mkState (readlines text) [[]; []; []] 0) []
                 Hgt0 eq_refl).
      reflexivity. }
  destruct (draws_enough 0 num_train (Z.to_nat num_train) Hrand
              (mkState (readlines text) [[]; []; []] 0) [] eq_refl Hle0 eq_refl)
    as (data1 & part0 & -> & Hl0 & Hp0).
  simpl in Hp0. pose proof (Permutation_length Hp0) as Hn0. rewrite length_app in Hn0.
  cbn [insert list_insert app split_data calls].
  destruct (Nat.le_gt_cases (Z.to_nat num_valid) (length data1)) as [Hle1|Hgt1].
  2:{ rewrite (draws_short 1 num_valid Hrand
                 (mkState data1 [part0; []; []] (0 + Z.to_nat num_train)) [] Hgt1 eq_refl).
      reflexivity. }
  destruct (draws_enough 1 num_valid (Z.to_nat num_valid) Hrand
              (mkState data1 [part0; []; []] (0 + Z.to_nat num_train)) []
              eq_refl Hle1 eq_refl)
    as (data2 & part1 & -> & Hl1 & Hp1).
  simpl in Hp1. pose proof (Permutation_length Hp1) as Hn1. rewrite length_app in Hn1.
  cbn [insert list_insert app split_data calls].
  rewrite (draws_short 2 num_tests Hrand
             (mkState data2 [part0; part1; []] (0 + Z.to_nat num_train + Z.to_nat num_valid)) []
             ltac:(simpl; lia) eq_refl).
  reflexivity.
Qed.

End Random.

(** *** Ten lines and a generator that walks through the data *)

Definition stepping (k : nat) (a b : Z) : Z := a + (7 * Z.of_nat k) mod (b - a + 1).

Definition nl : string := String lf "".

(** Ten lines, each with its line end. *)
Definition ten_lines : string :=
  "a" ++ nl ++ "b" ++ nl ++ "c" ++ nl ++ "d" ++ nl ++ "e" ++ nl
  ++ "f" ++ nl ++ "g" ++ nl ++ "h" ++ nl ++ "i" ++ nl ++ "j" ++ nl.

Lemma stepping_in_range : in_range stepping.
Proof.
  intros k b Hb. unfold stepping.
  pose proof (Z.mod_pos_bound (7 * Z.of_nat k) (b - 0 + 1) ltac:(lia)). lia.
Qed.

(** 70, 15 and 15 percent of ten lines are 7, 1 and 1 lines: one line
    reaches no file. *)
Example data_split_ten :
  data_split stepping ten_lines 70 15 15
  = inr (mkFiles ("a" ++ nl ++ "i" ++ nl ++ "h" ++ nl ++ "b" ++ nl ++ "g" ++ nl
                  ++ "c" ++ nl ++ "f" ++ nl)
                 ("e" ++ nl) ("d" ++ nl)).
Proof. vm_compute. reflexivity. Qed.

(** The product is a float: 29 percent of 100 lines are 28 lines. *)
Example fraction_rounds_down : fraction 29 100 = Some 28 /\ fraction 70 10 = Some 7.
Proof. vm_compute. split; reflexivity. Qed.

(** Line ends are read as ['\n'], and a last line without a line end is a
    line. *)
Example readlines_three :
  readlines ("a" ++ String cr nl ++ "b" ++ String cr "c") = ["a" ++ nl; "b" ++ nl; "c"].
Proof. vm_compute. reflexivity. Qed.

(** A data file whose last line has no line end: that line is written
    without one, and the line written after it continues it. The test file
    then holds one line, which is no line of the data. *)
Example data_split_merged_line :
  let text := "a" ++ nl ++ "b" ++ nl ++ "c" in
  readlines text = ["a" ++ nl; "b" ++ nl; "c"]
  /\ data_split (fun _ _ b => b) text 0 0 100 = inr (mkFiles "" "" ("cb" ++ nl ++ "a" ++ nl))
  /\ readlines ("cb" ++ nl ++ "a" ++ nl) = ["cb" ++ nl; "a" ++ nl].
Proof. vm_compute. repeat split; reflexivity. Qed.

Lemma data_split_partition_witness :
  in_range stepping
  /\ (Z.to_nat 7 + Z.to_nat 1 + Z.to_nat 1 <= length (readlines ten_lines))%nat
  /\ exists part0 part1 part2,
       data_split stepping ten_lines 70 15 15
         = inr (mkFiles (written part0) (written part1) (written part2))
       /\ length part0 = 7%nat
       /\ readlines (written part0) = part0.
Proof.
  split; [exact stepping_in_range|]. split; [vm_compute; lia|].
  destruct (data_split_partition stepping ten_lines 70 15 15 7 1 1 stepping_in_range)
    as (part0 & part1 & part2 & Hrun & Hlen & _ & _ & _ & Hback);
    [vm_compute; reflexivity .. | vm_compute; lia |].
  exists part0, part1, part2. split; [exact Hrun|]. split; [exact Hlen|].
  apply Hback. reflexivity.
Defined.

Lemma data_split_runs_out_witness :
  in_range stepping
  /\ (length (readlines ten_lines) < Z.to_nat 7 + Z.to_nat 3 + Z.to_nat 1)%nat
  /\ data_split stepping ten_lines 70 30 15 = inl (ValueError, mkFiles "" "" "").
Proof.
  split; [exact stepping_in_range|]. split; [vm_compute; lia|].
  apply (data_split_runs_out stepping ten_lines 70 30 15 7 3 1 stepping_in_range);
    [vm_compute; reflexivity .. | vm_compute; lia].
Defined.

End DataSplit.

(** ** Fetching a part file back from the object store ([download_from_s3]) *)

Module Download.
Import Py.

(** The answer of the object store to a request: the bytes of the object,
    or a [botocore.exceptions.ClientError] with its
    [response["Error"]["Code"]]. *)
Inductive Answer :=
| Object (body : list byte)
| ClientError (code : string).

(** The local files, the lines printed, and how many requests have gone to
    the object store. *)
Record World := mkWorld
  { files : gmap string (list byte); stdout : list string; requests : nat }.

(** How a call ends: it returns, a [ClientError] with this code leaves it,
    or a [NameError] for this name does. *)
Inductive Outcome :=
| Returned (w : World)
| Raised (code : string) (w : World)
| NameError (name : string) (w : World).

(** The names that the import statements of the notebook bind. No cell
    assigns to another module name. *)
Definition imported : list string :=
  ["os"; "boto3"; "re"; "copy"; "time"; "gmtime"; "strftime"; "sagemaker";
   "get_execution_role"; "pickle"; "gzip"; "numpy"; "json"; "struct"; "io"; "retrieve";
   "sys"; "plt"; "get_image_uri"].

Definition bound (name : string) : bool := bool_decide (name ∈ imported).

Definition print (line : string) (w : World) : World :=
  mkWorld (files w) (stdout w ++ [line])%list (requests w).

Section Store.
(** The notebook's globals. *)
Variable bucket prefix : string.
(** What the store answers to its [k]-th request, for a bucket and a key. *)
Variable get_object : nat -> string -> string -> Answer.

(** [s3.Bucket(bucket).download_file(key, filename)]. *)
Definition download_file (key filename : string) (w : World) : Outcome :=
  match get_object (requests w) bucket key with
  | Object body => Returned (mkWorld (<[filename := body]> (files w)) (stdout w) (S (requests w)))
  | ClientError code => Raised code (mkWorld (files w) (stdout w) (S (requests w)))
  end.

(** [download_from_s3(partition_name, number, filename)]. When the second
    download raises, the clause [except botocore.exceptions.ClientError] is
    evaluated first: the name [botocore] has to be bound for the handler to
    run, otherwise the clause itself raises [NameError]. *)
Definition download_from_s3 (partition_name : string) (number : Z) (filename : string)
    (w : World) : Outcome :=
  let key := prefix ++ "/" ++ partition_name ++ "/examples" ++ str_int number in
  let url := "s3://" ++ bucket ++ "/" ++ key in
  let w := print ("Reading from " ++ url) w in
  match download_file key filename w with
  | Raised code w => Raised code w
  | NameError name w => NameError name w
  | Returned w =>
      match download_file key "mnist.local.test" w with
      | Returned w => Returned w
      | NameError name w => NameError name w
      | Raised code w =>
          if bound "botocore" then
            if String.eqb code "404"
            then Returned (print ("The object does not exist at " ++ url ++ ".") w)
            else Raised code w
          else NameError "botocore" w
      end
  end.

(** The key and the address of a part. *)
Definition part_key (partition_name : string) (number : Z) : string :=
  prefix ++ "/" ++ partition_name ++ "/examples" ++ str_int number.

Definition part_url (partition_name : string) (number : Z) : string :=
  "s3://" ++ bucket ++ "/" ++ part_key partition_name number.

(** When the store gives the same answer to the two requests of a call,
    the handler for a missing object is never reached: a missing object
    makes the first download raise, outside the [try], and the line "The
    object does not exist" is not printed. Otherwise both downloads succeed
    and the two local files hold the same bytes. *)
Theorem download_from_s3_same_answer (partition_name : string) (number : Z)
    (filename : string) (w : World) :
  let key := part_key partition_name number in
  let reading := ("Reading from " ++ part_url partition_name number)%string in
  get_object (S (requests w)) bucket key = get_object (requests w) bucket key ->
  match get_object (requests w) bucket key with
  | Object body =>
      download_from_s3 partition_name number filename w
      = Returned (mkWorld (<["mnist.local.test" := body]> (<[filename := body]> (files w)))
                    (stdout w ++ [reading]) (S (S (requests w))))
  | ClientError code =>
      download_from_s3 partition_name number filename w
      = Raised code (mkWorld (files w) (stdout w ++ [reading]) (S (requests w)))
  end.
Proof.
  intros key reading Hsame. unfold download_from_s3, download_file. cbv zeta.
  fold (part_key partition_name number). fold key. simpl requests.
  destruct (get_object (requests w) bucket key) as [body|code] eqn:Hfirst.
  - simpl requests. rewrite Hsame. reflexivity.
  - reflexivity.
Qed.

(** The handler for a missing object never runs: the notebook does not
    bind the name [botocore], so when the second download raises, the
    [except] clause raises [NameError]. The call returns exactly when both
    downloads succeed; in every case the only line printed is the one
    about reading, and the line "The object does not exist" is not. *)
Theorem download_from_s3_name_error (partition_name : string) (number : Z)
    (filename : string) (w : World) :
  let key := part_key partition_name number in
  let reading := ("Reading from " ++ part_url partition_name number)%string in
  download_from_s3 partition_name number filename w =
  match get_object (requests w) bucket key with
  | Object body =>
      match get_object (S (requests w)) bucket key with
      | Object body' =>
          Returned (mkWorld (<["mnist.local.test" := body']> (<[filename := body]> (files w)))
                      (stdout w ++ [reading]) (S (S (requests w))))
      | ClientError code =>
          NameError "botocore" (mkWorld (<[filename := body]> (files w))
                                  (stdout w ++ [reading]) (S (S (requests w))))
      end
  | ClientError code =>
      Raised code (mkWorld (files w) (stdout w ++ [reading]) (S (requests w)))
  end.
Proof.
  intros key reading. unfold download_from_s3, download_file. cbv zeta.
  fold (part_key partition_name number). fold key. simpl requests.
  destruct (get_object (requests w) bucket key) as [body|code]; [|reflexivity].
  simpl requests.
  destruct (get_object (S (requests w)) bucket key) as [body'|code]; reflexivity.
Qed.

End Store.

(** *** A store with one object, and one that loses it *)

Definition one_object (_ : nat) (_ key : string) : Answer :=
  if String.eqb key "pre/test/examples0" then Object [x35; x20; x31]
  else ClientError "404".

Definition vanishing (k : nat) (_ _ : string) : Answer :=
  match k with
  | O => Object [x35; x20; x31]
  | S _ => ClientError "404"
  end.

Definition start : World := mkWorld ∅ [] 0.

Example download_from_s3_present :
  download_from_s3 "bkt" "pre" one_object "test" 0 "mnist.local.test" start
  = Returned (mkWorld {[ "mnist.local.test" := [x35; x20; x31] ]}
                ["Reading from s3://bkt/pre/test/examples0"] 2).
Proof. vm_compute. reflexivity. Qed.

Lemma download_from_s3_same_answer_witness :
  one_object 1 "bkt" "pre/test/examples7" = one_object 0 "bkt" "pre/test/examples7"
  /\ download_from_s3 "bkt" "pre" one_object "test" 7 "mnist.local.test" start
     = Raised "404" (mkWorld ∅ ["Reading from s3://bkt/pre/test/examples7"] 1).
Proof.
  split; [reflexivity|].
  exact (download_from_s3_same_answer "bkt" "pre" one_object "test" 7 "mnist.local.test"
           start eq_refl).
Defined.

(** The object is there at the first request and gone at the second: the
    call ends with the [NameError], the first file is written and no line
    about the missing object is printed. *)
Example download_from_s3_vanishing :
  download_from_s3 "bkt" "pre" vanishing "test" 0 "local.test" start
  = NameError "botocore"
      (mkWorld {[ "local.test" := [x35; x20; x31] ]}
         ["Reading from s3://bkt/pre/test/examples0"] 2).
Proof. vm_compute. reflexivity. Qed.

End Download.

(** ** Converting the whole data set ([convert_data]) *)

Module ConvertData.
Import Py Libsvm.

Section Convert.
Context {L V : Type}.
Variable str_label : L -> string.
Variable str_value : V -> string.
Variable bucket prefix : string.
(** The text of [partition[0].shape] and of [partition[1].shape]. *)
Variable str_shape_rows : list (list V) -> string.
Variable str_shape_labels : list L -> string.

(** [convert_data()]; [dataset] is what [get_dataset()] loads: the training,
    validation and test partitions. *)
Definition convert_data
    (dataset : (list (list V) * list L) * (list (list V) * list L) * (list (list V) * list L))
    (w : World) : World :=
  let '(train_set, valid_set, test_set) := dataset in
  let partitions := [("train", train_set); ("validation", valid_set); ("test", test_set)] in
  foldl
    (fun w '(partition_name, partition) =>
       let w := print (partition_name ++ ": " ++ str_shape_rows (fst partition) ++ " "
                       ++ str_shape_labels (snd partition)) w in
       upload_to_s3 str_label str_value bucket prefix partition_name partition w)
    w partitions.

(** The ends of the keys of the fifteen parts, in the order of upload. *)
Definition part_names : list string :=
  name ← ["train"; "validation"; "test"];
  i ← [0; 1; 2; 3; 4];
  [("/" ++ name ++ "/examples" ++ str_int i)%string].

Lemma upload_to_s3_objects (partition_name : string) (partition : list (list V) * list L)
    (w : World) :
  let pb := (length (snd partition) / 5)%nat in
  uploads (upload_to_s3 str_label str_value bucket prefix partition_name partition w) =
  (uploads w ++
   ((fun i => part_object str_label str_value bucket prefix partition_name i
                (take pb (drop (i * pb) (zip (snd partition) (fst partition)))))
      <$> [0; 1; 2; 3; 4]%nat))%list.
Proof.
  intros pb. unfold upload_to_s3. cbv zeta.
  replace (Z.of_nat (length (snd partition)) / 5) with (Z.of_nat pb)
    by (unfold pb; rewrite (Nat2Z.inj_div _ 5); reflexivity).
  change (range 5) with [Z.of_nat 0; Z.of_nat 1; Z.of_nat 2; Z.of_nat 3; Z.of_nat 4].
  cbn [foldl]. rewrite !upload_part_uploads. rewrite <- !app_assoc. reflexivity.
Qed.

Lemma upload_to_s3_keys (partition_name : string) (partition : list (list V) * list L)
    (w : World) :
  s3_key <$> uploads (upload_to_s3 str_label str_value bucket prefix partition_name partition w) =
  ((s3_key <$> uploads w) ++
   ((fun i => (prefix ++ "/" ++ partition_name ++ "/examples" ++ str_int i)%string)
      <$> [0; 1; 2; 3; 4]))%list.
Proof.
  rewrite upload_to_s3_objects. cbv zeta. rewrite fmap_app. reflexivity.
Qed.

(** [convert_data] stores fifteen objects, five for each of the partitions
    train, validation and test in this order, under fifteen different
    keys: no part overwrites another. *)
Theorem convert_data_keys
    (dataset : (list (list V) * list L) * (list (list V) * list L) * (list (list V) * list L))
    (w : World) :
  let keys := (fun name => (prefix ++ name)%string) <$> part_names in
  s3_key <$> uploads (convert_data dataset w) = ((s3_key <$> uploads w) ++ keys)%list
  /\ length keys = 15%nat
  /\ NoDup keys.
Proof.
  intros keys. split; [|split].
  - destruct dataset as [[train_set valid_set] test_set]. unfold convert_data.
    cbn [foldl fst snd].
    do 3 (rewrite upload_to_s3_keys; unfold print at 1; cbn [uploads]).
    rewrite <- !app_assoc. reflexivity.
  - reflexivity.
  - apply NoDup_fmap_2.
    + intros a b. apply Predict.append_inj_l.
    + apply (bool_decide_unpack _). vm_compute. exact I.
Qed.

(** *** What [zip] and the floor of the part size leave out *)

(** [zip] stops at the shorter of [labels] and [values]: the entries after
    it do not reach the file. *)
Theorem to_libsvm_shorter (f : BytesIO) (labels : list L) (values : list (list V)) :
  let n := Nat.min (length labels) (length values) in
  to_libsvm str_label str_value f labels values
  = to_libsvm str_label str_value f (take n labels) (take n values)
  /\ length (take n labels) = length (take n values).
Proof.
  intros n. split.
  - unfold to_libsvm. do 3 f_equal.
    rewrite <- zip_with_take. symmetry. apply take_ge.
    rewrite length_zip_with. unfold n. lia.
  - rewrite !length_take. unfold n. lia.
Qed.

(** A partition of fewer than five examples has parts of size zero: five
    empty objects are stored, and no example reaches the object store. *)
Theorem upload_to_s3_under_five (partition_name : string)
    (partition : list (list V) * list L) (w : World) :
  (length (snd partition) < 5)%nat ->
  s3_body <$> uploads (upload_to_s3 str_label str_value bucket prefix partition_name partition w)
  = ((s3_body <$> uploads w) ++ replicate 5 [])%list.
Proof.
  intros Hlt. rewrite upload_to_s3_objects. cbv zeta.
  rewrite Nat.div_small by exact Hlt. rewrite fmap_app. reflexivity.
Qed.

End Convert.

Lemma upload_to_s3_under_five_witness :
  (length (snd ([[10]; [20]; [30]], [1; 2; 3])) < 5)%nat
  /\ s3_body <$> uploads (upload_to_s3 str_int str_int "bkt" "pre" "test"
                            ([[10]; [20]; [30]], [1; 2; 3]) (mkWorld [] []))
     = replicate 5 [].
Proof.
  split; [simpl; lia|].
  apply (upload_to_s3_under_five str_int str_int "bkt" "pre" "test"
           ([[10]; [20]; [30]], [1; 2; 3]) (mkWorld [] [])).
  simpl. lia.
Defined.

End ConvertData.

(** ** The loop over the rare-word pairs (blazingtext) *)

Module RareWords.
Import Py.

Section Pairs.
Context {F : Type}.
(** The float operations of [similarity], as in the collecting loop. *)
Variable fdiv : F -> F -> F.
Variable norm : list F -> F.
Variable dot : list F -> list F -> F.
(** [s.lower()]. *)
Variable lower : string -> string.
(** [float(s)]; [None] is its [ValueError]. *)
Variable float : string -> option F.

(** The variables the loop changes. *)
Record Tally := mkTally
  { mysim : list F; gold : list F; dropped : Z; nwords : Z }.

(** The float [similarity(v1, v2)] returns, whatever the divisors are. *)
Definition cosine (v1 v2 : list F) : F :=
  let n1 := norm v1 in
  let n2 := norm v2 in
  fdiv (fdiv (dot v1 v2) n1) n2.

(** The body of [for line in fin]; [tline] is the list
    [line.decode('utf8').split()]. [None] is an exception: the [IndexError]
    of [tline[0]], [tline[1]] or [tline[2]], or the [ValueError] of
    [float]. *)
Definition pair_step (vectors : gmap string (list F)) (st : Tally) (tline : list string)
    : option Tally :=
  match index tline 0 with
  | None => None
  | Some t0 =>
      let word1 := lower t0 in
      match index tline 1 with
      | None => None
      | Some t1 =>
          let word2 := lower t1 in
          let nwords := nwords st + 1 in
          match vectors !! word1, vectors !! word2 with
          | Some v1, Some v2 =>
              let d := cosine v1 v2 in
              let mysim := (mysim st ++ [d])%list in
              match index tline 2 with
              | None => None
              | Some t2 =>
                  match float t2 with
                  | None => None
                  | Some g => Some (mkTally mysim (gold st ++ [g])%list (dropped st) nwords)
                  end
              end
          | _, _ => Some (mkTally (mysim st) (gold st) (dropped st + 1) nwords)
          end
      end
  end.

(** The loop, from [mysim = []], [gold = []], [dropped = 0], [nwords = 0]. *)
Definition pairs (vectors : gmap string (list F)) (lines : list (list string))
    : option Tally :=
  for_each (pair_step vectors) (mkTally [] [] 0 0) lines.

(** *** Views used to state the properties *)

(** Both words of the line have a vector. *)
Definition known (vectors : gmap string (list F)) (tline : list string) : bool :=
  match tline with
  | t0 :: t1 :: _ =>
      bool_decide (is_Some (vectors !! lower t0)) && bool_decide (is_Some (vectors !! lower t1))
  | _ => false
  end.

(** The line has what the body reads: two words, and a number in the third
    place when both words have a vector. *)
Definition readable (vectors : gmap string (list F)) (tline : list string) : bool :=
  match tline with
  | t0 :: t1 :: rest =>
      if known vectors tline
      then match rest with
           | t2 :: _ => bool_decide (is_Some (float t2))
           | [] => false
           end
      else true
  | _ => false
  end.

Lemma pair_step_readable vectors st tline :
  is_Some (pair_step vectors st tline) <-> readable vectors tline = true.
Proof.
  unfold pair_step, readable, known, index. simpl.
  destruct tline as [|t0 [|t1 rest]]; simpl;
    [split; [intros [? ?]|]; discriminate ..|].
  destruct (vectors !! lower t0) as [v1|]; simpl.
  2:{ split; [reflexivity | eexists; reflexivity]. }
  destruct (vectors !! lower t1) as [v2|]; simpl.
  2:{ try rewrite andb_false_r. split; [reflexivity | eexists; reflexivity]. }
  try rewrite !bool_decide_eq_true_2 by (eexists; reflexivity). simpl.
  destruct rest as [|t2 rest]; simpl; [split; [intros [? ?]|]; discriminate|].
  destruct (float t2) as [g|].
  - split; [intros _; apply bool_decide_eq_true_2; eexists; reflexivity | eexists; reflexivity].
  - split; [intros [? ?]; discriminate|].
    intros H. apply bool_decide_eq_true_1 in H as [? ?]. discriminate.
Qed.

Lemma pair_step_counts vectors st tline st' :
  pair_step vectors st tline = Some st' ->
  nwords st' = nwords st + 1
  /\ dropped st' = dropped st + (if known vectors tline then 0 else 1)
  /\ length (mysim st') = (length (mysim st) + (if known vectors tline then 1 else 0))%nat
  /\ length (gold st') = (length (gold st) + (if known vectors tline then 1 else 0))%nat.
Proof.
  unfold pair_step, known, index. simpl.
  destruct tline as [|t0 [|t1 rest]]; simpl; [discriminate ..|].
  destruct (vectors !! lower t0) as [v1|]; simpl.
  2:{ intros [= <-]. simpl. repeat split; lia. }
  destruct (vectors !! lower t1) as [v2|]; simpl.
  2:{ try rewrite andb_false_r. intros [= <-]. simpl. repeat split; lia. }
  try rewrite !bool_decide_eq_true_2 by (eexists; reflexivity). simpl.
  destruct rest as [|t2 rest]; simpl; [discriminate|].
  destruct (float t2) as [g|]; [|discriminate].
  intros [= <-]. simpl. rewrite !length_app. simpl. repeat split; lia.
Qed.

(** [cosine] is the float [similarity] gives when no divisor is zero. *)
Lemma similarity_cosine (is_zero : F -> bool) (v1 v2 : list F) (d : F) :
  Spearman.similarity is_zero fdiv norm dot v1 v2 = Some d -> d = cosine v1 v2.
Proof.
  unfold Spearman.similarity, Spearman.checked_div, cosine. cbv zeta.
  destruct (is_zero (norm v1)); [discriminate|].
  destruct (is_zero (norm v2)); [discriminate|]. intros [= <-]. reflexivity.
Qed.

(** The loop ends without an exception exactly when every line is
    readable. Then every line is counted once: [nwords] is the number of
    lines, [dropped] the number of lines with a word that has no vector,
    and [mysim] and [gold] have one entry for each of the other lines, so
    [len(mysim) = len(gold)] and [len(mysim) + dropped = nwords]. *)
Theorem pairs_counts (vectors : gmap string (list F)) (lines : list (list string)) :
  (is_Some (pairs vectors lines) <-> forallb (readable vectors) lines = true)
  /\ forall st, pairs vectors lines = Some st ->
       nwords st = Z.of_nat (length lines)
       /\ length (mysim st) = length (filter (fun tline => known vectors tline = true) lines)
       /\ length (gold st) = length (mysim st)
       /\ Z.of_nat (length (mysim st)) + dropped st = nwords st.
Proof.
  unfold pairs.
  assert (Hgen : forall st0,
    (is_Some (for_each (pair_step vectors) st0 lines)
       <-> forallb (readable vectors) lines = true)
    /\ forall st, for_each (pair_step vectors) st0 lines = Some st ->
         nwords st = nwords st0 + Z.of_nat (length lines)
         /\ length (mysim st) = (length (mysim st0)
              + length (filter (fun tline => known vectors tline = true) lines))%nat
         /\ length (gold st) = (length (gold st0)
              + length (filter (fun tline => known vectors tline = true) lines))%nat
         /\ Z.of_nat (length (mysim st)) + dropped st
            = Z.of_nat (length (mysim st0)) + dropped st0 + Z.of_nat (length lines)).
  { induction lines as [|tline lines IH]; intros st0.
    - simpl. split; [split; [reflexivity | eexists; reflexivity]|].
      intros st [= <-]. repeat split; lia.
    - cbn [for_each forallb]. rewrite filter_cons.
      destruct (pair_step vectors st0 tline) as [st1|] eqn:Hstep.
      + pose proof (proj1 (pair_step_readable vectors st0 tline)
                      ltac:(rewrite Hstep; eexists; reflexivity)) as Hread.
        rewrite Hread. simpl andb.
        destruct (IH st1) as [Hiff Hcount]. split; [exact Hiff|].
        intros st Hrun. destruct (Hcount st Hrun) as (Hn & Hm & Hg & Hd).
        destruct (pair_step_counts _ _ _ _ Hstep) as (Hn1 & Hd1 & Hm1 & Hg1).
        destruct (known vectors tline) eqn:Hk.
        * rewrite decide_True by reflexivity. simpl length. repeat split; lia.
        * rewrite decide_False by discriminate. simpl length. repeat split; lia.
      + split; [|discriminate]. split; [intros [? ?]; discriminate|].
        intros Hall. apply andb_prop in Hall as [Hread _].
        apply pair_step_readable with (st := st0) in Hread.
        rewrite Hstep in Hread. destruct Hread as [? ?]. discriminate. }
  destruct (Hgen (mkTally [] [] 0 0)) as [Hiff Hcount]. split; [exact Hiff|].
  intros st Hrun. destruct (Hcount st Hrun) as (Hn & Hm & Hg & Hd). simpl in *.
  repeat split; lia.
Qed.

End Pairs.

(** *** Three pairs, one with an unknown word *)

Example pairs_three :
  let vectors : gmap string (list Z) := {[ "cat" := [3; 4]; "emu" := [1; 0] ]} in
  pairs Z.div (fun v => 1) (fun v1 v2 => 0) id Predict.float_int vectors
    [["cat"; "emu"; "7"]; ["cat"; "dog"]; ["emu"; "cat"; "2"; "x"]]
  = Some (mkTally [0; 0] [7; 2] 1 3).
Proof. vm_compute. reflexivity. Qed.

(** A pair of known words without a score stops the loop. *)
Example pairs_no_score :
  let vectors : gmap string (list Z) := {[ "cat" := [3; 4]; "emu" := [1; 0] ]} in
  pairs Z.div (fun v => 1) (fun v1 v2 => 0) id Predict.float_int vectors
    [["cat"; "emu"]] = None.
Proof. vm_compute. reflexivity. Qed.

End RareWords.

(** ** [error_rate] on entries that are no digits *)

Module ConfusionEdges.
Import Py ErrorRate.

(** The whole numbers that index an axis of length 10: a digit, or a
    negative number down to -10, which counts from the end. *)
Definition in_axis (z : Z) : Prop := -10 <= z <= 9.

(** The row or column such an index addresses. *)
Definition axis (z : Z) : Z := z mod 10.

Lemma axis_index_axis (z : Z) : in_axis z -> axis_index 10 z = Some (Z.to_nat (axis z)).
Proof.
  intros [Hlo Hhi]. unfold axis_index, axis.
  destruct (Z.leb_spec 0 z) as [H0|H0].
  - destruct (Z.ltb_spec z 10); [|lia]. simpl. rewrite Z.mod_small by lia. reflexivity.
  - simpl. destruct (Z.leb_spec (Z.opp 10) z); [|lia]. destruct (Z.ltb_spec z 0); [|lia]. simpl.
    replace (z mod 10) with (z + 10); [reflexivity|].
    apply (Z.mod_unique z 10 (-1) (z + 10)); lia.
Qed.

Lemma axis_index_outside (z : Z) : ~ in_axis z -> axis_index 10 z = None.
Proof.
  intros Hout. unfold in_axis in Hout. unfold axis_index.
  destruct (Z.leb_spec 0 z); destruct (Z.ltb_spec z 10); simpl; try lia;
    destruct (Z.leb_spec (Z.opp 10) z); destruct (Z.ltb_spec z 0); simpl; try lia; reflexivity.
Qed.

Lemma axis_digit (z : Z) : digit (axis z).
Proof. unfold digit, axis. pose proof (Z.mod_pos_bound z 10). lia. Qed.

Lemma bump_axis (m : list (list Z)) (p a : Z) :
  in_axis p -> in_axis a -> bump m (p, a) = bump m (axis p, axis a).
Proof.
  intros Hp Ha. unfold bump. simpl fst. simpl snd.
  rewrite (axis_index_axis p Hp), (axis_index_axis a Ha).
  rewrite !axis_index_digit by apply axis_digit. reflexivity.
Qed.

Lemma bump_outside (m : list (list Z)) (p a : Z) :
  ~ in_axis p \/ ~ in_axis a -> bump m (p, a) = None.
Proof.
  intros Hout. unfold bump. simpl fst. simpl snd. destruct Hout as [Hp|Ha].
  - rewrite (axis_index_outside p Hp). reflexivity.
  - rewrite (axis_index_outside a Ha). destruct (axis_index 10 p); reflexivity.
Qed.

Lemma for_each_raises {S X} (body : S -> X -> option S) (xs : list X) (x : X) :
  x ∈ xs -> (forall s, body s x = None) -> forall s, for_each body s xs = None.
Proof.
  intros Hin Hx. induction xs as [|y xs IH]; intros s.
  - apply elem_of_nil in Hin. contradiction.
  - simpl. apply elem_of_cons in Hin as [<-|Hin]; [rewrite Hx; reflexivity|].
    destruct (body s y); [apply IH, Hin | reflexivity].
Qed.

Lemma tally_axis (pairs : list (Z * Z)) (m : list (list Z)) :
  Forall (fun pa => in_axis (fst pa) /\ in_axis (snd pa)) pairs ->
  for_each bump m pairs
  = for_each bump m ((fun pa => (axis (fst pa), axis (snd pa))) <$> pairs).
Proof.
  revert m. induction pairs as [|[p a] pairs IH]; intros m Hall; [reflexivity|].
  apply Forall_cons in Hall as [[Hp Ha] Hall]. simpl in Hp, Ha.
  rewrite fmap_cons. cbn [for_each fst snd]. rewrite <- bump_axis by assumption.
  destruct (bump m (p, a)); [apply IH, Hall | reflexivity].
Qed.

Lemma zip_axis (predictions labels : list Z) :
  (fun pa => (axis (fst pa), axis (snd pa))) <$> zip predictions labels
  = zip (axis <$> predictions) (axis <$> labels).
Proof.
  revert labels. induction predictions as [|p ps IH]; intros [|a labels]; try reflexivity.
  simpl. f_equal. apply IH.
Qed.

Lemma broadcast_longer (x : Z) (xs : list Z) : broadcast (x :: xs) 1 = x :: xs.
Proof. destruct xs; reflexivity. Qed.

Lemma one_pair_represents (p a : Z) :
  digit p -> digit a ->
  exists confusions, for_each bump zeros_10_10 [(p, a)] = Some confusions
    /\ represents confusions (positions [p] [a]).
Proof.
  intros Hp Ha.
  destruct (tally_represents [(p, a)] zeros_10_10 (fun _ _ => 0)) as (m & Hrun & Hm).
  { apply zeros_represents. }
  { intros _ _. reflexivity. }
  { apply Forall_cons. split; [split; assumption | constructor]. }
  exists m. split; [exact Hrun|].
  apply (represents_ext _ _ _ Hm). intros p' a' _ _.
  unfold positions. simpl. case_decide; reflexivity.
Qed.

Section Numpy.
Variable numpy_mismatch : Mismatch.

(** An entry below -10 or above 9 makes [confusions[int(predicted),
    int(actual)]] raise [IndexError]: [error_rate] does not return. *)
Theorem error_rate_index_error (predictions labels : list Z) (k : nat) (p a : Z) :
  length predictions = length labels ->
  predictions !! k = Some p ->
  labels !! k = Some a ->
  ~ in_axis p \/ ~ in_axis a ->
  error_rate numpy_mismatch predictions labels = None.
Proof.
  intros Hlen Hp Ha Hout. unfold error_rate.
  rewrite (sum_equal_same_length _ _ _ Hlen).
  destruct (Z.of_nat (length predictions) =? 0); [reflexivity|]. cbv zeta.
  rewrite (for_each_raises bump (zip predictions labels) (p, a)); [reflexivity| |].
  - apply list_elem_of_lookup. exists k. rewrite lookup_zip_with, Hp. simpl. rewrite Ha.
    reflexivity.
  - intros m. apply bump_outside, Hout.
Qed.

(** Negative entries from -10 to -1 raise nothing: they count from the end
    of the axis, so a prediction [-1] is tallied in row 9. The matrix is the
    one of the entries taken modulo 10, while the error is computed, in
    binary64, from the entries as they are. *)
Theorem error_rate_negative_entries (predictions labels : list Z) :
  length predictions = length labels ->
  predictions <> [] ->
  Forall in_axis predictions -> Forall in_axis labels ->
  exists confusions : list (list Z),
    error_rate numpy_mismatch predictions labels =
      Some (PrimFloat.sub (float_of_int 100)
              (PrimFloat.div
                 (PrimFloat.mul (float_of_int 100)
                    (float_of_int (count_equal predictions labels)))
                 (float_of_int (Z.of_nat (length predictions)))),
            confusions)
    /\ represents confusions
         (fun p a => wrap32 (positions (axis <$> predictions) (axis <$> labels) p a)).
Proof.
  intros Hlen Hne Hp Hl.
  destruct (error_rate_wrapped numpy_mismatch (axis <$> predictions) (axis <$> labels))
    as (m & Hrun & Hm).
  { rewrite !length_fmap. exact Hlen. }
  { rewrite length_fmap. destruct predictions; [congruence | simpl; lia]. }
  { apply Forall_fmap, Forall_forall. intros z _. apply axis_digit. }
  { apply Forall_fmap, Forall_forall. intros z _. apply axis_digit. }
  exists m. split; [|exact Hm].
  unfold error_rate in Hrun |- *.
  rewrite sum_equal_same_length in Hrun by (rewrite !length_fmap; exact Hlen).
  rewrite (sum_equal_same_length _ _ _ Hlen).
  rewrite !length_fmap in Hrun.
  destruct (Z.of_nat (length predictions) =? 0); [discriminate|]. cbv zeta in Hrun |- *.
  rewrite tally_axis, zip_axis.
  - destruct (for_each bump zeros_10_10 (zip (axis <$> predictions) (axis <$> labels)));
      [|discriminate].
    injection Hrun as ->. reflexivity.
  - rewrite !Forall_forall in *. intros [p a] Hin. simpl. split.
    + apply Hp. eapply elem_of_zip_l, Hin.
    + apply Hl. eapply elem_of_zip_r, Hin.
Qed.

(** [error_rate] does not ask for arrays of the same length. The comparison
    broadcasts an array of length 1, while [zip] stops after one pair and
    [total] is the length of [predictions]: with one prediction [p] the
    error is 100 minus 100 times the number of labels equal to [p]; with
    one label [a] it is computed from the number of predictions equal to
    [a]; and in both cases the matrix holds the single pair of the first
    prediction and the first label. *)
Theorem error_rate_broadcasts (p a : Z) (predictions labels : list Z) :
  digit p -> digit a ->
  (exists confusions : list (list Z),
     error_rate numpy_mismatch [p] (a :: labels)
       = Some (PrimFloat.sub (float_of_int 100)
                 (PrimFloat.div
                    (PrimFloat.mul (float_of_int 100)
                       (float_of_int
                          (count_equal (replicate (length (a :: labels)) p) (a :: labels))))
                    (float_of_int 1)),
               confusions)
     /\ represents confusions (positions [p] [a]))
  /\ (exists confusions : list (list Z),
        error_rate numpy_mismatch (p :: predictions) [a]
          = Some (PrimFloat.sub (float_of_int 100)
                    (PrimFloat.div
                       (PrimFloat.mul (float_of_int 100)
                          (float_of_int
                             (count_equal (p :: predictions)
                                (replicate (length (p :: predictions)) a))))
                       (float_of_int (Z.of_nat (length (p :: predictions))))),
                  confusions)
        /\ represents confusions (positions [p] [a])).
Proof.
  intros Hp Ha. destruct (one_pair_represents p a Hp Ha) as (m & Hrun & Hm). split.
  - exists m. split; [|exact Hm].
    unfold error_rate, sum_equal. cbv zeta.
    change (length [p]) with 1%nat. rewrite broadcast_longer.
    change (broadcast [p] (length (a :: labels))) with (replicate (length (a :: labels)) p).
    rewrite length_replicate, Nat.eqb_refl.
    change (Z.of_nat 1 =? 0) with false. cbv iota.
    change (zip [p] (a :: labels)) with [(p, a)]. rewrite Hrun. reflexivity.
  - exists m. split; [|exact Hm].
    unfold error_rate, sum_equal. cbv zeta.
    change (length [a]) with 1%nat. rewrite broadcast_longer.
    change (broadcast [a] (length (p :: predictions)))
      with (replicate (length (p :: predictions)) a).
    rewrite length_replicate, Nat.eqb_refl.
    destruct (Z.eqb_spec (Z.of_nat (length (p :: predictions))) 0) as [H0|_];
      [simpl in H0; lia|].
    replace (zip (p :: predictions) [a]) with [(p, a)] by (destruct predictions; reflexivity).
    rewrite Hrun. reflexivity.
Qed.

End Numpy.

(** *** Examples *)

(** A prediction -1 for the label 9: counted as an error, tallied at
    (9, 9). *)
Example error_rate_minus_one :
  exists confusions,
    error_rate ComparesFalse [-1] [9] = Some (float_of_int 100, confusions)
    /\ entry confusions 9 9 = Some 1.
Proof. eexists. split; vm_compute; reflexivity. Qed.

(** One prediction against three labels gives the error -200.0, three
    predictions against one label the error 0.0; one pair is tallied. *)
Example error_rate_one_three :
  (exists confusions, error_rate RaisesValueError [1] [1; 1; 1]
                      = Some (float_of_int (-200), confusions)
     /\ sumZ (sumZ (fun x => x)) confusions = 1)
  /\ (exists confusions, error_rate RaisesValueError [1; 1; 1] [1]
                         = Some (float_of_int 0, confusions)
        /\ sumZ (sumZ (fun x => x)) confusions = 1).
Proof. split; eexists; split; vm_compute; reflexivity. Qed.

Lemma error_rate_index_error_witness :
  length [3; 10] = length [3; 4]
  /\ error_rate ComparesFalse [3; 10] [3; 4] = None.
Proof.
  split; [reflexivity|].
  apply (error_rate_index_error ComparesFalse [3; 10] [3; 4] 1 10 4); try reflexivity.
  left. unfold in_axis. lia.
Defined.

Lemma error_rate_negative_entries_witness :
  length [-1; 2] = length [9; 2]
  /\ exists confusions : list (list Z),
       error_rate ComparesFalse [-1; 2] [9; 2] = Some (float_of_int 50, confusions)
       /\ entry confusions 9 9 = Some 1.
Proof.
  split; [reflexivity|].
  destruct (error_rate_negative_entries ComparesFalse [-1; 2] [9; 2]) as (m & Hrun & Hm).
  - reflexivity.
  - discriminate.
  - repeat (apply Forall_cons; split; [unfold in_axis; lia|]). constructor.
  - repeat (apply Forall_cons; split; [unfold in_axis; lia|]). constructor.
  - exists m. split.
    + rewrite Hrun. vm_compute. reflexivity.
    + destruct Hm as (_ & _ & Hent). rewrite (Hent 9 9) by (unfold digit; lia).
      reflexivity.
Defined.

Lemma error_rate_broadcasts_witness :
  digit 1
  /\ exists confusions : list (list Z),
       error_rate RaisesValueError [1] [1; 1; 1] = Some (float_of_int (-200), confusions)
       /\ entry confusions 1 1 = Some 1.
Proof.
  split; [unfold digit; lia|].
  destruct (error_rate_broadcasts RaisesValueError 1 1 [] [1; 1]) as [(m & Hrun & Hm) _].
  - unfold digit. lia.
  - unfold digit. lia.
  - exists m. split.
    + rewrite Hrun. vm_compute. reflexivity.
    + destruct Hm as (_ & _ & Hent). rewrite (Hent 1 1) by (unfold digit; lia).
      reflexivity.
Defined.

End ConfusionEdges.

(** ** The colours of the boxes ([visualize_detection]) *)

Module DetectionColors.
Import Py Detection.

(** The edge colours of the rectangles among the artists, and the face
    colours of the text boxes. *)
Definition edge_colors (arts : list Artist) : list Color :=
  omap (fun a => match a with
                 | Rectangle _ _ _ c => Some c
                 | _ => None
                 end) arts.

Definition face_colors (arts : list Artist) : list Color :=
  omap (fun a => match a with
                 | Text _ _ _ c => Some c
                 | _ => None
                 end) arts.

(** [cls_id] of a detection whose [klass] is finite. *)
Definition cls_id (det : Det) : Z :=
  match int_of_float (klass det) with
  | Some z => z
  | None => 0
  end.

Section Colors.
Variable imread_shape : string -> Z * Z.
Variable random : nat -> PrimFloat.float.
Variable format_3f : PrimFloat.float -> string.

(** One turn of the loop for a detection that is drawn. *)
Lemma draw_det_colors height width classes thresh st det st1 :
  not_below thresh det ->
  draw_det random format_3f height width classes thresh st det = inr st1 ->
  int_of_float (klass det) = Some (cls_id det)
  /\ exists color,
    colors st1 = <[cls_id det := color]> (colors st)
    /\ edge_colors (axes (world st1)) = (edge_colors (axes (world st)) ++ [color])%list
    /\ face_colors (axes (world st1)) = (face_colors (axes (world st)) ++ [color])%list
    /\ shows (world st1) = shows (world st)
    /\ match colors st !! cls_id det with
       | Some c => color = c /\ drawn_numbers (world st1) = drawn_numbers (world st)
       | None =>
           let k := drawn_numbers (world st) in
           color = (random k, random (k + 1)%nat, random (k + 2)%nat)
           /\ drawn_numbers (world st1) = (k + 3)%nat
       end.
Proof.
  intros Hnot. unfold draw_det, cls_id, int_exn. unfold not_below in Hnot. rewrite Hnot.
  destruct (int_of_float (klass det)) as [id|]; [|discriminate].
  destruct (match colors st !! id with
            | Some c => (c, world st)
            | None => random_color random (world st)
            end) as [color w] eqn:Hcolor.
  destruct (int_of_float (PrimFloat.mul (x0 det) (float_of_int width))); [|discriminate].
  destruct (int_of_float (PrimFloat.mul (y0 det) (float_of_int height)));
    [|discriminate].
  destruct (int_of_float (PrimFloat.mul (x1 det) (float_of_int width))); [|discriminate].
  destruct (int_of_float (PrimFloat.mul (y1 det) (float_of_int height)));
    [|discriminate].
  destruct (if negb (bool_decide (classes = [])) && (id <? Z.of_nat (length classes))
            then index classes id else Some (str_int id))
    as [class_name|]; [|discriminate].
  intros [= <-]. split; [reflexivity|]. exists color. simpl.
  unfold edge_colors, face_colors. rewrite !omap_app. simpl. rewrite !app_nil_r.
  split; [reflexivity|].
  destruct (colors st !! id) as [c|].
  - injection Hcolor as <- <-. repeat split.
  - unfold random_color in Hcolor. injection Hcolor as <- <-. simpl. repeat split.
Qed.

(** The loop: the dictionary [colors] only grows, every drawn detection
    gets the colour the dictionary holds for its class at the end, and
    three random numbers are used for each class that is new. *)
Lemma draw_loop_colors height width classes thresh (dets : list Det) :
  forall st st',
  for_each (draw_det random format_3f height width classes thresh) st dets = inr st' ->
  let drawn := filter (not_below thresh) dets in
  Forall (fun det => int_of_float (klass det) = Some (cls_id det)) drawn
  /\ colors st ⊆ colors st'
  /\ dom (colors st') = dom (colors st) ∪ list_to_set (cls_id <$> drawn)
  /\ (exists cs,
        edge_colors (axes (world st')) = (edge_colors (axes (world st)) ++ cs)%list
        /\ face_colors (axes (world st')) = (face_colors (axes (world st)) ++ cs)%list
        /\ Some <$> cs = (fun det => colors st' !! cls_id det) <$> drawn)
  /\ shows (world st') = shows (world st)
  /\ (drawn_numbers (world st') + 3 * size (colors st)
      = drawn_numbers (world st) + 3 * size (colors st'))%nat.
Proof.
  induction dets as [|det dets IH]; intros st st' Hrun drawn.
  - injection Hrun as <-. subst drawn. rewrite filter_nil. simpl.
    split; [constructor|].
    split; [reflexivity|]. split; [symmetry; apply union_empty_r_L|].
    split; [exists []; rewrite !app_nil_r; repeat split|]. split; [reflexivity | lia].
  - cbn [for_each] in Hrun. subst drawn. rewrite filter_cons.
    destruct (decide (not_below thresh det)) as [Hnot|Hbelow].
    + destruct (draw_det random format_3f height width classes thresh st det)
        as [raised|st1] eqn:Hstep; [discriminate|].
      destruct (draw_det_colors _ _ _ _ _ _ _ Hnot Hstep)
        as (Hid & color & Hcolors & Hedge & Hface & Hshows & Hnew).
      destruct (IH st1 st' Hrun)
        as (Hids & Hsub & Hdom & (cs & He & Hf & Hcs) & Hsh & Hnum).
      assert (Hst1 : colors st1 !! cls_id det = Some color).
      { rewrite Hcolors. apply lookup_insert_eq. }
      assert (Hsub0 : colors st ⊆ colors st1).
      { rewrite Hcolors. destruct (colors st !! cls_id det) as [c|] eqn:Hc.
        - destruct Hnew as [-> _]. rewrite insert_id by exact Hc. reflexivity.
        - apply insert_subseteq, Hc. }
      split; [apply Forall_cons; split; assumption|].
      split; [etransitivity; eassumption|]. split.
      { rewrite Hdom, Hcolors, dom_insert_L, fmap_cons. cbn [list_to_set].
        rewrite (union_comm_L {[cls_id det]} (dom (colors st))), <- union_assoc_L.
        reflexivity. }
      split.
      { exists (color :: cs). rewrite He, Hf, Hedge, Hface, <- !app_assoc.
        split; [reflexivity|]. split; [reflexivity|].
        rewrite !fmap_cons. f_equal; [|exact Hcs].
        symmetry. eapply lookup_weaken; eassumption. }
      split; [congruence|].
      destruct (colors st !! cls_id det) as [c|] eqn:Hc.
      * destruct Hnew as [-> Hn]. rewrite Hcolors, insert_id in Hnum by exact Hc. lia.
      * destruct Hnew as [_ Hn]. cbv zeta in Hn.
        rewrite Hcolors, map_size_insert_None in Hnum by exact Hc. lia.
    + rewrite draw_det_below in Hrun by (unfold not_below in Hbelow;
        destruct (PrimFloat.ltb (score det) thresh); congruence).
      apply (IH st st' Hrun).
Qed.

(** When [visualize_detection] returns, the boxes are coloured by class.
    The detections drawn are those whose score is not below the threshold
    (the test of the code is [score < thresh], so a score that is a NaN is
    drawn); each has a whole number as class id; there is one colour for
    each class id that is drawn, every rectangle and every text box of a
    detection with that class id has it, three random numbers have been
    used for each such class id, and [plt.show()] has run once. *)
Theorem visualize_detection_colors (img_file : string) (dets : list Det)
    (classes : list string) (thresh : PrimFloat.float) (w w' : World) :
  visualize_detection imread_shape random format_3f img_file dets classes thresh w = inr w' ->
  let drawn := filter (fun det => PrimFloat.ltb (score det) thresh = false) dets in
  exists (colors : gmap Z Color) (cs : list Color),
    Forall (fun det => int_of_float (klass det) = Some (cls_id det)) drawn
    /\ dom colors = list_to_set (cls_id <$> drawn)
    /\ Some <$> cs = (fun det => colors !! cls_id det) <$> drawn
    /\ edge_colors (axes w') = (edge_colors (axes w) ++ cs)%list
    /\ face_colors (axes w') = (face_colors (axes w) ++ cs)%list
    /\ drawn_numbers w' = (drawn_numbers w + 3 * size colors)%nat
    /\ shows w' = S (shows w).
Proof.
  unfold visualize_detection. destruct (imread_shape img_file) as [height width].
  destruct (for_each _ _ dets) as [raised|st'] eqn:Hrun; [discriminate|].
  intros [= <-].
  destruct (draw_loop_colors _ _ _ _ _ _ _ Hrun)
    as (Hids & _ & Hdom & (cs & He & Hf & Hcs) & Hsh & Hnum).
  exists (colors st'), cs. simpl in *.
  split; [exact Hids|].
  split; [rewrite Hdom, dom_empty_L; apply union_empty_l_L|]. split; [exact Hcs|].
  unfold edge_colors, face_colors in *. rewrite !omap_app in *. simpl in *.
  rewrite !app_nil_r in *.
  split; [exact He|]. split; [exact Hf|]. rewrite map_size_empty in Hnum.
  split; [lia | congruence].
Qed.

End Colors.

Lemma visualize_detection_colors_witness :
  let dets := [mkDet (float_of_int 1) (hundredths 90) (hundredths 10) (hundredths 25)
                 (hundredths 50) (hundredths 75);
               mkDet (float_of_int 0) (hundredths 50) (float_of_int 0) (float_of_int 0)
                 (float_of_int 1) (float_of_int 1);
               mkDet (float_of_int 1) PrimFloat.nan (hundredths 33) (hundredths 33)
                 (hundredths 67) (hundredths 67)] in
  exists w',
    visualize_detection shape_100_200 tenths thousandths "img.jpg"
      dets ["cat"; "dog"] (hundredths 60) (mkWorld [] 0 0) = inr w'
    /\ length (edge_colors (axes w')) = 2%nat
    /\ drawn_numbers w' = 3%nat
    /\ shows w' = 1%nat.
Proof.
  intros dets. eexists. split; [vm_compute; reflexivity|].
  destruct (visualize_detection_colors shape_100_200 tenths thousandths "img.jpg"
              dets ["cat"; "dog"] (hundredths 60) (mkWorld [] 0 0) _ eq_refl)
    as (colors & cs & _ & _ & _ & _ & _ & Hnum & Hshows).
  split; [reflexivity|]. split; [|exact Hshows]. vm_compute. reflexivity.
Defined.

End DetectionColors.

(** ** The request of the forecasting predictor ([__encode_request]) *)

Module DeepAR.
Import Py Series Predict.

Section Request.
Context {Num Time : Type}.
Variable str_time : Time -> string.
Variable json_dumps : @Value Num -> string.
(** [s.encode(encoding)]. *)
Variable encode : string -> string -> list byte.

(** A Python value as the argument [cat] of [series_to_obj]. *)
Definition as_cat (v : @Value Num) : option (@Value Num) :=
  match v with
  | VNone => None
  | _ => Some v
  end.

(** [cat[k] if cat else None]: [None] and the empty list are false. The
    outer [None] is the [IndexError] of [cat[k]]. *)
Definition category (cat : option (list (@Value Num))) (k : Z) : option (option (@Value Num)) :=
  match cat with
  | None => Some None
  | Some cats =>
      match cats with
      | [] => Some None
      | _ :: _ =>
          match Py.index cats k with
          | Some v => Some (as_cat v)
          | None => None
          end
      end
  end.

(** The comprehension that builds [instances]. *)
Definition instances (ts : list (@TimeSeries Num Time)) (cat : option (list (@Value Num)))
    : option (list (list (string * @Value Num))) :=
  comprehension
    (fun k =>
       match Py.index ts k with
       | None => None
       | Some t =>
           match category cat k with
           | None => None
           | Some c => series_to_obj str_time t c
           end
       end)
    (range (Z.of_nat (length ts))).

(** [__encode_request(ts, cat, encoding, num_samples, quantiles)]. *)
Definition encode_request (ts : list (@TimeSeries Num Time))
    (cat : option (list (@Value Num))) (encoding : string) (num_samples : Z)
    (quantiles : list string) : option (list byte) :=
  match instances ts cat with
  | None => None
  | Some instances =>
      let configuration :=
        [("num_samples", VInt num_samples);
         ("output_types", VList [VStr "quantiles"]);
         ("quantiles", VList (VStr <$> quantiles))] in
      let http_request_data :=
        [("instances", VList (VDict <$> instances));
         ("configuration", VDict configuration)] in
      Some (encode (json_dumps (VDict http_request_data)) encoding)
  end.

(** *** Views used to state the properties *)

(** The category each series is given: none when [cat] is false, the
    entries of [cat] otherwise. *)
Definition categories (cat : option (list (@Value Num))) (n : nat)
    : list (option (@Value Num)) :=
  match cat with
  | None => replicate n None
  | Some cats =>
      match cats with
      | [] => replicate n None
      | _ :: _ => as_cat <$> cats
      end
  end.

Lemma comprehension_Forall2 {X Y} (f : X -> option Y) (xs : list X) (ys : list Y) :
  comprehension f xs = Some ys <-> Forall2 (fun x y => f x = Some y) xs ys.
Proof.
  revert ys. induction xs as [|x xs IH]; intros ys; simpl.
  - split; [intros [= <-]; constructor | intros H; inversion H; reflexivity].
  - split.
    + intros H. destruct (f x) as [y|] eqn:Hx; [|discriminate].
      destruct (comprehension f xs) as [ys'|]; [|discriminate].
      injection H as <-. constructor; [exact Hx | apply IH; reflexivity].
    + intros H. inversion H as [|x' y xs' ys' Hx Hrest]; subst.
      rewrite Hx. apply IH in Hrest. rewrite Hrest. reflexivity.
Qed.

Lemma index_nat {A} (xs : list A) (k : nat) : Py.index xs (Z.of_nat k) = xs !! k.
Proof.
  unfold Py.index. destruct (Z.leb_spec 0 (Z.of_nat k)); [|lia].
  rewrite Nat2Z.id. reflexivity.
Qed.

Lemma category_lookup (cat : option (list (@Value Num))) (n k : nat) :
  (k < n)%nat ->
  category cat (Z.of_nat k) = categories cat n !! k.
Proof.
  intros Hk. unfold category, categories.
  destruct cat as [[|c cats]|]; try (rewrite lookup_replicate_2 by exact Hk; reflexivity).
  rewrite index_nat, list_lookup_fmap. destruct ((c :: cats) !! k); reflexivity.
Qed.

(** The instances of the request are the objects of the series, series
    [k] with the category [cat[k]], or without a category when [cat] is
    [None] or empty; and a [cat] that is not empty but shorter than [ts]
    raises [IndexError]: no request is built. *)
Theorem encode_request_categories (ts : list (@TimeSeries Num Time))
    (cat : option (list (@Value Num))) :
  (forall objs,
     instances ts cat = Some objs <->
     (length ts <= length (categories cat (length ts)))%nat
     /\ Forall2 (fun tc obj => series_to_obj str_time (fst tc) (snd tc) = Some obj)
          (zip ts (categories cat (length ts))) objs)
  /\ (forall cats encoding num_samples quantiles,
        cat = Some cats -> cats <> [] -> (length cats < length ts)%nat ->
        encode_request ts cat encoding num_samples quantiles = None).
Proof.
  assert (Hinst : forall objs,
     instances ts cat = Some objs <->
     (length ts <= length (categories cat (length ts)))%nat
     /\ Forall2 (fun tc obj => series_to_obj str_time (fst tc) (snd tc) = Some obj)
          (zip ts (categories cat (length ts))) objs).
  { intros objs. unfold instances. rewrite comprehension_Forall2.
    rewrite !Forall2_same_length_lookup. unfold range. rewrite Nat2Z.id.
    rewrite length_fmap, length_seq. split.
    - intros [Hlen Hall].
      assert (Hcats : (length ts <= length (categories cat (length ts)))%nat).
      { destruct (decide (length ts <= length (categories cat (length ts)))%nat)
          as [H|H]; [exact H|]. exfalso.
        set (k := length (categories cat (length ts))) in *.
        destruct (lookup_lt_is_Some_2 objs k ltac:(lia)) as [obj Hobj].
        specialize (Hall k (Z.of_nat k) obj).
        rewrite list_lookup_fmap, lookup_seq_lt in Hall by lia.
        specialize (Hall eq_refl Hobj). rewrite index_nat in Hall.
        destruct (ts !! k) as [t|]; [|discriminate].
        rewrite (category_lookup cat (length ts) k) in Hall by lia.
        rewrite lookup_ge_None_2 in Hall by (unfold k; lia). discriminate. }
      split; [exact Hcats|]. split; [rewrite length_zip_with; lia|].
      intros i [t c] obj Hi Hobj. simpl.
      apply lookup_zip_with_Some in Hi as (t' & c' & [= <- <-] & Ht & Hc).
      specialize (Hall i (Z.of_nat i) obj).
      rewrite list_lookup_fmap, lookup_seq_lt in Hall by (eapply lookup_lt_Some, Ht).
      specialize (Hall eq_refl Hobj). rewrite index_nat, Ht in Hall.
      rewrite (category_lookup cat (length ts) i) in Hall by (eapply lookup_lt_Some, Ht).
      rewrite Hc in Hall. exact Hall.
    - intros [Hcats [Hlen Hall]]. rewrite length_zip_with in Hlen.
      split; [lia|]. intros i k obj Hk Hobj.
      rewrite list_lookup_fmap in Hk. apply fmap_Some in Hk as (j & Hj & ->).
      apply lookup_seq in Hj as [-> Hlt]. simpl in *.
      rewrite index_nat.
      destruct (lookup_lt_is_Some_2 ts i Hlt) as [t Ht]. rewrite Ht.
      rewrite (category_lookup cat (length ts) i) by exact Hlt.
      destruct (lookup_lt_is_Some_2 (categories cat (length ts)) i ltac:(lia)) as [c Hc].
      rewrite Hc. apply (Hall i (t, c) obj); [|exact Hobj].
      apply lookup_zip_with_Some. exists t, c. repeat split; assumption. }
  split; [exact Hinst|].
  intros cats encoding num_samples quantiles -> Hne Hlt. unfold encode_request.
  destruct (instances ts (Some cats)) as [objs|] eqn:Hobjs; [|reflexivity].
  destruct (proj1 (Hinst objs) eq_refl) as [Hlen _]. exfalso.
  unfold categories in Hlen. destruct cats; [congruence|].
  rewrite length_fmap in Hlen. lia.
Qed.

End Request.

(** *** Two series and one category *)

Example encode_request_two :
  encode_request str_int dumps (fun s _ => bytes_utf8 s)
    [mkSeries [17; 18] [5; 0]; mkSeries [20] [9]] (Some [VInt 3; VNone]) "utf-8" 100 ["0.5"]
  = Some (bytes_utf8
      ("{" ++ dquote ++ "instances" ++ dquote ++ ": [{"
       ++ dquote ++ "start" ++ dquote ++ ": " ++ dquote ++ "17" ++ dquote ++ ", "
       ++ dquote ++ "target" ++ dquote ++ ": [5, 0], "
       ++ dquote ++ "cat" ++ dquote ++ ": 3}, {"
       ++ dquote ++ "start" ++ dquote ++ ": " ++ dquote ++ "20" ++ dquote ++ ", "
       ++ dquote ++ "target" ++ dquote ++ ": [9]}], "
       ++ dquote ++ "configuration" ++ dquote ++ ": {"
       ++ dquote ++ "num_samples" ++ dquote ++ ": 100, "
       ++ dquote ++ "output_types" ++ dquote ++ ": [" ++ dquote ++ "quantiles" ++ dquote ++ "], "
       ++ dquote ++ "quantiles" ++ dquote ++ ": [" ++ dquote ++ "0.5" ++ dquote ++ "]}}")).
Proof. vm_compute. reflexivity. Qed.

Example encode_request_short_cat :
  encode_request str_int dumps (fun s _ => bytes_utf8 s)
    [mkSeries [17; 18] [5; 0]; mkSeries [20] [9]] (Some [VInt 3]) "utf-8" 100 ["0.5"]
  = None.
Proof. vm_compute. reflexivity. Qed.

End DeepAR.

(** ** Uploading files to a channel (the two other [upload_to_s3]) *)

Module Channels.
Import Py.

(** The local files, the objects of the store by bucket and key, and the
    lines printed. *)
Record World := mkWorld
  { files : gmap string (list byte);
    store : gmap (string * string) (list byte);
    stdout : list string }.

Definition print (line : string) (w : World) : World :=
  mkWorld (files w) (store w) (stdout w ++ [line])%list.

(** [open(filename, "rb")]: the bytes of the file; [None] is the
    [FileNotFoundError]. *)
Definition open_rb (filename : string) (w : World) : option (list byte) :=
  files w !! filename.

(** [write_to_s3(fobj, bucket, key)] and [put_object(Key=key, Body=data)]
    on a file just opened: the object under [key] is the whole file, in
    place of what was there. *)
Definition put_object (bucket key : string) (body : list byte) (w : World) : World :=
  mkWorld (files w) (<[(bucket, key) := body]> (store w)) (stdout w).

Section Prefix.
(** The notebook's global [prefix]. *)
Variable prefix : string.

(** [upload_to_s3(bucket, channel, filename)] of the regression notebook. *)
Definition upload_to_s3 (bucket channel filename : string) (w : World) : option World :=
  match open_rb filename w with
  | None => None
  | Some fobj =>
      let key := prefix ++ "/" ++ channel in
      let url := "s3://" ++ bucket ++ "/" ++ key ++ "/" ++ filename in
      let w := print ("Writing to " ++ url) w in
      Some (put_object bucket key fobj w)
  end.

End Prefix.

(** [upload_to_s3(bucket, prefix, channel, file)] of the translation
    notebook. *)
Definition upload_to_s3_file (bucket prefix channel file : string) (w : World)
    : option World :=
  match open_rb file w with
  | None => None
  | Some data =>
      let key := prefix ++ "/" ++ channel ++ "/" ++ file in
      Some (put_object bucket key data w)
  end.

(** The key the first function writes to, and the address it prints. *)
Definition channel_key (prefix channel : string) : string := prefix ++ "/" ++ channel.

Definition printed_url (bucket key filename : string) : string :=
  "s3://" ++ bucket ++ "/" ++ key ++ "/" ++ filename.

(** The key of the first function does not hold the file name, although
    the address it prints does: a second file sent to the same channel
    replaces the first, and the store ends as if only the second had been
    uploaded. *)
Theorem upload_to_s3_same_channel (prefix bucket channel file1 file2 : string)
    (body1 body2 : list byte) (w : World) :
  files w !! file1 = Some body1 ->
  files w !! file2 = Some body2 ->
  exists w1 w2,
    upload_to_s3 prefix bucket channel file1 w = Some w1
    /\ upload_to_s3 prefix bucket channel file2 w1 = Some w2
    /\ store w2 = <[(bucket, channel_key prefix channel) := body2]> (store w)
    /\ stdout w2 = (stdout w ++
         [("Writing to " ++ printed_url bucket (channel_key prefix channel) file1)%string;
          ("Writing to " ++ printed_url bucket (channel_key prefix channel) file2)%string])%list.
Proof.
  intros H1 H2. unfold upload_to_s3, open_rb. rewrite H1. eexists. eexists.
  split; [reflexivity|]. simpl. rewrite H2. split; [reflexivity|]. simpl.
  split; [apply insert_insert_eq|]. rewrite <- app_assoc. reflexivity.
Qed.

(** The key of the second function ends with the file name: different
    files sent to the same channel are both kept. *)
Theorem upload_to_s3_file_kept (bucket prefix channel file1 file2 : string)
    (body1 body2 : list byte) (w : World) :
  files w !! file1 = Some body1 ->
  files w !! file2 = Some body2 ->
  file1 <> file2 ->
  exists w1 w2,
    upload_to_s3_file bucket prefix channel file1 w = Some w1
    /\ upload_to_s3_file bucket prefix channel file2 w1 = Some w2
    /\ store w2 !! (bucket, (prefix ++ "/" ++ channel ++ "/" ++ file1)%string) = Some body1
    /\ store w2 !! (bucket, (prefix ++ "/" ++ channel ++ "/" ++ file2)%string) = Some body2.
Proof.
  intros H1 H2 Hne. unfold upload_to_s3_file, open_rb. rewrite H1. eexists. eexists.
  split; [reflexivity|]. simpl. rewrite H2. split; [reflexivity|]. simpl.
  split; [|apply lookup_insert_eq].
  rewrite lookup_insert_ne; [apply lookup_insert_eq|].
  intros [= H]. apply Hne. symmetry.
  do 4 apply Predict.append_inj_l in H. exact H.
Qed.

(** *** Two local files *)

Definition two_files : World :=
  mkWorld {[ "abalone.train" := [x31]; "abalone.test" := [x32] ]} ∅ [].

Example upload_to_s3_missing_file :
  upload_to_s3 "pre" "bkt" "train" "abalone.validation" two_files = None.
Proof. reflexivity. Qed.

Lemma upload_to_s3_same_channel_witness :
  exists w1 w2,
    upload_to_s3 "pre" "bkt" "train" "abalone.train" two_files = Some w1
    /\ upload_to_s3 "pre" "bkt" "train" "abalone.test" w1 = Some w2
    /\ store w2 = {[ ("bkt", "pre/train") := [x32] ]}.
Proof.
  destruct (upload_to_s3_same_channel "pre" "bkt" "train" "abalone.train" "abalone.test"
              [x31] [x32] two_files eq_refl eq_refl) as (w1 & w2 & Hw1 & Hw2 & Hstore & _).
  exists w1, w2. split; [exact Hw1|]. split; [exact Hw2|]. rewrite Hstore. reflexivity.
Defined.

Lemma upload_to_s3_file_kept_witness :
  "abalone.train" <> "abalone.test"
  /\ exists w1 w2,
       upload_to_s3_file "bkt" "pre" "train" "abalone.train" two_files = Some w1
       /\ upload_to_s3_file "bkt" "pre" "train" "abalone.test" w1 = Some w2
       /\ store w2 !! ("bkt", "pre/train/abalone.train") = Some [x31].
Proof.
  split; [discriminate|].
  destruct (upload_to_s3_file_kept "bkt" "pre" "train" "abalone.train" "abalone.test"
              [x31] [x32] two_files eq_refl eq_refl ltac:(discriminate))
    as (w1 & w2 & Hw1 & Hw2 & Hkept & _).
  exists w1, w2. split; [exact Hw1|]. split; [exact Hw2|]. exact Hkept.
Defined.

End Channels.

(** ** Reading back what [to_libsvm] wrote *)

Module ReadBack.
Import Py Predict BatchPredict Evaluation Libsvm.

(** No character of the text is white space. *)
Fixpoint no_space (s : string) : bool :=
  match s with
  | EmptyString => true
  | String c rest => negb (isspace c) && no_space rest
  end.

(** The text is not empty and free of white space: the form of a number. *)
Definition plain (s : string) : Prop := s <> "" /\ no_space s = true.

(** The text is not empty and its first character is no white space. *)
Definition starts_plain (s : string) : bool :=
  match s with
  | EmptyString => false
  | String c _ => negb (isspace c)
  end.

(** The text is not empty and its last character is no white space. *)
Fixpoint ends_plain (s : string) : bool :=
  match s with
  | EmptyString => false
  | String c rest =>
      match rest with
      | EmptyString => negb (isspace c)
      | String _ _ => ends_plain rest
      end
  end.

(** *** White space and [strip] *)

Lemma lstrip_starts_plain (s : string) : starts_plain s = true -> lstrip s = s.
Proof.
  destruct s as [|c s]; [discriminate|]. simpl. intros H.
  destruct (isspace c); [discriminate | reflexivity].
Qed.

Lemma rstrip_ends_plain (s : string) : ends_plain s = true -> rstrip s = s.
Proof.
  induction s as [|c s IH]; [discriminate|]. cbn [ends_plain rstrip].
  destruct s as [|d s].
  - simpl. intros H. destruct (isspace c); [discriminate | reflexivity].
  - intros H. rewrite (IH H). reflexivity.
Qed.

Lemma strip_plain_ends (s : string) :
  starts_plain s = true -> ends_plain s = true -> strip s = s.
Proof.
  intros Hs He. unfold strip. rewrite lstrip_starts_plain by exact Hs.
  apply rstrip_ends_plain, He.
Qed.

Lemma starts_plain_app (a b : string) : starts_plain a = true -> starts_plain (a ++ b) = true.
Proof. destruct a as [|c a]; [discriminate|]. intros H. exact H. Qed.

Lemma ends_plain_app (a b : string) : ends_plain b = true -> ends_plain (a ++ b) = true.
Proof.
  intros Hb. induction a as [|c a IH]; [exact Hb|].
  rewrite append_cons. cbn [ends_plain].
  destruct (a ++ b) as [|d r] eqn:Hab; [discriminate IH | exact IH].
Qed.

Lemma plain_starts (s : string) : plain s -> starts_plain s = true.
Proof.
  intros [Hne Hs]. destruct s as [|c s]; [congruence|]. simpl in *.
  apply andb_prop in Hs as [Hc _]. exact Hc.
Qed.

Lemma plain_ends (s : string) : plain s -> ends_plain s = true.
Proof.
  intros [Hne Hs]. induction s as [|c s IH]; [congruence|]. cbn [ends_plain no_space] in *.
  apply andb_prop in Hs as [Hc Hs]. destruct s as [|d s]; [exact Hc|].
  apply IH; [discriminate | exact Hs].
Qed.

Lemma no_space_occurrences (c : ascii) (s : string) :
  isspace c = true -> no_space s = true -> occurrences c s = 0%nat.
Proof.
  intros Hc. induction s as [|x s IH]; [reflexivity|]. cbn [no_space occurrences].
  intros H. apply andb_prop in H as [Hx Hs]. rewrite (IH Hs).
  destruct (Ascii.eqb_spec x c) as [->|_]; [|reflexivity].
  rewrite Hc in Hx. discriminate.
Qed.

Lemma occurrences_app (c : ascii) (a b : string) :
  occurrences c (a ++ b) = (occurrences c a + occurrences c b)%nat.
Proof.
  induction a as [|x a IH]; [reflexivity|].
  rewrite append_cons. cbn [occurrences]. rewrite IH. lia.
Qed.

Lemma occurrences_join (c : ascii) (sep : string) (xs : list string) :
  occurrences c sep = 0%nat ->
  Forall (fun x => occurrences c x = 0%nat) xs ->
  occurrences c (join sep xs) = 0%nat.
Proof.
  intros Hsep. induction xs as [|x xs IH]; intros Hall; [reflexivity|].
  apply Forall_cons in Hall as [Hx Hall]. destruct xs as [|y ys]; [exact Hx|].
  change (join sep (x :: y :: ys)) with (x ++ sep ++ join sep (y :: ys)).
  rewrite !occurrences_app, Hx, Hsep, IH by exact Hall. reflexivity.
Qed.

(** The text of a whole number: digits, after a minus sign for a negative
    number. *)
Lemma no_space_uint (d : Decimal.uint) : no_space (NilEmpty.string_of_uint d) = true.
Proof. induction d; simpl; try exact IHd; reflexivity. Qed.

Lemma str_int_no_space (z : Z) : no_space (str_int z) = true.
Proof.
  unfold str_int, NilZero.string_of_int.
  assert (Huint : forall d, no_space (NilZero.string_of_uint d) = true).
  { intros d. unfold NilZero.string_of_uint. destruct d; try reflexivity;
      match goal with |- no_space (NilEmpty.string_of_uint ?u) = true =>
        apply (no_space_uint u) end. }
  destruct (Z.to_int z) as [d|d]; [apply Huint|].
  cbn [no_space]. rewrite Huint. reflexivity.
Qed.

Lemma comprehension_images {X Y Z'} (f : Y -> option Z') (g : X -> Y) (h : X -> Z')
    (xs : list X) :
  (forall x, x ∈ xs -> f (g x) = Some (h x)) ->
  comprehension f (g <$> xs) = Some (h <$> xs).
Proof.
  induction xs as [|x xs IH]; intros Hall; [reflexivity|].
  rewrite !fmap_cons. cbn [comprehension].
  rewrite Hall by apply list_elem_of_here.
  rewrite IH; [reflexivity|]. intros y Hy. apply Hall, list_elem_of_further, Hy.
Qed.

Section Written.
Context {L V F W : Type}.
Variable str_label : L -> string.
Variable str_value : V -> string.
Variable float : string -> option F.
Variable ne : F -> F -> bool.
Variable invoke_endpoint : string -> string -> string -> W -> option (list byte * W).
Variable stdout_write : string -> W -> W.
(** The float a label stands for. *)
Variable num : L -> F.

(** The labels and the values have the text form of numbers, and [float]
    reads the text of a label as its number. *)
Definition label_ok (label : L) : Prop :=
  plain (str_label label) /\ float (str_label label) = Some (num label).

Definition row_ok (vec : list V) : Prop :=
  vec <> [] /\ Forall (fun el => plain (str_value el)) vec.

Definition feature (i : nat) (el : V) : string :=
  str_int (Z.of_nat i + 1) ++ ":" ++ str_value el.

Lemma line_features (ex : L * list V) :
  libsvm_line str_label str_value ex
  = str_label (fst ex) ++ String " " (join " " (imap feature (snd ex))).
Proof. reflexivity. Qed.

Lemma feature_no_space (i : nat) (el : V) :
  plain (str_value el) -> no_space (feature i el) = true.
Proof.
  intros [_ Hel]. unfold feature.
  assert (Happ : forall a b, no_space a = true -> no_space b = true ->
                             no_space (a ++ b) = true).
  { intros a b Ha Hb. induction a as [|c a IH]; [exact Hb|].
    rewrite append_cons. cbn [no_space] in *. apply andb_prop in Ha as [Hc Ha].
    rewrite Hc, (IH Ha). reflexivity. }
  apply Happ; [apply str_int_no_space|]. apply Happ; [reflexivity | exact Hel].
Qed.

Lemma line_no_newline (ex : L * list V) :
  label_ok (fst ex) -> row_ok (snd ex) ->
  occurrences lf (libsvm_line str_label str_value ex) = 0%nat.
Proof.
  intros [[_ Hl] _] [_ Hvec]. rewrite line_features, occurrences_app.
  rewrite (no_space_occurrences lf) by (reflexivity || exact Hl).
  cbn [occurrences]. change (Ascii.eqb " " lf) with false. cbn iota.
  apply occurrences_join; [reflexivity|].
  apply Forall_forall. intros x Hx.
  apply elem_of_lookup_imap in Hx as (i & el & -> & Hi).
  apply no_space_occurrences; [reflexivity|]. apply feature_no_space.
  rewrite Forall_forall in Hvec. apply Hvec. eapply list_elem_of_lookup_2, Hi.
Qed.

Lemma line_label (ex : L * list V) :
  label_ok (fst ex) ->
  index (split " " (libsvm_line str_label str_value ex)) 0 = Some (str_label (fst ex)).
Proof.
  intros [[_ Hl] _]. rewrite line_features, split_piece_sep; [reflexivity|].
  apply no_space_occurrences; [reflexivity | exact Hl].
Qed.

Lemma line_starts_plain (ex : L * list V) :
  label_ok (fst ex) -> starts_plain (libsvm_line str_label str_value ex) = true.
Proof.
  intros [Hl _]. rewrite line_features. apply starts_plain_app, plain_starts, Hl.
Qed.

Lemma line_ends_plain (ex : L * list V) :
  row_ok (snd ex) -> ends_plain (libsvm_line str_label str_value ex) = true.
Proof.
  intros [Hne Hvec]. rewrite line_features. apply ends_plain_app.
  destruct (exists_last Hne) as (init & el & Hsnd). rewrite Hsnd in *.
  rewrite imap_app. cbn [imap].
  destruct (join_last " " (imap feature init) (feature (length init + 0) el)) as [pre Hjoin].
  change (ends_plain (String " " (join " " (imap feature init ++
            [feature (length init + 0) el])%list)) = true).
  rewrite Hjoin. apply (ends_plain_app (String " " pre)).
  unfold feature. apply ends_plain_app, (ends_plain_app ":"), plain_ends.
  rewrite Forall_forall in Hvec. apply Hvec.
  apply elem_of_app. right. apply list_elem_of_here.
Qed.

(** The evaluation cell on the text of a part written by [to_libsvm], for
    labels and values in the text form of numbers and rows that are not
    empty: stripping changes nothing, the lines sent to the endpoint are
    the lines written, one for each example, and the labels the
    predictions are compared with are the labels written. *)
Theorem evaluate_written_part (labels : list L) (values : list (list V))
    (endpoint_name : string) (w : W) :
  labels <> [] -> values <> [] ->
  Forall label_ok labels -> Forall row_ok values ->
  let exs := zip labels values in
  let lines := libsvm_line str_label str_value <$> exs in
  let text := join nl lines in
  buf (to_libsvm str_label str_value BytesIO_new labels values) = bytes_utf8 text
  /\ split lf (strip text) = lines
  /\ evaluate float ne invoke_endpoint stdout_write text endpoint_name w =
     match batch_predict_min (do_predict_ascii float invoke_endpoint) stdout_write
             lines 100 endpoint_name "text/x-libsvm" w with
     | None => inl CallError
     | Some (preds, w') =>
         match mismatches ne preds (num <$> (fst <$> exs)) with
         | None => inl IndexError
         | Some wrong =>
             if Z.of_nat (length preds) =? 0 then inl ZeroDivisionError
             else inr (PrimFloat.div (float_of_int wrong)
                                     (float_of_int (Z.of_nat (length preds))), w')
         end
     end.
Proof.
  intros Hl0 Hv0 Hlabels Hvalues exs lines text.
  assert (Hexs : Forall (fun ex => label_ok (fst ex) /\ row_ok (snd ex)) exs).
  { apply Forall_forall. intros [l vec] Hin. simpl. rewrite !Forall_forall in *. split.
    - apply Hlabels. eapply elem_of_zip_l, Hin.
    - apply Hvalues. eapply elem_of_zip_r, Hin. }
  assert (Hne : exs <> []).
  { unfold exs. destruct labels; [congruence|]. destruct values; [congruence|]. discriminate. }
  assert (Hsplit : split lf text = lines).
  { apply (split_join lf).
    - unfold lines. destruct exs; [congruence | discriminate].
    - apply Forall_fmap. eapply Forall_impl; [exact Hexs|].
      intros ex [Hl Hr]. apply line_no_newline; assumption. }
  assert (Hstrip : strip text = text).
  { apply strip_plain_ends.
    - unfold text, lines. destruct exs as [|ex rest] eqn:E; [congruence|].
      apply Forall_cons in Hexs as [[Hl _] _]. rewrite fmap_cons.
      destruct (libsvm_line str_label str_value <$> rest) as [|y ys].
      + apply line_starts_plain, Hl.
      + change (starts_plain (libsvm_line str_label str_value ex ++ nl ++ join nl (y :: ys))
                = true).
        apply starts_plain_app, line_starts_plain, Hl.
    - destruct (exists_last Hne) as (init & ex & Hinit).
      unfold text, lines. rewrite Hinit, fmap_app. cbn [fmap list_fmap].
      destruct (join_last nl (libsvm_line str_label str_value <$> init)
                  (libsvm_line str_label str_value ex)) as [pre ->].
      apply ends_plain_app, line_ends_plain.
      rewrite Hinit in Hexs. apply Forall_app in Hexs as [_ Hlast].
      apply Forall_cons in Hlast as [[_ Hr] _]. exact Hr. }
  split; [|split].
  - rewrite to_libsvm_examples, write_new. reflexivity.
  - rewrite Hstrip. exact Hsplit.
  - unfold evaluate. cbv zeta. rewrite Hstrip, Hsplit. unfold lines at 1.
    rewrite (comprehension_images _ _ (fun ex => num (fst ex))).
    + rewrite <- list_fmap_compose. reflexivity.
    + intros ex Hex. rewrite Forall_forall in Hexs. destruct (Hexs ex Hex) as [Hl _].
      rewrite line_label by exact Hl. apply Hl.
Qed.

End Written.

(** *** Digits as labels, whole numbers as features *)

Lemma str_int_plain (z : Z) : plain (str_int z).
Proof.
  split; [|apply str_int_no_space].
  unfold str_int, NilZero.string_of_int, NilZero.string_of_uint.
  destruct (Z.to_int z) as [d|d]; destruct d; discriminate.
Qed.

Lemma evaluate_written_part_witness :
  [5; 0] <> [] /\ [[0; 7]; [3]] <> []
  /\ split lf (strip (join nl (libsvm_line str_int str_int <$> zip [5; 0] [[0; 7]; [3]])))
     = ["5 1:0 2:7"; "0 1:3"].
Proof.
  split; [discriminate|]. split; [discriminate|].
  destruct (evaluate_written_part str_int str_int float_int Z.eqb
              (fun _ _ _ (w : nat) => @None (list byte * nat)) (fun _ w => w) id
              [5; 0] [[0; 7]; [3]] "ep" 0%nat) as (_ & Hsplit & _).
  - discriminate.
  - discriminate.
  - repeat (apply Forall_cons; split;
            [split; [apply str_int_plain | vm_compute; reflexivity]|]). constructor.
  - repeat (apply Forall_cons; split;
            [split; [discriminate|];
             repeat (apply Forall_cons; split; [apply str_int_plain|]); constructor|]).
    constructor.
  - rewrite Hsplit. vm_compute. reflexivity.
Defined.

End ReadBack.

(** ** When the collecting loop finishes (blazingtext) *)

Module Collected.
Import Py Spearman.

Section Finishes.
Context {F : Type}.
Variable is_zero : F -> bool.
Variable norm : list F -> F.
Variable predict : nat -> list string -> list (string * list F).

(** The endpoint answers with a vector for each word it is asked for, in
    the order of the words, and no vector has norm zero. *)
Definition answers_all : Prop :=
  forall k words,
    fst <$> predict k words = words
    /\ Forall (fun i => is_zero (norm (snd i)) = false) (predict k words).

(** The number of requests for [total] words: [total / 500], rounded up. *)
Definition requests (total : nat) : nat := ((total + 499) / 500)%nat.

(** What holds after [k] turns of the loop. *)
Definition after (query_words : list string) (k : nat) (st : @Collect F) : Prop :=
  batch_start st = Z.of_nat (500 * k)
  /\ Z.min (batch_end st) (Z.of_nat (length query_words))
     = Z.of_nat (Nat.min (500 * S k) (length query_words))
  /\ dom (vectors st) = list_to_set (take (500 * k) query_words)
  /\ calls st = k.

Lemma store_all_dom (vecs : list (string * list F)) (vectors : gmap string (list F)) :
  Forall (fun i => is_zero (norm (snd i)) = false) vecs ->
  dom (foldl (store is_zero norm) vectors vecs)
  = dom vectors ∪ list_to_set (fst <$> vecs).
Proof.
  revert vectors. induction vecs as [|i vecs IH]; intros vectors Hall.
  - simpl. symmetry. apply union_empty_r_L.
  - apply Forall_cons in Hall as [Hi Hall]. simpl foldl. rewrite IH by exact Hall.
    unfold store. rewrite Hi, dom_insert_L, fmap_cons. cbn [list_to_set].
    rewrite (union_comm_L {[fst i]} (dom vectors)), <- union_assoc_L. reflexivity.
Qed.

Lemma after_step (query_words : list string) (k : nat) (st : @Collect F) :
  answers_all ->
  after query_words k st ->
  (500 * k < length query_words)%nat ->
  after query_words (S k) (collect_step is_zero norm predict query_words st).
Proof.
  intros Hans (Hstart & Hend & Hdom & Hcalls) Hlt. unfold collect_step, after.
  cbn [batch_start batch_end vectors calls]. rewrite Hstart, Hend.
  split; [unfold batch_size; lia|]. split; [unfold batch_size; lia|].
  split; [|lia].
  destruct (Hans (Spearman.calls st)
              (slice query_words (Z.of_nat (500 * k))
                 (Z.of_nat (Nat.min (500 * S k) (length query_words))))) as [Hwords Hnz].
  rewrite store_all_dom by exact Hnz. rewrite Hwords, Hdom.
  rewrite slice_take_drop by lia.
  rewrite <- list_to_set_app_L. f_equal.
  rewrite <- (take_drop (500 * k) (take (500 * S k) query_words)).
  rewrite take_take, skipn_firstn_comm.
  replace (Nat.min (500 * k) (500 * S k)) with (500 * k)%nat by lia.
  f_equal. apply list_eq. intros i. rewrite !lookup_take.
  repeat case_decide; try reflexivity; try lia.
  symmetry. apply lookup_ge_None. rewrite length_drop. lia.
Qed.

Lemma after_size (query_words : list string) (k : nat) (st : @Collect F) :
  NoDup query_words ->
  after query_words k st ->
  size (Spearman.vectors st) = Nat.min (500 * k) (length query_words).
Proof.
  intros Hnd (_ & _ & Hdom & _). rewrite <- size_dom, Hdom.
  rewrite size_list_to_set.
  - apply length_take.
  - eapply sublist_NoDup; [exact Hnd | apply sublist_take].
Qed.

Lemma collect_from (query_words : list string) (n k : nat) (st : @Collect F) :
  NoDup query_words ->
  answers_all ->
  after query_words k st ->
  (k + n = requests (length query_words))%nat ->
  exists st',
    collect is_zero norm predict (S n) query_words st = Some st'
    /\ after query_words (requests (length query_words)) st'.
Proof.
  intros Hnd Hans. revert k st. induction n as [|n IH]; intros k st Hafter Hk.
  - exists st. cbn [collect]. rewrite (after_size _ k st Hnd Hafter).
    assert (Hmin : Nat.min (500 * k) (length query_words) = length query_words).
    { unfold requests in Hk. pose proof (Nat.div_mod_eq (length query_words + 499) 500).
      pose proof (Nat.mod_upper_bound (length query_words + 499) 500). lia. }
    rewrite Hmin, Nat.eqb_refl. split; [reflexivity|].
    replace (requests (length query_words)) with k by lia. exact Hafter.
  - assert (Hlt : (500 * k < length query_words)%nat).
    { unfold requests in Hk. pose proof (Nat.div_mod_eq (length query_words + 499) 500).
      pose proof (Nat.mod_upper_bound (length query_words + 499) 500). lia. }
    change (collect is_zero norm predict (S (S n)) query_words st)
      with (if (size (Spearman.vectors st) =? length query_words)%nat then Some st
            else collect is_zero norm predict (S n) query_words
                   (collect_step is_zero norm predict query_words st)).
    rewrite (after_size _ k st Hnd Hafter).
    destruct (Nat.eqb_spec (Nat.min (500 * k) (length query_words)) (length query_words));
      [lia|].
    apply (IH (S k)); [|lia]. apply after_step; assumption.
Qed.

(** When the endpoint answers every request with a vector of non-zero norm
    for each word asked, and [query_words] holds no word twice, the loop
    finishes: after [ceil(total_words / 500)] requests [vectors] holds
    exactly the query words. *)
Theorem collect_finishes (query_words : list string) (fuel : nat) :
  NoDup query_words ->
  answers_all ->
  (requests (length query_words) < fuel)%nat ->
  exists st,
    collect is_zero norm predict fuel query_words collect_start = Some st
    /\ dom (Spearman.vectors st) = list_to_set query_words
    /\ Spearman.calls st = requests (length query_words).
Proof.
  intros Hnd Hans Hfuel.
  assert (Hstart : after query_words 0 (@collect_start F)).
  { unfold after, collect_start, batch_size.
    cbn [batch_start batch_end Spearman.vectors Spearman.calls].
    split; [reflexivity|]. split; [lia|]. split; [|reflexivity].
    rewrite dom_empty_L. reflexivity. }
  destruct (collect_from query_words (requests (length query_words)) 0 collect_start
              Hnd Hans Hstart eq_refl) as (st & Hrun & (_ & _ & Hdom & Hcalls)).
  exists st. split; [|split; [|exact Hcalls]].
  - clear Hstart. revert Hrun. generalize (@collect_start F).
    assert (Hmono : forall n m (st0 : @Collect F),
      collect is_zero norm predict n query_words st0 = Some st -> (n <= m)%nat ->
      collect is_zero norm predict m query_words st0 = Some st).
    { induction n as [|n IHn]; intros m st0 Hn Hle; [discriminate|].
      destruct m as [|m]; [lia|]. cbn [collect] in *.
      destruct (size (Spearman.vectors st0) =? length query_words)%nat; [exact Hn|].
      apply IHn; [exact Hn | lia]. }
    intros st0 Hrun. apply (Hmono _ _ _ Hrun). lia.
  - rewrite Hdom. f_equal. apply take_ge.
    unfold requests. pose proof (Nat.div_mod_eq (length query_words + 499) 500).
    pose proof (Nat.mod_upper_bound (length query_words + 499) 500). lia.
Qed.

End Finishes.

(** *** An endpoint without zero vectors *)

Definition unit_predict (_ : nat) (words : list string) : list (string * list Z) :=
  (fun word => (word, [1])) <$> words.

Lemma collect_finishes_witness :
  NoDup ["cat"; "dog"; "emu"]
  /\ exists st,
       collect (Z.eqb 0) (fun v => 1) unit_predict 5 ["cat"; "dog"; "emu"] collect_start
         = Some st
       /\ calls st = 1%nat.
Proof.
  assert (Hnd : NoDup ["cat"; "dog"; "emu"]).
  { apply (bool_decide_unpack _). vm_compute. exact I. }
  split; [exact Hnd|].
  destruct (collect_finishes (Z.eqb 0) (fun v => 1) unit_predict ["cat"; "dog"; "emu"] 5 Hnd)
    as (st & Hrun & _ & Hcalls).
  - intros k words. unfold unit_predict. split.
    + rewrite <- list_fmap_compose. apply list_fmap_id.
    + apply Forall_fmap, Forall_forall. intros word _. reflexivity.
  - vm_compute. lia.
  - exists st. split; [exact Hrun | exact Hcalls].
Defined.

End Collected.

(** ** Downloading a data set once ([download]) *)

Module Fetch.
Import Py Predict.

(** The local files, and the addresses requested so far. *)
Record World := mkWorld { files : gmap string (list byte); requested : list string }.

Section Remote.
(** What the [k]-th request gets for an address; [None] when it fails. *)
Variable remote : nat -> string -> option (list byte).

(** [urllib.request.urlretrieve(url, filename)]; [None] is an exception: the
    request fails, or the empty file name cannot be opened. *)
Definition urlretrieve (url filename : string) (w : World) : option World :=
  match remote (length (requested w)) url with
  | None => None
  | Some body =>
      if String.eqb filename "" then None
      else Some (mkWorld (<[filename := body]> (files w)) (requested w ++ [url])%list)
  end.

(** [download(url)]. *)
Definition download (url : string) (w : World) : option World :=
  match index (split "/" url) (-1) with
  | None => None
  | Some filename =>
      if negb (bool_decide (is_Some (files w !! filename)))
      then urlretrieve url filename w
      else Some w
  end.

(** The name of the local file: what follows the last slash. *)
Definition filename_of (url : string) : string :=
  default "" (last (split "/" url)).

Lemma split_pieces (sep : ascii) (s : string) :
  Forall (fun piece => occurrences sep piece = 0%nat) (split sep s).
Proof.
  induction s as [|c s IH]; [repeat constructor|]. simpl.
  destruct (Ascii.eqb c sep) eqn:Hc; [constructor; [reflexivity | exact IH]|].
  destruct (split sep s) as [|piece pieces]; [repeat constructor; simpl; rewrite Hc; reflexivity|].
  apply Forall_cons in IH as [Hpiece Hrest]. constructor; [|exact Hrest].
  simpl. rewrite Hc, Hpiece. reflexivity.
Qed.

Lemma index_last {A} (xs : list A) : xs <> [] -> index xs (-1) = last xs.
Proof.
  intros Hne. unfold index. simpl.
  destruct (Z.leb_spec (- Z.of_nat (length xs)) (-1)) as [_|Hlt].
  - rewrite last_lookup. f_equal. destruct xs; [congruence|]. simpl length. lia.
  - destruct xs; [congruence|]. simpl length in Hlt. lia.
Qed.

Lemma download_filename (url : string) :
  index (split "/" url) (-1) = Some (filename_of url)
  /\ occurrences "/" (filename_of url) = 0%nat.
Proof.
  assert (Hne : split "/" url <> []).
  { intros H. apply (f_equal length) in H. rewrite split_length in H. discriminate. }
  rewrite index_last by exact Hne. unfold filename_of.
  destruct (last (split "/" url)) as [name|] eqn:Hlast.
  - split; [reflexivity|]. simpl.
    pose proof (split_pieces "/" url) as Hall. rewrite Forall_forall in Hall.
    apply Hall. rewrite last_lookup in Hlast. eapply list_elem_of_lookup_2, Hlast.
  - apply last_None in Hlast. congruence.
Qed.

(** [download] stores the file under the part of the address after its
    last slash, a name without a slash; it requests nothing when a file of
    that name is there, whatever address the file came from; so a second
    call for the same address, or for another address that ends in the
    same name, changes nothing. *)
Theorem download_once (url : string) (w : World) :
  occurrences "/" (filename_of url) = 0%nat
  /\ (is_Some (files w !! filename_of url) -> download url w = Some w)
  /\ (forall w1, download url w = Some w1 ->
        is_Some (files w1 !! filename_of url)
        /\ forall url', filename_of url' = filename_of url -> download url' w1 = Some w1).
Proof.
  destruct (download_filename url) as [Hname Hslash].
  assert (Hskip : forall url0 w0,
    is_Some (files w0 !! filename_of url0) -> download url0 w0 = Some w0).
  { intros url0 w0 Hfile. unfold download.
    rewrite (proj1 (download_filename url0)).
    rewrite bool_decide_eq_true_2 by exact Hfile. reflexivity. }
  split; [exact Hslash|]. split; [apply Hskip|].
  intros w1 Hrun.
  assert (Hfile : is_Some (files w1 !! filename_of url)).
  { unfold download in Hrun. rewrite Hname in Hrun.
    destruct (decide (is_Some (files w !! filename_of url))) as [Hthere|Hthere].
    - rewrite bool_decide_eq_true_2 in Hrun by exact Hthere.
      injection Hrun as <-. exact Hthere.
    - rewrite bool_decide_eq_false_2 in Hrun by exact Hthere.
      simpl in Hrun. unfold urlretrieve in Hrun.
      destruct (remote _ url) as [body|]; [|discriminate].
      destruct (String.eqb (filename_of url) ""); [discriminate|].
      injection Hrun as <-. simpl. rewrite lookup_insert_eq. eexists. reflexivity. }
  split; [exact Hfile|]. intros url' Hsame. apply Hskip. rewrite Hsame. exact Hfile.
Qed.

End Remote.

(** *** Two addresses that end in the same name *)

Definition mirror (_ : nat) (url : string) : option (list byte) :=
  if String.eqb url "http://a.example/zips/val2017.zip" then Some [x61]
  else if String.eqb url "http://b.example/val2017.zip" then Some [x62]
  else None.

Example download_same_name :
  (w1 ← download mirror "http://a.example/zips/val2017.zip" (mkWorld ∅ []);
   download mirror "http://b.example/val2017.zip" w1)
  = Some (mkWorld {[ "val2017.zip" := [x61] ]} ["http://a.example/zips/val2017.zip"]).
Proof. vm_compute. reflexivity. Qed.

(** An address that ends in a slash gives the empty file name. *)
Example download_directory :
  filename_of "http://a.example/zips/" = ""
  /\ download (fun _ _ => Some [x61]) "http://a.example/zips/" (mkWorld ∅ []) = None.
Proof. vm_compute. split; reflexivity. Qed.

End Fetch.

(** ** The stripping loop on labels already stripped *)

Module Relabel.
Import Labels.

Section Twice.
Variable upper : string -> string.

(** The body of the loop replaces the list of labels by a string, so it is
    not made to run twice on the same output: a second turn takes the first
    character of the stripped label, and [[9:]] of one character is empty.
    The label ends as [''.upper()], or the turn raises [IndexError] when the
    stripped label was empty. *)
Theorem strip_label_twice (h : Heap) (d l : nat) (fields : list (string * Val))
    (s : string) (rest : list Val) :
  h !! d = Some (ODict fields) ->
  dict_get "label" fields = Some (VRef l) ->
  h !! l = Some (OList (VStr s :: rest)) ->
  let stripped := upper (drop_chars 9 s) in
  let fields1 := dict_set "label" (VStr stripped) fields in
  let h1 := <[d := ODict fields1]> h in
  strip_label upper h (VRef d) = Some h1
  /\ strip_label upper h1 (VRef d) =
     match stripped with
     | EmptyString => None
     | String _ _ => Some (<[d := ODict (dict_set "label" (VStr (upper "")) fields1)]> h1)
     end.
Proof.
  intros Hd Hlabel Hl stripped fields1 h1. split.
  - unfold strip_label. rewrite Hd, Hlabel. unfold first. rewrite Hl. reflexivity.
  - unfold strip_label, h1.
    rewrite list_lookup_insert_eq by (eapply lookup_lt_Some, Hd).
    unfold fields1. rewrite dict_get_set. unfold first.
    destruct stripped as [|c tail]; [reflexivity|].
    replace (drop_chars 9 (String c "")) with "" by reflexivity. reflexivity.
Qed.

End Twice.

Lemma strip_label_twice_witness :
  let h := [OList [VStr "__label__en"]; ODict [("label", VRef 0)]] in
  exists h1,
    strip_label upper_ascii h (VRef 1) = Some h1
    /\ strip_label upper_ascii h1 (VRef 1)
       = Some [OList [VStr "__label__en"]; ODict [("label", VStr "")]].
Proof.
  intros h.
  destruct (strip_label_twice upper_ascii h 1 0 [("label", VRef 0)] "__label__en" []
              eq_refl eq_refl eq_refl) as [H1 H2].
  eexists. split; [exact H1 | exact H2].
Defined.

End Relabel.
